(** * TUPA neural-network classifier: specification checked against
      [src/tupa/classifiers/nn/neural_network.py]

    The Python class [NeuralNetwork] is embedded as a state-and-error monad
    over a record holding the object's attributes.  The autodiff engine
    (dynet) is symbolic in the source as well: expressions are syntax trees,
    and every effect on the engine or on the process (graph renewal,
    forward/backward passes, optimizer steps, printing) is appended to a
    trace.  The base class [Classifier], the constant [MISSING_VALUE] and the
    global [Config] are not part of the file and are taken as parameters. *)

From Stdlib Require Import String ZArith QArith List Bool Lia Permutation.
From Stdlib Require Import OrderedTypeEx Sorted.
Import ListNotations.
Local Open Scope string_scope.
Local Open Scope list_scope.
Local Open Scope Z_scope.

(** ** Python built-ins used by the source *)

(** [range(n)]: empty when [n <= 0]. *)
Definition range (n : Z) : list Z := map Z.of_nat (seq 0 (Z.to_nat n)).

(** [n * [x]]: a list repeated a non-positive number of times is empty. *)
Definition py_repeat {A} (n : Z) (x : A) : list A := repeat x (Z.to_nat n).

Definition len {A} (l : list A) : Z := Z.of_nat (length l).

Definition zip {A B} (l : list A) (m : list B) : list (A * B) := combine l m.

Definition enumerate {A} (l : list A) : list (Z * A) :=
  combine (range (len l)) l.

(** [int(x)] on a finite number truncates toward zero. *)
Definition int (x : Q) : Z := Z.quot (Qnum x) (Zpos (Qden x)).

(** Position designated by a Python index, negative indices counting from
    the end; [None] when the index is out of range. *)
Definition py_pos {A} (l : list A) (i : Z) : option nat :=
  if (0 <=? i) && (i <? len l) then Some (Z.to_nat i)
  else if (i <? 0) && (- len l <=? i) then Some (Z.to_nat (len l + i))
  else None.

Fixpoint list_set {A} (l : list A) (n : nat) (x : A) : list A :=
  match l, n with
  | [], _ => []
  | _ :: l', O => x :: l'
  | y :: l', S n' => y :: list_set l' n' x
  end.

(** ** Exceptions and results *)

(** The strings ["W"] and ["b"] heading the keys of the MLP parameters. *)
Inductive role := role_W | role_b.

(** Keys of the parameter table: a feature-type suffix or a triple
    [(role, layer, axis)]. *)
Inductive param_key :=
| Suffix (suffix : string)
| Triple (r : role) (i : Z) (axis : Z).

Inductive exn :=
| AssertionError (msg : string) (args : list Z)
| KeyError (k : param_key)
| IndexError
| ValueError (msg : string)
| AttributeError (attr : string)
| TypeError
| OSError (msg : string)
| RuntimeError (msg : string)
| SystemExit (code : Z).

Inductive result (A : Type) :=
| Ok (a : A)
| Raise (e : exn).
Arguments Ok {A} a.
Arguments Raise {A} e.

Definition rbind {A B} (r : result A) (k : A -> result B) : result B :=
  match r with
  | Ok a => k a
  | Raise e => Raise e
  end.

Notation "x <~ r ;; k" := (rbind r (fun x => k))
  (at level 61, r at next level, right associativity).

Definition from_option {A} (o : option A) (e : exn) : result A :=
  match o with
  | Some a => Ok a
  | None => Raise e
  end.

(** [l[i]] *)
Definition py_index {A} (l : list A) (i : Z) : result A :=
  match py_pos l i with
  | Some n => from_option (nth_error l n) IndexError
  | None => Raise IndexError
  end.

(** [l[i] = x] *)
Definition py_setitem {A} (l : list A) (i : Z) (x : A) : result (list A) :=
  match py_pos l i with
  | Some n => Ok (list_set l n x)
  | None => Raise IndexError
  end.

Fixpoint rmap {A B} (f : A -> result B) (l : list A) : result (list B) :=
  match l with
  | [] => Ok []
  | x :: l' => y <~ f x ;; ys <~ rmap f l' ;; Ok (y :: ys)
  end.

(** ** Dictionaries

    A [dict] keeps insertion order, as Python's [dict] and [OrderedDict] do;
    keys are unique in every dictionary the program builds. *)

Definition dict (K V : Type) := list (K * V).

Section Dict.
Context {K V : Type} (eqb : K -> K -> bool).

Fixpoint dict_get (d : dict K V) (k : K) : option V :=
  match d with
  | [] => None
  | (k', v) :: d' => if eqb k k' then Some v else dict_get d' k
  end.

(** [d[k] = v]: an existing key keeps its position. *)
Fixpoint dict_set (d : dict K V) (k : K) (v : V) : dict K V :=
  match d with
  | [] => [(k, v)]
  | (k', v') :: d' =>
      if eqb k k' then (k, v) :: d' else (k', v') :: dict_set d' k v
  end.

(** [d.update(e)] *)
Definition dict_update (d e : dict K V) : dict K V :=
  fold_left (fun acc kv => dict_set acc (fst kv) (snd kv)) e d.

Definition keys (d : dict K V) : list K := map fst d.
Definition values (d : dict K V) : list V := map snd d.
End Dict.

Definition role_eqb (r r' : role) : bool :=
  match r, r' with
  | role_W, role_W | role_b, role_b => true
  | _, _ => false
  end.

Definition key_eqb (k k' : param_key) : bool :=
  match k, k' with
  | Suffix s, Suffix s' => String.eqb s s'
  | Triple r i a, Triple r' i' a' => role_eqb r r' && (i =? i') && (a =? a')
  | _, _ => false
  end.

(** [sorted(d.items())]: the keys of a dictionary are distinct, so the pairs
    are ordered by key alone, lexicographically. *)
Fixpoint insert_item {V} (kv : string * V) (l : list (string * V))
  : list (string * V) :=
  match l with
  | [] => [kv]
  | kv' :: l' =>
      if String.leb (fst kv) (fst kv') then kv :: l
      else kv' :: insert_item kv l'
  end.

Definition sorted_items {V} (d : dict string V) : list (string * V) :=
  fold_right insert_item [] d.

(** ** Data supplied by the collaborators *)

Definition tensor := list (list Q).

(** A raw feature value: an integer id or a number. *)
Inductive value :=
| Int (z : Z)
| Float (q : Q).

Definition to_float (v : value) : Q :=
  match v with
  | Int z => inject_Z z
  | Float q => q
  end.

(** [v == m] for an integer constant [m]. *)
Definition value_eqb (v : value) (m : Z) : bool :=
  match v with
  | Int z => z =? m
  | Float q => Qeq_bool q (inject_Z m)
  end.

Definition features := dict string (list value).

Module FeatureParam.
Record t := {
  size : Z;
  dim : Z;
  numeric : bool;
  indexed : bool;
  updated : bool;
  num : Z;
  init : option tensor
}.
End FeatureParam.

(** [Config().args], as far as the class reads it. *)
Module Args.
Record t := {
  layers : Z;
  layer_dim : Z;
  output_dim : Z;
  activation : string;
  init : string;
  minibatch_size : Z;
  dropout : Q;
  optimizer : string;
  verbose : Z;
  dynet_viz : bool
}.
End Args.

(** ** The engine's objects, as the class sees them *)

Inductive trainer_kind :=
| SimpleSGDTrainer
| MomentumSGDTrainer
| AdagradTrainer
| AdadeltaTrainer
| AdamTrainer.

Inductive initializer :=
| GlorotInitializer
| NormalInitializer
| UniformInitializer (scale : Z)
| ConstInitializer (c : Z).

Inductive activation_fn := square | cube | tanh | logistic | rectify.

Definition TRAINERS (k : string) : option trainer_kind :=
  if String.eqb k "sgd" then Some SimpleSGDTrainer
  else if String.eqb k "momentum" then Some MomentumSGDTrainer
  else if String.eqb k "adagrad" then Some AdagradTrainer
  else if String.eqb k "adadelta" then Some AdadeltaTrainer
  else if String.eqb k "adam" then Some AdamTrainer
  else None.

Definition INITIALIZERS (k : string) : option initializer :=
  if String.eqb k "glorot_uniform" then Some GlorotInitializer
  else if String.eqb k "normal" then Some NormalInitializer
  else if String.eqb k "uniform" then Some (UniformInitializer 1)
  else if String.eqb k "const" then Some (ConstInitializer 0)
  else None.

Definition ACTIVATIONS (k : string) : option activation_fn :=
  if String.eqb k "square" then Some square
  else if String.eqb k "cube" then Some cube
  else if String.eqb k "tanh" then Some tanh
  else if String.eqb k "sigmoid" then Some logistic
  else if String.eqb k "relu" then Some rectify
  else None.

(** A [dy.Model] is the collection of the tensors allocated in it, given by
    their shapes in allocation order; a parameter handle carries its position
    there, so that two tensors of one shape remain distinct. *)
Definition Model := list (list Z).

Inductive param :=
| LookupParameters (id : nat) (shape : Z * Z) (updated : bool)
    (init : option tensor)
| Parameters (id : nat) (shape : list Z) (init : initializer).

(** Expressions of the computation graph. *)
#[warnings="-register-all"]
Inductive expr :=
| inputVector (xs : list Q)
| lookup (p : param) (x : value)
| concatenate (es : list expr)
| parameter (p : param)
| dropout (e : expr) (rate : Q)
| mul (e1 e2 : expr)
| add (e1 e2 : expr)
| activate (f : activation_fn) (e : expr)
| log_softmax (e : expr) (restrict : list Z)
| pick (e : expr) (i : Z)
| esum (es : list expr)
| neg (e : expr).

Inductive message :=
| msg_no_updates
| msg_total_loss (steps : Z) (loss : expr)
| msg_removed (f : string)
| msg_saving (f : string)
| msg_done
| msg_failed_saving (e : exn).

(** What the class does to the engine and to the process, in order. *)
Inductive event :=
| renew_cg
| forward (e : expr)
| backward (e : expr)
| trainer_update
| trainer_update_epoch
| trainer_status
| print (m : message)
| print_graphviz
| model_saved (f : string) (ps : list param).

(** Values stored in the descriptor returned by [save_model]. *)
Inductive dvalue :=
| d_input_params (ip : dict string FeatureParam.t)
| d_keys (ks : list param_key)
| d_int (z : Z)
| d_str (s : string)
| d_extra (payload : string).

(** The base class [Classifier] over its own state [B]: the label counts,
    the file name, the hooks reached through [super()] and [save_extra]. *)
Class Classifier (B : Type) := {
  num_labels : B -> list nat;
  filename : B -> string;
  super_score : B -> features -> Z -> result B;
  super_update : B -> features -> Z -> Z -> Z -> Q -> result B;
  super_finalize : B -> result B;
  save_extra : B -> result (dict string dvalue)
}.

(** What lies outside the class: the imported constant, the global
    configuration, the values the engine computes and the outcome of the two
    file operations ([None] when they return, the exception otherwise). *)
Class Environment := {
  MISSING_VALUE : Z;
  args : Args.t;
  npvalue : list event -> expr -> list Q;
  os_remove : list event -> string -> option exn;
  model_save : list event -> string -> list param -> option exn
}.

(** ** The object *)

Section NeuralNetwork.
Context {B : Type} {base_class : Classifier B} {env : Environment}.

Record NeuralNetwork := {
  base : B;
  model : option Model;
  max_num_labels : list Z;
  _layers : Z;
  _layer_dim : Z;
  _output_dim : Z;
  _activation_str : string;
  _init_str : string;
  _minibatch_size : Z;
  _dropout : Q;
  _optimizer_str : string;
  _activation : activation_fn;
  _init : initializer;
  _optimizer : trainer_kind;
  _num_labels : list nat;
  _params : dict param_key param;
  _empty_values : dict string expr;
  _input_params : dict string FeatureParam.t;
  _indexed_num : option Z;
  _indexed_dim : option Z;
  _input_dim : option Z;
  _losses : list expr;
  _iteration : Z;
  _trainer : option trainer_kind;
  _value : list (option expr);
  trace : list event
}.

Definition set_base (x : B) (s : NeuralNetwork) : NeuralNetwork :=
  {| base := x;
     model := model s;
     max_num_labels := max_num_labels s;
     _layers := _layers s;
     _layer_dim := _layer_dim s;
     _output_dim := _output_dim s;
     _activation_str := _activation_str s;
     _init_str := _init_str s;
     _minibatch_size := _minibatch_size s;
     _dropout := _dropout s;
     _optimizer_str := _optimizer_str s;
     _activation := _activation s;
     _init := _init s;
     _optimizer := _optimizer s;
     _num_labels := _num_labels s;
     _params := _params s;
     _empty_values := _empty_values s;
     _input_params := _input_params s;
     _indexed_num := _indexed_num s;
     _indexed_dim := _indexed_dim s;
     _input_dim := _input_dim s;
     _losses := _losses s;
     _iteration := _iteration s;
     _trainer := _trainer s;
     _value := _value s;
     trace := trace s |}.

Definition set_model (x : option Model) (s : NeuralNetwork) : NeuralNetwork :=
  {| base := base s;
     model := x;
     max_num_labels := max_num_labels s;
     _layers := _layers s;
     _layer_dim := _layer_dim s;
     _output_dim := _output_dim s;
     _activation_str := _activation_str s;
     _init_str := _init_str s;
     _minibatch_size := _minibatch_size s;
     _dropout := _dropout s;
     _optimizer_str := _optimizer_str s;
     _activation := _activation s;
     _init := _init s;
     _optimizer := _optimizer s;
     _num_labels := _num_labels s;
     _params := _params s;
     _empty_values := _empty_values s;
     _input_params := _input_params s;
     _indexed_num := _indexed_num s;
     _indexed_dim := _indexed_dim s;
     _input_dim := _input_dim s;
     _losses := _losses s;
     _iteration := _iteration s;
     _trainer := _trainer s;
     _value := _value s;
     trace := trace s |}.

Definition set_params (x : dict param_key param) (s : NeuralNetwork) : NeuralNetwork :=
  {| base := base s;
     model := model s;
     max_num_labels := max_num_labels s;
     _layers := _layers s;
     _layer_dim := _layer_dim s;
     _output_dim := _output_dim s;
     _activation_str := _activation_str s;
     _init_str := _init_str s;
     _minibatch_size := _minibatch_size s;
     _dropout := _dropout s;
     _optimizer_str := _optimizer_str s;
     _activation := _activation s;
     _init := _init s;
     _optimizer := _optimizer s;
     _num_labels := _num_labels s;
     _params := x;
     _empty_values := _empty_values s;
     _input_params := _input_params s;
     _indexed_num := _indexed_num s;
     _indexed_dim := _indexed_dim s;
     _input_dim := _input_dim s;
     _losses := _losses s;
     _iteration := _iteration s;
     _trainer := _trainer s;
     _value := _value s;
     trace := trace s |}.

Definition set_empty_values (x : dict string expr) (s : NeuralNetwork) : NeuralNetwork :=
  {| base := base s;
     model := model s;
     max_num_labels := max_num_labels s;
     _layers := _layers s;
     _layer_dim := _layer_dim s;
     _output_dim := _output_dim s;
     _activation_str := _activation_str s;
     _init_str := _init_str s;
     _minibatch_size := _minibatch_size s;
     _dropout := _dropout s;
     _optimizer_str := _optimizer_str s;
     _activation := _activation s;
     _init := _init s;
     _optimizer := _optimizer s;
     _num_labels := _num_labels s;
     _params := _params s;
     _empty_values := x;
     _input_params := _input_params s;
     _indexed_num := _indexed_num s;
     _indexed_dim := _indexed_dim s;
     _input_dim := _input_dim s;
     _losses := _losses s;
     _iteration := _iteration s;
     _trainer := _trainer s;
     _value := _value s;
     trace := trace s |}.

Definition set_indexed_num (x : option Z) (s : NeuralNetwork) : NeuralNetwork :=
  {| base := base s;
     model := model s;
     max_num_labels := max_num_labels s;
     _layers := _layers s;
     _layer_dim := _layer_dim s;
     _output_dim := _output_dim s;
     _activation_str := _activation_str s;
     _init_str := _init_str s;
     _minibatch_size := _minibatch_size s;
     _dropout := _dropout s;
     _optimizer_str := _optimizer_str s;
     _activation := _activation s;
     _init := _init s;
     _optimizer := _optimizer s;
     _num_labels := _num_labels s;
     _params := _params s;
     _empty_values := _empty_values s;
     _input_params := _input_params s;
     _indexed_num := x;
     _indexed_dim := _indexed_dim s;
     _input_dim := _input_dim s;
     _losses := _losses s;
     _iteration := _iteration s;
     _trainer := _trainer s;
     _value := _value s;
     trace := trace s |}.

Definition set_indexed_dim (x : option Z) (s : NeuralNetwork) : NeuralNetwork :=
  {| base := base s;
     model := model s;
     max_num_labels := max_num_labels s;
     _layers := _layers s;
     _layer_dim := _layer_dim s;
     _output_dim := _output_dim s;
     _activation_str := _activation_str s;
     _init_str := _init_str s;
     _minibatch_size := _minibatch_size s;
     _dropout := _dropout s;
     _optimizer_str := _optimizer_str s;
     _activation := _activation s;
     _init := _init s;
     _optimizer := _optimizer s;
     _num_labels := _num_labels s;
     _params := _params s;
     _empty_values := _empty_values s;
     _input_params := _input_params s;
     _indexed_num := _indexed_num s;
     _indexed_dim := x;
     _input_dim := _input_dim s;
     _losses := _losses s;
     _iteration := _iteration s;
     _trainer := _trainer s;
     _value := _value s;
     trace := trace s |}.

Definition set_input_dim (x : option Z) (s : NeuralNetwork) : NeuralNetwork :=
  {| base := base s;
     model := model s;
     max_num_labels := max_num_labels s;
     _layers := _layers s;
     _layer_dim := _layer_dim s;
     _output_dim := _output_dim s;
     _activation_str := _activation_str s;
     _init_str := _init_str s;
     _minibatch_size := _minibatch_size s;
     _dropout := _dropout s;
     _optimizer_str := _optimizer_str s;
     _activation := _activation s;
     _init := _init s;
     _optimizer := _optimizer s;
     _num_labels := _num_labels s;
     _params := _params s;
     _empty_values := _empty_values s;
     _input_params := _input_params s;
     _indexed_num := _indexed_num s;
     _indexed_dim := _indexed_dim s;
     _input_dim := x;
     _losses := _losses s;
     _iteration := _iteration s;
     _trainer := _trainer s;
     _value := _value s;
     trace := trace s |}.

Definition set_losses (x : list expr) (s : NeuralNetwork) : NeuralNetwork :=
  {| base := base s;
     model := model s;
     max_num_labels := max_num_labels s;
     _layers := _layers s;
     _layer_dim := _layer_dim s;
     _output_dim := _output_dim s;
     _activation_str := _activation_str s;
     _init_str := _init_str s;
     _minibatch_size := _minibatch_size s;
     _dropout := _dropout s;
     _optimizer_str := _optimizer_str s;
     _activation := _activation s;
     _init := _init s;
     _optimizer := _optimizer s;
     _num_labels := _num_labels s;
     _params := _params s;
     _empty_values := _empty_values s;
     _input_params := _input_params s;
     _indexed_num := _indexed_num s;
     _indexed_dim := _indexed_dim s;
     _input_dim := _input_dim s;
     _losses := x;
     _iteration := _iteration s;
     _trainer := _trainer s;
     _value := _value s;
     trace := trace s |}.

Definition set_iteration (x : Z) (s : NeuralNetwork) : NeuralNetwork :=
  {| base := base s;
     model := model s;
     max_num_labels := max_num_labels s;
     _layers := _layers s;
     _layer_dim := _layer_dim s;
     _output_dim := _output_dim s;
     _activation_str := _activation_str s;
     _init_str := _init_str s;
     _minibatch_size := _minibatch_size s;
     _dropout := _dropout s;
     _optimizer_str := _optimizer_str s;
     _activation := _activation s;
     _init := _init s;
     _optimizer := _optimizer s;
     _num_labels := _num_labels s;
     _params := _params s;
     _empty_values := _empty_values s;
     _input_params := _input_params s;
     _indexed_num := _indexed_num s;
     _indexed_dim := _indexed_dim s;
     _input_dim := _input_dim s;
     _losses := _losses s;
     _iteration := x;
     _trainer := _trainer s;
     _value := _value s;
     trace := trace s |}.

Definition set_trainer (x : option trainer_kind) (s : NeuralNetwork) : NeuralNetwork :=
  {| base := base s;
     model := model s;
     max_num_labels := max_num_labels s;
     _layers := _layers s;
     _layer_dim := _layer_dim s;
     _output_dim := _output_dim s;
     _activation_str := _activation_str s;
     _init_str := _init_str s;
     _minibatch_size := _minibatch_size s;
     _dropout := _dropout s;
     _optimizer_str := _optimizer_str s;
     _activation := _activation s;
     _init := _init s;
     _optimizer := _optimizer s;
     _num_labels := _num_labels s;
     _params := _params s;
     _empty_values := _empty_values s;
     _input_params := _input_params s;
     _indexed_num := _indexed_num s;
     _indexed_dim := _indexed_dim s;
     _input_dim := _input_dim s;
     _losses := _losses s;
     _iteration := _iteration s;
     _trainer := x;
     _value := _value s;
     trace := trace s |}.

Definition set_value (x : list (option expr)) (s : NeuralNetwork) : NeuralNetwork :=
  {| base := base s;
     model := model s;
     max_num_labels := max_num_labels s;
     _layers := _layers s;
     _layer_dim := _layer_dim s;
     _output_dim := _output_dim s;
     _activation_str := _activation_str s;
     _init_str := _init_str s;
     _minibatch_size := _minibatch_size s;
     _dropout := _dropout s;
     _optimizer_str := _optimizer_str s;
     _activation := _activation s;
     _init := _init s;
     _optimizer := _optimizer s;
     _num_labels := _num_labels s;
     _params := _params s;
     _empty_values := _empty_values s;
     _input_params := _input_params s;
     _indexed_num := _indexed_num s;
     _indexed_dim := _indexed_dim s;
     _input_dim := _input_dim s;
     _losses := _losses s;
     _iteration := _iteration s;
     _trainer := _trainer s;
     _value := x;
     trace := trace s |}.

Definition set_trace (x : list event) (s : NeuralNetwork) : NeuralNetwork :=
  {| base := base s;
     model := model s;
     max_num_labels := max_num_labels s;
     _layers := _layers s;
     _layer_dim := _layer_dim s;
     _output_dim := _output_dim s;
     _activation_str := _activation_str s;
     _init_str := _init_str s;
     _minibatch_size := _minibatch_size s;
     _dropout := _dropout s;
     _optimizer_str := _optimizer_str s;
     _activation := _activation s;
     _init := _init s;
     _optimizer := _optimizer s;
     _num_labels := _num_labels s;
     _params := _params s;
     _empty_values := _empty_values s;
     _input_params := _input_params s;
     _indexed_num := _indexed_num s;
     _indexed_dim := _indexed_dim s;
     _input_dim := _input_dim s;
     _losses := _losses s;
     _iteration := _iteration s;
     _trainer := _trainer s;
     _value := _value s;
     trace := x |}.


(** ** The monad of the methods: state [self], exceptions *)

Definition M (A : Type) := NeuralNetwork -> result (A * NeuralNetwork).

Definition ret {A} (a : A) : M A := fun s => Ok (a, s).

Definition bind {A C} (m : M A) (k : A -> M C) : M C :=
  fun s =>
    match m s with
    | Ok (a, s') => k a s'
    | Raise e => Raise e
    end.

Definition raise {A} (e : exn) : M A := fun _ => Raise e.

Definition gets {A} (f : NeuralNetwork -> A) : M A := fun s => Ok (f s, s).

Definition modify (f : NeuralNetwork -> NeuralNetwork) : M unit :=
  fun s => Ok (tt, f s).

Definition lift {A} (r : result A) : M A :=
  fun s =>
    match r with
    | Ok a => Ok (a, s)
    | Raise e => Raise e
    end.

(** A computation that only reads [self]. *)
Definition reads {A} (f : NeuralNetwork -> result A) : M A :=
  fun s => lift (f s) s.

Notation "x <- m ;; k" := (bind m (fun x => k))
  (at level 61, m at next level, right associativity).
Notation "m ;; k" := (bind m (fun _ => k))
  (at level 61, right associativity).

Fixpoint for_each {A} (l : list A) (body : A -> M unit) : M unit :=
  match l with
  | [] => ret tt
  | x :: l' => body x ;; for_each l' body
  end.

Definition when (c : bool) (m : M unit) : M unit := if c then m else ret tt.

Definition emit (ev : event) : M unit :=
  modify (fun s => set_trace (trace s ++ [ev]) s).

(** A call through [super()]: the base class acts on its own state. *)
Definition super (hook : B -> result B) : M unit :=
  fun s =>
    match hook (base s) with
    | Ok b' => Ok (tt, set_base b' s)
    | Raise e => Raise e
    end.

(** A method call on [self._trainer], which is [None] until [init_model]. *)
Definition with_trainer (attr : string) (ev : event) : M unit :=
  t <- gets _trainer ;;
  match t with
  | Some _ => emit ev
  | None => raise (AttributeError attr)
  end.

(** An integer attribute that may still be [None] or unset. *)
Definition get_int (f : NeuralNetwork -> option Z) (e : exn) : M Z :=
  o <- gets f ;; lift (from_option o e).

(** ** [__init__] *)

Definition __init__ (base0 : B) (model0 : option Model)
    (input_params : dict string FeatureParam.t) (max_num_labels0 : list Z)
  : result NeuralNetwork :=
  activation <~ from_option (ACTIVATIONS (Args.activation args))
                  (KeyError (Suffix (Args.activation args))) ;;
  init <~ from_option (INITIALIZERS (Args.init args))
            (KeyError (Suffix (Args.init args))) ;;
  optimizer <~ from_option (TRAINERS (Args.optimizer args))
                 (KeyError (Suffix (Args.optimizer args))) ;;
  Ok {| base := base0;
        model := model0;
        max_num_labels := max_num_labels0;
        _layers := Args.layers args;
        _layer_dim := Args.layer_dim args;
        _output_dim := Args.output_dim args;
        _activation_str := Args.activation args;
        _init_str := Args.init args;
        _minibatch_size := Args.minibatch_size args;
        _dropout := Args.dropout args;
        _optimizer_str := Args.optimizer args;
        _activation := activation;
        _init := init;
        _optimizer := optimizer;
        _num_labels := num_labels base0;
        _params := [];
        _empty_values := [];
        _input_params := input_params;
        _indexed_num := None;
        _indexed_dim := None;
        _input_dim := None;
        _losses := [];
        _iteration := 0;
        _trainer := None;
        _value := repeat None (length (num_labels base0));
        trace := [] |}.

(** ** [resize] *)

Definition capacity_error (i : Z) (l : nat) (m : Z) : exn :=
  AssertionError "Exceeded maximum number of labels at dimension %d: %d > %d"
    [i; Z.of_nat l; m].

(** The body of the loop: the assertion, for the axes it applies to. *)
Definition check_axis (axis : option Z) (i : Z) (l : nat) (m : Z) : M unit :=
  if match axis with None => true | Some a => i =? a end
  then if Z.of_nat l <=? m then ret tt else raise (capacity_error i l m)
  else ret tt.

Definition resize (axis : option Z) : M unit :=
  ls <- gets (fun s => num_labels (base s)) ;;
  ms <- gets max_num_labels ;;
  for_each (enumerate (zip ls ms)) (fun '(i, (l, m)) => check_axis axis i l m).

(** ** Allocation in the model *)

Definition add_lookup_parameters (shape : Z * Z) : M param :=
  m <- gets model ;;
  match m with
  | Some tensors =>
      modify (set_model (Some (tensors ++ [[fst shape; snd shape]]))) ;;
      ret (LookupParameters (length tensors) shape true None)
  | None => raise (AttributeError "add_lookup_parameters")
  end.

Definition add_parameters (shape : list Z) (init : initializer) : M param :=
  m <- gets model ;;
  match m with
  | Some tensors =>
      modify (set_model (Some (tensors ++ [shape]))) ;;
      ret (Parameters (length tensors) shape init)
  | None => raise (AttributeError "add_parameters")
  end.

Definition set_updated (p : param) (u : bool) : param :=
  match p with
  | LookupParameters id shape _ init => LookupParameters id shape u init
  | Parameters _ _ _ => p
  end.

Definition init_from_array (p : param) (a : tensor) : param :=
  match p with
  | LookupParameters id shape u _ => LookupParameters id shape u (Some a)
  | Parameters _ _ _ => p
  end.

Definition params_set (k : param_key) (p : param) : M unit :=
  modify (fun s => set_params (dict_set key_eqb (_params s) k p) s).

Definition params_get (s : NeuralNetwork) (k : param_key) : result param :=
  from_option (dict_get key_eqb (_params s) k) (KeyError k).

(** ** [init_input_params] and [init_indexed_input_params] *)

Definition init_indexed_input_params : M Z :=
  d <- get_int _indexed_dim TypeError ;;
  n <- get_int _indexed_num TypeError ;;
  ret (d * n).

Definition init_input_param (suffix : string) (param : FeatureParam.t)
  : M unit :=
  when (negb (FeatureParam.dim param =? 0))
    (when (negb (FeatureParam.numeric param))
       (p <- add_lookup_parameters
               (FeatureParam.size param, FeatureParam.dim param) ;;
        let p := set_updated p (FeatureParam.updated param) in
        let p := match FeatureParam.init param with
                 | Some a => init_from_array p a
                 | None => p
                 end in
        params_set (Suffix suffix) p) ;;
     if FeatureParam.indexed param
     then d <- get_int _indexed_dim TypeError ;;
          modify (set_indexed_dim (Some (d + FeatureParam.dim param))) ;;
          n <- get_int _indexed_num TypeError ;;
          modify (set_indexed_num (Some (Z.max n (FeatureParam.num param))))
     else d <- get_int _input_dim (AttributeError "_input_dim") ;;
          modify (set_input_dim
                    (Some (d + FeatureParam.num param * FeatureParam.dim param)))).

Definition init_input_params : M unit :=
  modify (set_input_dim (Some 0)) ;;
  modify (set_indexed_dim (Some 0)) ;;
  modify (set_indexed_num (Some 0)) ;;
  items <- gets (fun s => sorted_items (_input_params s)) ;;
  for_each items (fun '(suffix, param) => init_input_param suffix param) ;;
  d <- get_int _input_dim (AttributeError "_input_dim") ;;
  w <- init_indexed_input_params ;;
  modify (set_input_dim (Some (d + w))).

(** ** [init_mlp_params] *)

Definition init_mlp_layer (in_dim out_dim : list Z) (axis i : Z) : M unit :=
  o <- lift (py_index out_dim i) ;;
  n <- lift (py_index in_dim i) ;;
  init <- gets _init ;;
  p <- add_parameters [o; n] init ;;
  params_set (Triple role_W i axis) p ;;
  o <- lift (py_index out_dim i) ;;
  init <- gets _init ;;
  p <- add_parameters [o] init ;;
  params_set (Triple role_b i axis) p.

Definition init_mlp_axis (axis : Z) : M unit :=
  input_dim <- get_int _input_dim (AttributeError "_input_dim") ;;
  layers <- gets _layers ;;
  layer_dim <- gets _layer_dim ;;
  output_dim <- gets _output_dim ;;
  let in_dim :=
    [input_dim] ++ py_repeat (layers - 1) layer_dim ++ [output_dim] in
  ms <- gets max_num_labels ;;
  m <- lift (py_index ms axis) ;;
  let out_dim := py_repeat (layers - 1) layer_dim ++ [output_dim; m] in
  for_each (range (layers + 1)) (init_mlp_layer in_dim out_dim axis).

Definition init_mlp_params : M unit :=
  n <- gets (fun s => len (num_labels (base s))) ;;
  for_each (range n) init_mlp_axis.

(** ** [init_cg] and [zero_input] *)

(** [np.zeros] refuses a negative length. *)
Definition zero_input (dim : Z) : result expr :=
  if dim <? 0 then Raise (ValueError "negative dimensions are not allowed")
  else Ok (inputVector (py_repeat dim 0%Q)).

Definition init_cg : M unit :=
  emit renew_cg ;;
  items <- gets (fun s => sorted_items (_input_params s)) ;;
  for_each items (fun '(suffix, param) =>
    when (negb (FeatureParam.numeric param)
          && negb (FeatureParam.dim param =? 0))
      (z <- lift (zero_input (FeatureParam.dim param)) ;;
       modify (fun s =>
         set_empty_values (dict_set String.eqb (_empty_values s) suffix z) s))).

(** ** [init_model] *)

Definition init_model : M unit :=
  modify (set_model (Some [])) ;;
  optimizer <- gets _optimizer ;;
  modify (set_trainer (Some optimizer)) ;;
  init_input_params ;;
  init_mlp_params ;;
  init_cg.


(** ** [generate_inputs] and [index_input]

    The generator is consumed at once by [list(...)] in [evaluate_mlp]; the
    function below is that list, or the exception raised on the way. *)

Definition index_input (indices : list value) : result expr :=
  Raise (ValueError
    "Input representations not initialized, cannot evaluate indexed features").

Definition input_param (s : NeuralNetwork) (suffix : string)
  : result FeatureParam.t :=
  from_option (dict_get String.eqb (_input_params s) suffix)
    (KeyError (Suffix suffix)).

Definition lookup_value (s : NeuralNetwork) (suffix : string) (x : value)
  : result expr :=
  if value_eqb x MISSING_VALUE
  then from_option (dict_get String.eqb (_empty_values s) suffix)
         (KeyError (Suffix suffix))
  else p <~ params_get s (Suffix suffix) ;; Ok (lookup p x).

(** The loop over the sorted feature types: the expressions yielded from
    here on and the index buffer at the end. *)
Fixpoint scan_inputs (s : NeuralNetwork) (items : list (string * list value))
    (indices : list value) : result (list expr * list value) :=
  match items with
  | [] => Ok ([], indices)
  | (suffix, vals) :: rest =>
      param <~ input_param s suffix ;;
      if FeatureParam.numeric param then
        r <~ scan_inputs s rest indices ;;
        Ok (inputVector (map to_float vals) :: fst r, snd r)
      else if negb (FeatureParam.dim param =? 0) then
        if FeatureParam.indexed param then
          scan_inputs s rest (indices ++ vals)
        else
          es <~ rmap (lookup_value s suffix) vals ;;
          r <~ scan_inputs s rest indices ;;
          Ok (concatenate es :: fst r, snd r)
      else scan_inputs s rest indices
  end.

Definition generate_inputs (s : NeuralNetwork) (f : features)
  : result (list expr) :=
  r <~ scan_inputs s (sorted_items f) [] ;;
  let '(ys, indices) := r in
  match indices with
  | [] => Ok ys
  | _ :: _ =>
      match _indexed_num s with
      | None => Raise TypeError
      | Some n =>
          if len indices =? n
          then y <~ index_input indices ;; Ok (ys ++ [y])
          else Raise (AssertionError
                 "Wrong number of index features: %d != %d" [len indices; n])
      end
  end.

(** ** [evaluate_mlp] and [evaluate] *)

Fixpoint mlp_layers (s : NeuralNetwork) (axis : Z) (train : bool)
    (idx : list Z) (x : expr) : result expr :=
  match idx with
  | [] => Ok x
  | i :: rest =>
      w <~ params_get s (Triple role_W i axis) ;;
      c <~ params_get s (Triple role_b i axis) ;;
      let x := if train && negb (Qeq_bool (_dropout s) 0)
               then dropout x (_dropout s) else x in
      mlp_layers s axis train rest
        (activate (_activation s) (add (mul (parameter w) x) (parameter c)))
  end.

Definition evaluate_mlp (s : NeuralNetwork) (f : features) (axis : Z)
    (train : bool) : result expr :=
  inputs <~ generate_inputs s f ;;
  x <~ mlp_layers s axis train (range (_layers s + 1)) (concatenate inputs) ;;
  n <~ py_index (num_labels (base s)) axis ;;
  Ok (log_softmax x (range (Z.of_nat n))).

Definition evaluate (f : features) (axis : Z) (train : bool) : M expr :=
  m <- gets model ;;
  match m with None => init_model | Some _ => ret tt end ;;
  cached <- reads (fun s => py_index (_value s) axis) ;;
  match cached with
  | Some e => ret e
  | None =>
      e <- reads (fun s => evaluate_mlp s f axis train) ;;
      v <- reads (fun s => py_setitem (_value s) axis (Some e)) ;;
      modify (set_value v) ;;
      ret e
  end.

(** ** [score] and [update] *)

Definition score (f : features) (axis : Z) : M (list Q) :=
  super (fun c => super_score c f axis) ;;
  it <- gets _iteration ;;
  if 0 <? it then
    e <- evaluate f axis false ;;
    v <- gets (fun s => npvalue (trace s) e) ;;
    n <- reads (fun s => py_index (num_labels (base s)) axis) ;;
    ret (firstn n v)
  else
    when (2 <? Args.verbose args) (emit (print msg_no_updates)) ;;
    n <- reads (fun s => py_index (num_labels (base s)) axis) ;;
    ret (repeat 0%Q n).

Definition update (f : features) (axis pred true_ : Z) (importance : Q)
  : M unit :=
  super (fun c => super_update c f axis pred true_ importance) ;;
  for_each (range (int importance)) (fun _ =>
    e <- evaluate f axis true ;;
    modify (fun s => set_losses (_losses s ++ [pick e true_]) s) ;;
    when (Args.dynet_viz args) (emit print_graphviz ;; raise (SystemExit 0))).

(** ** The life cycle: [finished_step], [finalize], [finished_item] *)

Definition finished_step (train : bool) : M unit :=
  modify (fun s =>
    set_value (repeat None (length (num_labels (base s)))) s).

Definition finalize (finished_epoch : bool) : M unit :=
  super super_finalize ;;
  m <- gets model ;;
  match m with None => init_model | Some _ => ret tt end ;;
  losses <- gets _losses ;;
  match losses with
  | [] => ret tt
  | _ :: _ =>
      let loss := neg (esum losses) in
      emit (forward loss) ;;
      when (2 <? Args.verbose args)
        (emit (print (msg_total_loss (len losses) loss))) ;;
      emit (backward loss) ;;
      with_trainer "update" trainer_update ;;
      init_cg ;;
      modify (set_losses []) ;;
      modify (fun s => set_iteration (_iteration s + 1) s)
  end ;;
  when finished_epoch (with_trainer "update_epoch" trainer_update_epoch) ;;
  when (1 <? Args.verbose args) (with_trainer "status" trainer_status).

Definition finished_item (train : bool) : M unit :=
  losses <- gets _losses ;;
  size <- gets _minibatch_size ;;
  (if size <=? len losses then finalize false
   else if negb train then init_cg
   else ret tt) ;;
  finished_step train.

(** ** [save_model] *)

Definition descriptor (s : NeuralNetwork) : dict string dvalue :=
  [ ("input_params", d_input_params (_input_params s));
    ("param_keys", d_keys (keys (_params s)));
    ("layers", d_int (_layers s));
    ("layer_dim", d_int (_layer_dim s));
    ("activation", d_str (_activation_str s));
    ("init", d_str (_init_str s));
    ("optimizer", d_str (_optimizer_str s));
    ("iteration", d_int (_iteration s)) ].

Definition save_model : M (dict string dvalue) :=
  finalize false ;;
  d <- gets descriptor ;;
  extra <- reads (fun s => save_extra (base s)) ;;
  let d := dict_update String.eqb d extra in
  model_filename <- gets (fun s => (filename (base s) ++ ".model")%string) ;;
  removed <- gets (fun s => os_remove (trace s) model_filename) ;;
  match removed with
  | None => emit (print (msg_removed model_filename))
  | Some (OSError _) => ret tt
  | Some e => raise e
  end ;;
  emit (print (msg_saving model_filename)) ;;
  m <- gets model ;;
  match m with
  | None => raise (AttributeError "save")
  | Some _ =>
      ps <- gets (fun s => values (_params s)) ;;
      saved <- gets (fun s => model_save (trace s) model_filename ps) ;;
      match saved with
      | None => emit (model_saved model_filename ps) ;; emit (print msg_done)
      | Some (ValueError msg) =>
          emit (print (msg_failed_saving (ValueError msg)))
      | Some e => raise e
      end
  end ;;
  ret d.

End NeuralNetwork.

(** * Vocabulary of the properties

    Predicates, relations and summaries of the object's state in which the
    properties below are stated. *)

Section Vocabulary.

Context {B : Type} {base_class : Classifier B} {env : Environment}.

Definition dims_ok (ip : dict string FeatureParam.t) : Prop :=
  forall suffix p, In (suffix, p) ip ->
    FeatureParam.numeric p = false -> 0 <= FeatureParam.dim p.

Definition ready (s : @NeuralNetwork B) : Prop :=
  model s <> None /\ _trainer s <> None.

(** A model implies a trainer: true of an object built without a model, and
    kept by every method. *)
Definition coherent (s : @NeuralNetwork B) : Prop :=
  model s <> None -> _trainer s <> None.

Definition flush_events (losses : list expr) : list event :=
  let loss := neg (esum losses) in
  [forward loss]
  ++ (if 2 <? Args.verbose args
      then [print (msg_total_loss (len losses) loss)] else [])
  ++ [backward loss; trainer_update; renew_cg].

Definition closing_events (finished_epoch : bool) : list event :=
  (if finished_epoch then [trainer_update_epoch] else [])
  ++ (if 1 <? Args.verbose args then [trainer_status] else []).

Record update_call := {
  call_features : features;
  call_axis : Z;
  call_pred : Z;
  call_true : Z;
  call_importance : Q
}.

Definition run_updates (calls : list update_call) : M unit :=
  for_each calls (fun c =>
    update (call_features c) (call_axis c) (call_pred c) (call_true c)
      (call_importance c)).

(** Losses are only ever queued on an object whose model and trainer exist. *)
Definition backed (s : @NeuralNetwork B) : Prop :=
  coherent s /\ (_losses s <> [] -> model s <> None).

Definition counted (p : FeatureParam.t) : bool :=
  negb (FeatureParam.dim p =? 0).

(** The three accumulations of the loop of [init_input_params]. *)
Definition step_input_dim (d : Z) (kv : string * FeatureParam.t) : Z :=
  let p := snd kv in
  if counted p && negb (FeatureParam.indexed p)
  then d + FeatureParam.num p * FeatureParam.dim p else d.

Definition step_indexed_dim (d : Z) (kv : string * FeatureParam.t) : Z :=
  let p := snd kv in
  if counted p && FeatureParam.indexed p then d + FeatureParam.dim p else d.

Definition step_indexed_num (n : Z) (kv : string * FeatureParam.t) : Z :=
  let p := snd kv in
  if counted p && FeatureParam.indexed p
  then Z.max n (FeatureParam.num p) else n.

Definition declared_indexed_dim (ip : dict string FeatureParam.t) : Z :=
  fold_left step_indexed_dim (sorted_items ip) 0.

Definition declared_indexed_num (ip : dict string FeatureParam.t) : Z :=
  fold_left step_indexed_num (sorted_items ip) 0.

Definition declared_input_dim (ip : dict string FeatureParam.t) : Z :=
  fold_left step_input_dim (sorted_items ip) 0
  + declared_indexed_dim ip * declared_indexed_num ip.

(** The lookup table allocated for a feature type. *)
Definition is_table_of (p : FeatureParam.t) (x : param) : Prop :=
  exists id,
    x = LookupParameters id (FeatureParam.size p, FeatureParam.dim p)
          (FeatureParam.updated p) (FeatureParam.init p).

Definition is_lookup (p : FeatureParam.t) : Prop :=
  FeatureParam.numeric p = false /\ FeatureParam.dim p <> 0.

Definition input_inv (ip : dict string FeatureParam.t)
    (done : list (string * FeatureParam.t))
    (s : @NeuralNetwork B) : Prop :=
  _input_dim s = Some (fold_left step_input_dim done 0) /\
  _indexed_dim s = Some (fold_left step_indexed_dim done 0) /\
  _indexed_num s = Some (fold_left step_indexed_num done 0) /\
  (forall x, In x done -> In x ip) /\
  (forall k p, In (k, p) done -> is_lookup p ->
     exists x, dict_get key_eqb (_params s) (Suffix k) = Some x /\
               is_table_of p x).

Definition key_le {V} (a c : string * V) : Prop :=
  String.leb (fst a) (fst c) = true.

Definition assembler_ready (s : @NeuralNetwork B) : Prop :=
  let ip := _input_params s in
  _input_dim s = Some (declared_input_dim ip) /\
  _indexed_num s = Some (declared_indexed_num ip) /\
  (forall k p, In (k, p) ip -> is_lookup p ->
     exists x, dict_get key_eqb (_params s) (Suffix k) = Some x /\
               is_table_of p x) /\
  (forall k p, In (k, p) ip -> is_lookup p ->
     dict_get String.eqb (_empty_values s) k
     = Some (inputVector (py_repeat (FeatureParam.dim p) 0%Q))).

Definition zsum {A} (g : A -> Z) (l : list A) : Z :=
  fold_right (fun x n => g x + n) 0 l.

(** Number of entries of the vector an expression denotes. *)
Fixpoint vec_len (e : expr) : Z :=
  match e with
  | inputVector xs => len xs
  | lookup (LookupParameters _ shape _ _) _ => snd shape
  | lookup (Parameters _ _ _) _ => 0
  | concatenate es => fold_right (fun e n => vec_len e + n) 0 es
  | parameter (LookupParameters _ shape _ _) => fst shape
  | parameter (Parameters _ shape _) => hd 0 shape
  | dropout e _ => vec_len e
  | mul e1 _ => vec_len e1
  | add e1 _ => vec_len e1
  | activate _ e => vec_len e
  | log_softmax e _ => vec_len e
  | pick _ _ => 1
  | esum es => match es with [] => 0 | e :: _ => vec_len e end
  | neg e => vec_len e
  end.

(** The width a feature type is declared with. *)
Definition width (ip : dict string FeatureParam.t) (k : string) : Z :=
  match dict_get String.eqb ip k with
  | Some p => FeatureParam.num p * FeatureParam.dim p
  | None => 0
  end.

(** The value list of a feature type has the declared number of entries. *)
Definition valid_values (p : FeatureParam.t) (vals : list value) : Prop :=
  if FeatureParam.numeric p
  then len vals = FeatureParam.num p * FeatureParam.dim p
  else FeatureParam.dim p = 0 \/ len vals = FeatureParam.num p.

(** A feature dictionary that fits the declared feature types: its keys are
    declared, its value lists have the declared sizes, and it leaves out no
    feature type that has a width. *)
Definition valid_features (ip : dict string FeatureParam.t) (f : features)
  : Prop :=
  NoDup (keys f) /\
  (forall k vals, In (k, vals) f ->
     exists p, In (k, p) ip /\ valid_values p vals) /\
  (forall k p, In (k, p) ip ->
     FeatureParam.num p * FeatureParam.dim p <> 0 -> In k (keys f)).

(** No feature type is looked up by position. *)
Definition no_indexed (ip : dict string FeatureParam.t) : Prop :=
  forall k p, In (k, p) ip -> FeatureParam.dim p <> 0 ->
    FeatureParam.indexed p = false.

Definition is_indexed (p : FeatureParam.t) : Prop :=
  FeatureParam.dim p <> 0 /\ FeatureParam.indexed p = true.

Definition index_count_error (indices : list value) (n : Z) : exn :=
  AssertionError "Wrong number of index features: %d != %d" [len indices; n].

Definition index_input_error : exn :=
  ValueError
    "Input representations not initialized, cannot evaluate indexed features".

(** Input and output width of layer [i], read off the two lists [in_dim]
    and [out_dim] of the source. *)
Definition in_width (d ld od L i : Z) : Z :=
  if i =? 0 then d else if i <? L then ld else od.

Definition out_width (ld od m L i : Z) : Z :=
  let j := Z.max (L - 1) 0 in
  if i <? j then ld else if i =? j then od else m.

(** The two tensors of layer [i] of [axis], with the shapes [(o, n)] and
    [o]. *)
Definition has_layer (P : dict param_key param) (init : initializer)
    (i axis n o : Z) : Prop :=
  exists idW idb,
    dict_get key_eqb P (Triple role_W i axis)
      = Some (Parameters idW [o; n] init) /\
    dict_get key_eqb P (Triple role_b i axis)
      = Some (Parameters idb [o] init).

(** Layer [i] of [axis] in the parameter table, as (input width, output
    width): the weight has shape [(out, in)], the bias [out]. *)
Definition affine_layer (s : @NeuralNetwork B) (i axis : Z)
  : option (Z * Z) :=
  match dict_get key_eqb (_params s) (Triple role_W i axis),
        dict_get key_eqb (_params s) (Triple role_b i axis) with
  | Some (Parameters _ [o; n] _), Some (Parameters _ [o'] _) =>
      if o =? o' then Some (n, o) else None
  | _, _ => None
  end.

Definition model_filename (s : @NeuralNetwork B) : string :=
  (filename (base s) ++ ".model")%string.

(** What [save_model] prints around the removal of an existing artifact. *)
Definition removal_events (s : @NeuralNetwork B) : list event :=
  match os_remove (trace s) (model_filename s) with
  | None => [print (msg_removed (model_filename s))]
  | Some _ => []
  end.

(** The outcome of [self.model.save], called after those messages. *)
Definition save_outcome (s : @NeuralNetwork B) : option exn :=
  model_save
    (trace s ++ removal_events s ++ [print (msg_saving (model_filename s))])
    (model_filename s) (values (_params s)).

Definition saving_events (s : @NeuralNetwork B) : list event :=
  print (msg_saving (model_filename s)) ::
  match save_outcome s with
  | None => [model_saved (model_filename s) (values (_params s));
             print msg_done]
  | Some e => [print (msg_failed_saving e)]
  end.




Definition allocating (s : @NeuralNetwork B) : Prop :=
  model s <> None /\ _input_dim s <> None /\
  _indexed_dim s <> None /\ _indexed_num s <> None.

(** What a feature type adds to the input width directly, and what it adds
    to the width of one indexed position. *)
Definition plain_width (kv : string * FeatureParam.t) : Z :=
  let p := snd kv in
  if counted p && negb (FeatureParam.indexed p)
  then FeatureParam.num p * FeatureParam.dim p else 0.

Definition indexed_width (kv : string * FeatureParam.t) : Z :=
  let p := snd kv in
  if counted p && FeatureParam.indexed p then FeatureParam.dim p else 0.

(** Number of dropout nodes in an expression. *)
Fixpoint dropouts (e : expr) : nat :=
  match e with
  | inputVector _ => 0
  | lookup _ _ => 0
  | concatenate es => fold_right (fun e n => dropouts e + n)%nat 0%nat es
  | parameter _ => 0
  | dropout e _ => S (dropouts e)
  | mul e1 e2 => dropouts e1 + dropouts e2
  | add e1 e2 => dropouts e1 + dropouts e2
  | activate _ e => dropouts e
  | log_softmax e _ => dropouts e
  | pick e _ => dropouts e
  | esum es => fold_right (fun e n => dropouts e + n)%nat 0%nat es
  | neg e => dropouts e
  end.

(** Every dropout node is what a parameter tensor is multiplied with:
    [W * dropout(x)], the input of a layer. *)
Fixpoint well_placed (e : expr) : bool :=
  match e with
  | inputVector _ => true
  | lookup _ _ => true
  | concatenate es => forallb well_placed es
  | parameter _ => true
  | dropout _ _ => false
  | mul (parameter _) (dropout x _) => well_placed x
  | mul e1 e2 => well_placed e1 && well_placed e2
  | add e1 e2 => well_placed e1 && well_placed e2
  | activate _ e => well_placed e
  | log_softmax e _ => well_placed e
  | pick e _ => well_placed e
  | esum es => forallb well_placed es
  | neg e => well_placed e
  end.

(** An expression without dropout, in every reading. *)
Definition plain (e : expr) : Prop :=
  dropouts e = 0%nat /\ well_placed e = true.

(** Whether [evaluate_mlp] applies dropout: [train and self._dropout]. *)
Definition dropping (s : @NeuralNetwork B) (train : bool) : bool :=
  train && negb (Qeq_bool (_dropout s) 0).

End Vocabulary.

(** * A concrete network

    A small configuration on which the methods are run: one axis, a lookup
    feature and a numeric feature, and a variant with an indexed feature. *)

Module Example.

(** A base classifier with one axis per entry of its state, the current
    label counts themselves. *)
#[export] Instance base_class : Classifier (list nat) := {
  num_labels := fun c => c;
  filename := fun _ => "model";
  super_score := fun c _ _ => Ok c;
  super_update := fun c _ _ _ _ _ => Ok c;
  super_finalize := fun c => Ok c;
  save_extra := fun _ => Ok []
}.

(** Two hidden layers of width 4, an output layer of width 3, and a flush
    every three loss terms. *)
Definition example_args : Args.t :=
  {| Args.layers := 2; Args.layer_dim := 4; Args.output_dim := 3;
     Args.activation := "tanh"; Args.init := "glorot_uniform";
     Args.minibatch_size := 3; Args.dropout := 0; Args.optimizer := "sgd";
     Args.verbose := 0; Args.dynet_viz := false |}.

(** No artifact exists yet, so [os.remove] raises; [save] is what
    [self.model.save] does. *)
Definition environment (save : option exn) : Environment :=
  {| MISSING_VALUE := -1; args := example_args; npvalue := fun _ _ => [];
     os_remove := fun _ _ => Some (OSError "No such file or directory");
     model_save := fun _ _ _ => save |}.

#[export] Instance env : Environment := environment None.



Definition NN : Type := @NeuralNetwork (list nat).

Definition the {A : Type} (r : result A)
  : match r return Type with Ok _ => A | Raise _ => exn end :=
  match r with Ok a => a | Raise e => e end.

(** The state a method leaves, or the state it started from if it raised. *)
Definition after {A} (m : @M (list nat) A) (s : NN) : NN :=
  match m s with Ok (_, s') => s' | Raise _ => s end.

Definition numf : FeatureParam.t :=
  {| FeatureParam.size := 0; FeatureParam.dim := 1;
     FeatureParam.numeric := true; FeatureParam.indexed := false;
     FeatureParam.updated := false; FeatureParam.num := 2;
     FeatureParam.init := None |}.

Definition wordf : FeatureParam.t :=
  {| FeatureParam.size := 10; FeatureParam.dim := 3;
     FeatureParam.numeric := false; FeatureParam.indexed := false;
     FeatureParam.updated := true; FeatureParam.num := 2;
     FeatureParam.init := None |}.

Definition idxf : FeatureParam.t :=
  {| FeatureParam.size := 10; FeatureParam.dim := 2;
     FeatureParam.numeric := false; FeatureParam.indexed := true;
     FeatureParam.updated := true; FeatureParam.num := 3;
     FeatureParam.init := None |}.

Definition plain_params : dict string FeatureParam.t :=
  [("w", wordf); ("num", numf)].

Definition indexed_params : dict string FeatureParam.t :=
  [("num", numf); ("idx", idxf)].

(** One axis with two labels out of at most five. *)
Definition fresh : NN := the (__init__ [2%nat] None plain_params [5]).
Definition fresh_indexed : NN :=
  the (__init__ [2%nat] None indexed_params [5]).
Definition at_capacity : NN := the (__init__ [5%nat] None plain_params [5]).
Definition over_capacity : NN := the (__init__ [6%nat] None plain_params [5]).

Definition built : NN := after init_model fresh.
Definition built_indexed : NN := after init_model fresh_indexed.

(** The state [init_model] hands to [init_mlp_params]. *)
Definition before_mlp : NN :=
  after init_input_params (set_model (Some []) fresh).

Definition f1 : features :=
  [("w", [Int 1; Int (-1)]); ("num", [Float (1#10); Float (-2#10)])].
Definition f2 : features :=
  [("num", [Float (1#10); Float (-2#10)]); ("w", [Int 1; Int (-1)])].

Definition f_indexed : features :=
  [("num", [Float (1#10); Float (-2#10)]); ("idx", [Int 0; Int 1; Int 2])].
Definition f_indexed_short : features :=
  [("num", [Float (1#10); Float (-2#10)]); ("idx", [Int 0; Int 1])].

(** One update of unit weight, then one of weight two. *)
Definition calls : list update_call :=
  [ {| call_features := f1; call_axis := 0; call_pred := 1; call_true := 0;
       call_importance := 1%Q |};
    {| call_features := f1; call_axis := 0; call_pred := 0; call_true := 1;
       call_importance := 2%Q |} ].

Definition queued : NN := after (run_updates calls) fresh.

(** The training-mode output for [f1] on axis 0. *)
Definition output : expr := fst (the (evaluate f1 0 true fresh)).

Definition once : NN := after (update f1 0 1 0 1%Q) fresh.





(** Variants of the configuration: dropout in training, graph
    visualisation, and no hidden layer. *)
Definition env_with (a : Args.t) : Environment :=
  {| MISSING_VALUE := -1; args := a; npvalue := fun _ _ => [];
     os_remove := fun _ _ => Some (OSError "No such file or directory");
     model_save := fun _ _ _ => None |}.

Definition env_dropout : Environment :=
  env_with
    {| Args.layers := 2; Args.layer_dim := 4; Args.output_dim := 3;
       Args.activation := "tanh"; Args.init := "glorot_uniform";
       Args.minibatch_size := 3; Args.dropout := 1 # 2;
       Args.optimizer := "sgd"; Args.verbose := 0;
       Args.dynet_viz := false |}.

Definition env_viz : Environment :=
  env_with
    {| Args.layers := 2; Args.layer_dim := 4; Args.output_dim := 3;
       Args.activation := "tanh"; Args.init := "glorot_uniform";
       Args.minibatch_size := 3; Args.dropout := 0;
       Args.optimizer := "sgd"; Args.verbose := 0;
       Args.dynet_viz := true |}.

Definition env_flat : Environment :=
  env_with
    {| Args.layers := 0; Args.layer_dim := 4; Args.output_dim := 3;
       Args.activation := "tanh"; Args.init := "glorot_uniform";
       Args.minibatch_size := 3; Args.dropout := 0;
       Args.optimizer := "sgd"; Args.verbose := 0;
       Args.dynet_viz := false |}.

Definition built_dropout : NN :=
  after init_model
        (the (@__init__ _ base_class env_dropout [2%nat] None
                plain_params [5])).

Definition fresh_viz : NN :=
  the (@__init__ _ base_class env_viz [2%nat] None plain_params [5]).

Definition before_mlp_flat : NN :=
  after init_input_params
        (set_model (Some [])
           (the (@__init__ _ base_class env_flat [2%nat] None
                   plain_params [5]))).

(** Two label axes, but a maximum for the first only. *)
Definition two_axes : NN :=
  the (__init__ [2%nat; 3%nat] None plain_params [5]).

(** The object after one update and the flush that follows. *)
Definition trained : NN := after (finalize false) once.

Definition f_unknown : features :=
  [("num", [Float (1#10); Float (-2#10)]); ("zzz", [Int 0])].

(** Three values for a numeric feature type declared with two. *)
Definition f_numeric : features :=
  [("num", [Float (1#10); Int 7; Float (-2#10)])].

(** The value a method returns, or [default] if it raised. *)
Definition value_of {A} (m : @M (list nat) A) (s : NN) (default : A) : A :=
  match m s with Ok (a, _) => a | Raise _ => default end.

(** The object after the three queued losses were flushed by
    [finished_item], which also emptied the score cache. *)
Definition settled : NN := after (finished_item true) queued.

(** An engine that values every output at five log-probabilities, one per
    label the network was built for. *)
Definition env_values : Environment :=
  {| MISSING_VALUE := -1; args := example_args;
     npvalue := fun _ _ => [-(1#2); -(3#2); -3; -3; -3]%Q;
     os_remove := fun _ _ => Some (OSError "No such file or directory");
     model_save := fun _ _ _ => None |}.

End Example.

(** * Properties *)

Section Properties.

Context {B : Type} {base_class : Classifier B} {env : Environment}.

Implicit Types s : @NeuralNetwork B.

(** Relations between the state before and after a call, and what it
    means for a method to maintain one. *)

Definition respects {X} (R : @NeuralNetwork B -> @NeuralNetwork B -> Prop)
    (m : M X) : Prop :=
  forall s x s', m s = Ok (x, s') -> R s s'.

Definition same {A} (f : @NeuralNetwork B -> A) : relation NeuralNetwork :=
  fun s s' => f s' = f s.

(** A relation that initialisation maintains. *)
Definition init_frame (R : relation (@NeuralNetwork B)) : Prop :=
  (forall x s, R s (set_model x s)) /\
  (forall x s, R s (set_trainer x s)) /\
  (forall x s, R s (set_input_dim x s)) /\
  (forall x s, R s (set_indexed_dim x s)) /\
  (forall x s, R s (set_indexed_num x s)) /\
  (forall x s, R s (set_params x s)) /\
  (forall x s, R s (set_empty_values x s)) /\
  (forall s, R s (set_trace (trace s ++ [renew_cg]) s)).

(** Every output cached before is cached, unchanged, after. *)
Definition cache_kept : relation (@NeuralNetwork B) :=
  fun s s' =>
    forall i e, nth_error (_value s) i = Some (Some e) ->
                nth_error (_value s') i = Some (Some e).

Definition stays_ready : relation (@NeuralNetwork B) :=
  fun s s' => ready s -> ready s'.

Definition stays_backed : relation (@NeuralNetwork B) :=
  fun s s' => backed s -> backed s'.

(** The lookup tables, the fallback vectors and the input widths, which
    the MLP part of the initialisation and the graph renewals leave alone. *)
Definition tables_kept : relation (@NeuralNetwork B) :=
  fun s s' =>
    (forall k, dict_get key_eqb (_params s') (Suffix k)
               = dict_get key_eqb (_params s) (Suffix k)) /\
    _input_dim s' = _input_dim s /\
    _indexed_dim s' = _indexed_dim s /\
    _indexed_num s' = _indexed_num s /\
    _input_params s' = _input_params s.

Definition keeps_model : relation (@NeuralNetwork B) :=
  fun s s' => model s <> None -> model s' <> None.


Lemma role_eqb_spec r r' : reflect (r = r') (role_eqb r r').
Proof. destruct r, r'; constructor; congruence. Qed.

Lemma key_eqb_spec k k' : reflect (k = k') (key_eqb k k').
Proof.
  destruct k as [x|r i a], k' as [x'|r' i' a']; simpl;
    try (constructor; congruence).
  - destruct (String.eqb_spec x x'); constructor; congruence.
  - destruct (role_eqb_spec r r'), (Z.eqb_spec i i'), (Z.eqb_spec a a');
      constructor; congruence.
Qed.

Section DictFacts.

Context {K V : Type} (eqb : K -> K -> bool).

Hypothesis eqb_spec : forall x y, reflect (x = y) (eqb x y).

Lemma dict_get_set (d : dict K V) k v k' :
  dict_get eqb (dict_set eqb d k v) k' =
  if eqb k' k then Some v else dict_get eqb d k'.
Proof.
  induction d as [|[k0 v0] d IH]; simpl.
  - reflexivity.
  - destruct (eqb_spec k k0) as [->|Hk]; simpl.
    + destruct (eqb_spec k' k0); reflexivity.
    + rewrite IH. destruct (eqb_spec k' k0) as [->|]; [|reflexivity].
      destruct (eqb_spec k0 k); congruence.
Qed.

Lemma dict_get_set_same (d : dict K V) k v :
  dict_get eqb (dict_set eqb d k v) k = Some v.
Proof. rewrite dict_get_set. destruct (eqb_spec k k); congruence. Qed.


Lemma dict_get_In (d : dict K V) k v :
  dict_get eqb d k = Some v -> In (k, v) d.
Proof.
  induction d as [|[k0 v0] d IH]; simpl; [discriminate|].
  destruct (eqb_spec k k0) as [->|]; intro H.
  - left. congruence.
  - right. auto.
Qed.

Lemma In_dict_get (d : dict K V) k v :
  NoDup (keys d) -> In (k, v) d -> dict_get eqb d k = Some v.
Proof.
  induction d as [|[k0 v0] d IH]; simpl; [tauto|].
  intros Hnd [H|H]; inversion Hnd; subst.
  - inversion H; subst. destruct (eqb_spec k k); congruence.
  - destruct (eqb_spec k k0) as [->|].
    + exfalso. apply H2. change k0 with (fst (k0, v)). now apply in_map.
    + auto.
Qed.

End DictFacts.

(** *** Frame reasoning

    [respects R m]: whenever [m] returns, the states before and after are
    related by [R]. *)

#[local] Instance same_preorder {A} (f : @NeuralNetwork B -> A) :
  PreOrder (same f).
Proof.
  split; unfold same.
  - intro s. reflexivity.
  - intros s1 s2 s3 H1 H2. congruence.
Qed.

Section Respects.

Context (R : relation (@NeuralNetwork B)) {HR : PreOrder R}.

Lemma respects_ret {X} (x : X) : respects R (ret x).
Proof. intros s y s' H. inversion H. reflexivity. Qed.

Lemma respects_bind {X Y} (m : M X) (k : X -> M Y) :
  respects R m -> (forall x, respects R (k x)) -> respects R (bind m k).
Proof.
  intros Hm Hk s y s' H. unfold bind in H.
  destruct (m s) as [[x s1]|e] eqn:E; [|discriminate].
  transitivity s1; [eapply Hm|eapply Hk]; eauto.
Qed.

Lemma respects_raise {X} e : respects R (raise (A:=X) e).
Proof. intros s y s' H. discriminate. Qed.

Lemma respects_gets {X} (g : NeuralNetwork -> X) : respects R (gets g).
Proof. intros s y s' H. inversion H. reflexivity. Qed.

Lemma respects_lift {X} (r : result X) : respects R (lift r).
Proof.
  intros s y s' H. unfold lift in H. destruct r; inversion H. reflexivity.
Qed.

Lemma respects_reads {X} (g : NeuralNetwork -> result X) :
  respects R (reads g).
Proof. intros s y s' H. unfold reads in H. eapply respects_lift; eauto. Qed.

Lemma respects_modify g : (forall s, R s (g s)) -> respects R (modify g).
Proof. intros Hg s y s' H. inversion H. apply Hg. Qed.

Lemma respects_when c m : respects R m -> respects R (when c m).
Proof. intro H. destruct c; simpl; [assumption|apply respects_ret]. Qed.

Lemma respects_for_each {X} (l : list X) body :
  (forall x, respects R (body x)) -> respects R (for_each l body).
Proof.
  intro Hb. induction l as [|x l IH]; simpl.
  - apply respects_ret.
  - apply respects_bind; auto.
Qed.

Lemma respects_emit ev :
  (forall s, R s (set_trace (trace s ++ [ev]) s)) -> respects R (emit ev).
Proof. intro H. apply respects_modify. exact H. Qed.

Lemma respects_super hook :
  (forall s c, R s (set_base c s)) -> respects R (super hook).
Proof.
  intros Hf s y s' H. unfold super in H.
  destruct (hook (base s)); inversion H. apply Hf.
Qed.

End Respects.

Create HintDb frame.

Ltac frame_step :=
  first
    [ solve [eauto with frame]
    | apply respects_ret; solve [auto with typeclass_instances]
    | apply respects_raise
    | apply respects_gets; solve [auto with typeclass_instances]
    | apply respects_lift; solve [auto with typeclass_instances]
    | apply respects_reads; solve [auto with typeclass_instances]
    | apply respects_bind; [solve [auto with typeclass_instances]| |intro]
    | apply respects_for_each; [solve [auto with typeclass_instances]|intro]
    | apply respects_when; [solve [auto with typeclass_instances]|]
    | apply respects_modify; intro; solve [auto with frame]
    | apply respects_emit; solve [auto with frame]
    | apply respects_super; solve [auto with frame]
    | match goal with
      | |- respects _ (match ?x with _ => _ end) => destruct x
      | |- respects _ (let (_, _) := ?x in _) => destruct x
      | |- respects _ (if ?c then _ else _) => destruct c
      end ].

Ltac frame := repeat frame_step.

#[local] Hint Extern 1 (same _ _ _) => reflexivity : frame.

Ltac init_frame_tac H :=
  destruct H as (? & ? & ? & ? & ? & ? & ? & ?); frame.

Section InitFrame.

Context (R : relation (@NeuralNetwork B)) {HR : PreOrder R}.

Hypothesis H : init_frame R.

Lemma init_cg_respects : respects R init_cg.
Proof. unfold init_cg. init_frame_tac H. Qed.

Lemma init_input_params_respects : respects R init_input_params.
Proof.
  unfold init_input_params, init_input_param, init_indexed_input_params,
    add_lookup_parameters, params_set, get_int.
  init_frame_tac H.
Qed.

Lemma init_mlp_params_respects : respects R init_mlp_params.
Proof.
  unfold init_mlp_params, init_mlp_axis, init_mlp_layer, add_parameters,
    params_set, get_int.
  init_frame_tac H.
Qed.

Lemma init_model_respects : respects R init_model.
Proof.
  unfold init_model.
  pose proof init_cg_respects.
  pose proof init_input_params_respects.
  pose proof init_mlp_params_respects.
  init_frame_tac H.
Qed.

End InitFrame.

Lemma with_trainer_respects (R : relation (@NeuralNetwork B)) {HR : PreOrder R}
    attr ev :
  (forall s, R s (set_trace (trace s ++ [ev]) s)) ->
  respects R (with_trainer attr ev).
Proof. intro H. unfold with_trainer. frame. Qed.

#[local] Hint Extern 1 (init_frame _) =>
  (repeat split; intros; reflexivity) : frame.

#[local] Hint Resolve init_cg_respects init_model_respects : frame.

#[local] Hint Extern 2 (respects _ (with_trainer _ _)) =>
  (apply with_trainer_respects; [auto with typeclass_instances|];
   intro; solve [auto with frame]) : frame.

(** *** The score cache *)

#[local] Instance cache_kept_preorder : PreOrder cache_kept.
Proof.
  split; unfold cache_kept.
  - intros s i e H. exact H.
  - intros s1 s2 s3 H1 H2 i e H. auto.
Qed.

#[local] Hint Extern 1 (cache_kept _ _) =>
  (unfold cache_kept; simpl; intros; assumption) : frame.

#[local] Hint Extern 1 (init_frame cache_kept) =>
  (repeat split; intros; unfold cache_kept; simpl; intros; assumption) : frame.

Lemma list_set_other {A} (l : list A) n x i :
  i <> n -> nth_error (list_set l n x) i = nth_error l i.
Proof.
  revert n i. induction l as [|y l IH]; intros [|n] [|i] H; simpl;
    try reflexivity; try congruence.
  apply IH. congruence.
Qed.

Lemma list_set_same {A} (l : list A) n x :
  (n < length l)%nat -> nth_error (list_set l n x) n = Some x.
Proof.
  revert n. induction l as [|y l IH]; intros [|n] H; simpl in *;
    try reflexivity; try lia.
  apply IH. lia.
Qed.

Lemma length_list_set {A} (l : list A) n x :
  length (list_set l n x) = length l.
Proof.
  revert n. induction l as [|y l IH]; intros [|n]; simpl; auto.
Qed.

Lemma py_index_pos {A} (l : list A) i x :
  py_index l i = Ok x ->
  exists n, py_pos l i = Some n /\ nth_error l n = Some x.
Proof.
  unfold py_index. destruct (py_pos l i) as [n|]; [|discriminate].
  destruct (nth_error l n) eqn:E; simpl; intro H; inversion H; subst.
  eauto.
Qed.

Lemma evaluate_cache f axis train : respects cache_kept (evaluate f axis train).
Proof.
  intros s x s' H. unfold evaluate in H.
  unfold bind at 1 in H. simpl in H.
  unfold bind at 1 in H.
  destruct (match model s with None => init_model | Some _ => ret tt end s)
    as [[[] s1]|] eqn:E1; [|discriminate].
  assert (R1 : cache_kept s s1).
  { destruct (model s).
    - inversion E1. reflexivity.
    - eapply init_model_respects; eauto with frame typeclass_instances. }
  unfold bind at 1, reads at 1, lift in H.
  destruct (py_index (_value s1) axis) as [c|] eqn:E2; [|discriminate].
  destruct c as [e|].
  - inversion H; subst. exact R1.
  - unfold bind at 1, reads at 1, lift in H.
    destruct (evaluate_mlp s1 f axis train) as [e|]; [|discriminate].
    unfold bind at 1, reads at 1, lift in H.
    unfold py_setitem in H.
    apply py_index_pos in E2. destruct E2 as (n & Hn & Hnth).
    rewrite Hn in H. inversion H; subst. clear H.
    transitivity s1; [exact R1|].
    intros i e' Hi. simpl.
    rewrite list_set_other; [exact Hi|]. congruence.
Qed.

#[local] Hint Resolve evaluate_cache : frame.

Lemma score_cache f axis : respects cache_kept (score f axis).
Proof. unfold score. frame. Qed.

Lemma update_cache f axis pred true_ importance :
  respects cache_kept (update f axis pred true_ importance).
Proof. unfold update. frame. Qed.

Lemma finalize_value fe : respects (same _value) (finalize fe).
Proof. unfold finalize. frame. Qed.

Lemma save_model_value : respects (same _value) save_model.
Proof. pose proof (finalize_value false). unfold save_model. frame. Qed.

Lemma finished_step_clears train s :
  finished_step train s =
  Ok (tt, set_value (repeat None (length (num_labels (base s)))) s).
Proof. reflexivity. Qed.

Lemma finished_item_clears train s s' :
  finished_item train s = Ok (tt, s') ->
  _value s' = repeat None (length (num_labels (base s'))).
Proof.
  unfold finished_item. unfold bind at 1. simpl. unfold bind at 1. simpl.
  unfold bind at 1.
  destruct ((if _minibatch_size s <=? len (_losses s) then finalize false
             else if negb train then init_cg else ret tt) s)
    as [[[] s1]|]; [|discriminate].
  rewrite finished_step_clears. intro H. inversion H. reflexivity.
Qed.

Ltac mrun :=
  cbv beta iota zeta delta
    [bind ret gets modify lift reads when emit super raise with_trainer
     get_int from_option].

Ltac mrun_in H :=
  cbv beta iota zeta delta
    [bind ret gets modify lift reads when emit super raise with_trainer
     get_int from_option] in H.

(** *** Scoring before the first optimizer step *)

Lemma score_untrained s f axis c n :
  _iteration s = 0 ->
  super_score (base s) f axis = Ok c ->
  py_index (num_labels c) axis = Ok n ->
  exists s', score f axis s = Ok (repeat 0%Q n, s')
             /\ length (repeat 0%Q n) = n
             /\ Forall (fun x => x = 0%Q) (repeat 0%Q n)
             /\ base s' = c /\ _iteration s' = 0 /\ _value s' = _value s.
Proof.
  intros Hit Hsup Hn. unfold score. mrun.
  rewrite Hsup. simpl. rewrite Hit. simpl.
  destruct (2 <? Args.verbose args); simpl; rewrite Hn;
    eexists; (split; [reflexivity|]);
    rewrite repeat_length; repeat split; auto;
    apply Forall_forall; intros x Hx; apply repeat_spec in Hx; exact Hx.
Qed.

(** *** The capacity check *)

Lemma check_axis_cases axis i l m s :
  check_axis axis i l m s =
  if match axis with None => true | Some a => i =? a end
  then if Z.of_nat l <=? m then Ok (tt, s) else Raise (capacity_error i l m)
  else Ok (tt, s).
Proof.
  unfold check_axis.
  destruct (match axis with None => true | Some a => i =? a end);
    [destruct (Z.of_nat l <=? m)|]; reflexivity.
Qed.

(** The loop of [resize] from position [k] on, for the check of one axis. *)
Lemma resize_loop_one (a : nat) (ps : list (nat * Z)) (k : nat) l m s :
  (k <= a)%nat ->
  nth_error ps (a - k) = Some (l, m) ->
  for_each (combine (map Z.of_nat (seq k (length ps))) ps)
    (fun '(i, (l, m)) => check_axis (Some (Z.of_nat a)) i l m) s =
  if Z.of_nat l <=? m then Ok (tt, s)
  else Raise (capacity_error (Z.of_nat a) l m).
Proof.
  revert k. induction ps as [|[l0 m0] ps IH]; intros k Hk Hnth.
  - destruct (a - k)%nat; discriminate.
  - simpl. unfold bind. rewrite check_axis_cases.
    destruct (Z.eqb_spec (Z.of_nat k) (Z.of_nat a)) as [E|E].
    + apply Nat2Z.inj in E. subst k. rewrite Nat.sub_diag in Hnth.
      simpl in Hnth. inversion Hnth; subst.
      destruct (Z.of_nat l <=? m); [|reflexivity].
      clear IH Hnth Hk. generalize (S a) (Nat.lt_succ_diag_r a).
      induction ps as [|[l1 m1] ps IH]; intros j Hj; simpl; [reflexivity|].
      unfold bind. rewrite check_axis_cases.
      destruct (Z.eqb_spec (Z.of_nat j) (Z.of_nat a)) as [E|E]; [lia|].
      apply IH. lia.
    + assert (k < a)%nat by lia.
      apply IH; [lia|].
      replace (a - k)%nat with (S (a - S k)) in Hnth by lia. exact Hnth.
Qed.

Lemma nth_error_combine {A C} (l : list A) (m : list C) n x y :
  nth_error l n = Some x -> nth_error m n = Some y ->
  nth_error (combine l m) n = Some (x, y).
Proof.
  revert m n. induction l as [|a l IH]; intros [|c m] [|n]; simpl;
    try discriminate.
  - congruence.
  - apply IH.
Qed.

Lemma resize_axis s (axis : nat) l m :
  nth_error (num_labels (base s)) axis = Some l ->
  nth_error (max_num_labels s) axis = Some m ->
  resize (Some (Z.of_nat axis)) s =
  if Z.of_nat l <=? m then Ok (tt, s)
  else Raise (capacity_error (Z.of_nat axis) l m).
Proof.
  intros Hl Hm. unfold resize. mrun. unfold enumerate, range, len.
  rewrite Nat2Z.id.
  apply resize_loop_one; [lia|]. rewrite Nat.sub_0_r.
  apply nth_error_combine; assumption.
Qed.

Lemma resize_loop_pass (ps : list (nat * Z)) axis (k : nat) s :
  (forall l m, In (l, m) ps -> Z.of_nat l <= m) ->
  for_each (combine (map Z.of_nat (seq k (length ps))) ps)
    (fun '(i, (l, m)) => check_axis axis i l m) s = Ok (tt, s).
Proof.
  revert k. induction ps as [|[l m] ps IH]; intros k H; simpl.
  - reflexivity.
  - unfold bind. rewrite check_axis_cases.
    assert ((Z.of_nat l <=? m) = true) as -> by (apply Z.leb_le, H; now left).
    destruct (match axis with None => true | Some a => Z.of_nat k =? a end);
      apply IH; intros; apply H; now right.
Qed.

Lemma resize_loop_all (ps : list (nat * Z)) (k : nat) l m s :
  In (l, m) ps -> m < Z.of_nat l ->
  exists i l' m',
    for_each (combine (map Z.of_nat (seq k (length ps))) ps)
      (fun '(i, (l, m)) => check_axis None i l m) s =
    Raise (capacity_error i l' m') /\ m' < Z.of_nat l'.
Proof.
  revert k. induction ps as [|[l0 m0] ps IH]; intros k Hin Hlt; [easy|].
  simpl. unfold bind. rewrite check_axis_cases.
  destruct (Z.leb_spec (Z.of_nat l0) m0) as [Hle|Hgt].
  - destruct Hin as [E|Hin]; [inversion E; subst; lia|].
    apply IH; assumption.
  - eauto.
Qed.

Lemma resize_all_pass s :
  (forall l m, In (l, m) (zip (num_labels (base s)) (max_num_labels s)) ->
               Z.of_nat l <= m) ->
  resize None s = Ok (tt, s).
Proof.
  intro H. unfold resize. mrun. unfold enumerate, range, len.
  rewrite Nat2Z.id. apply resize_loop_pass. exact H.
Qed.

Lemma resize_all_raises s l m :
  In (l, m) (zip (num_labels (base s)) (max_num_labels s)) ->
  m < Z.of_nat l ->
  exists i l' m',
    resize None s = Raise (capacity_error i l' m') /\ m' < Z.of_nat l'.
Proof.
  intros Hin Hlt. unfold resize. mrun. unfold enumerate, range, len.
  rewrite Nat2Z.id. eapply resize_loop_all; eauto.
Qed.

Lemma In_combine_nth {A C} (l : list A) (m : list C) n x y :
  nth_error l n = Some x -> nth_error m n = Some y -> In (x, y) (combine l m).
Proof.
  intros Hx Hy. eapply nth_error_In. apply nth_error_combine; eauto.
Qed.

(** C7. For every axis, the capacity check of [resize] passes, leaving the
    object as it is, whenever the current label count of the axis is at most
    [max_num_labels[axis]], equality included; and whenever the current count
    exceeds the maximum, by one or by more, it raises the capacity assertion
    naming that axis, and so does the check of all axes. *)
Theorem capacity_check s (axis : nat) l m :
  nth_error (num_labels (base s)) axis = Some l ->
  nth_error (max_num_labels s) axis = Some m ->
  (Z.of_nat l <= m -> resize (Some (Z.of_nat axis)) s = Ok (tt, s)) /\
  (m < Z.of_nat l ->
   resize (Some (Z.of_nat axis)) s =
     Raise (capacity_error (Z.of_nat axis) l m) /\
   exists i l' m',
     resize None s = Raise (capacity_error i l' m') /\ m' < Z.of_nat l').
Proof.
  intros Hl Hm. pose proof (resize_axis s axis l m Hl Hm) as H.
  split; intro Hc.
  - rewrite H. apply Z.leb_le in Hc. now rewrite Hc.
  - split.
    + rewrite H. destruct (Z.leb_spec (Z.of_nat l) m); [lia|reflexivity].
    + eapply resize_all_raises; eauto. unfold zip.
      eapply In_combine_nth; eauto.
Qed.

(** *** Loops that succeed *)

Lemma for_each_inv {A} (I : list A -> @NeuralNetwork B -> Prop) body l :
  (forall done x s, I done s -> In x l ->
     exists s', body x s = Ok (tt, s') /\ I (done ++ [x]) s') ->
  forall s, I [] s ->
  exists s', for_each l body s = Ok (tt, s') /\ I l s'.
Proof.
  intros Hbody.
  assert (G : forall rest done s, (forall x, In x rest -> In x l) ->
            I done s ->
            exists s', for_each rest body s = Ok (tt, s') /\ I (done ++ rest) s').
  { induction rest as [|x rest IH]; intros done s Hin HI; simpl.
    - rewrite app_nil_r. exists s. split; [reflexivity|assumption].
    - destruct (Hbody done x s HI) as (s1 & E1 & H1); [apply Hin; now left|].
      unfold bind. rewrite E1.
      destruct (IH (done ++ [x]) s1) as (s2 & E2 & H2); auto.
      { intros y Hy. apply Hin. now right. }
      rewrite <- app_assoc in H2. eauto. }
  intros s HI. apply (G l [] s); auto.
Qed.

Lemma insert_item_perm {V} (kv : string * V) l :
  Permutation (insert_item kv l) (kv :: l).
Proof.
  induction l as [|kv' l IH]; simpl.
  - reflexivity.
  - destruct (String.leb (fst kv) (fst kv')); [reflexivity|].
    rewrite IH. apply perm_swap.
Qed.

Lemma sorted_items_perm {V} (d : dict string V) :
  Permutation (sorted_items d) d.
Proof.
  induction d as [|kv d IH]; simpl.
  - reflexivity.
  - rewrite insert_item_perm. now constructor.
Qed.

Lemma sorted_items_In {V} (d : dict string V) kv :
  In kv (sorted_items d) <-> In kv d.
Proof.
  split; apply Permutation_in;
    [apply sorted_items_perm|symmetry; apply sorted_items_perm].
Qed.

(** *** Graph renewal *)

Lemma zero_input_ok d : 0 <= d -> zero_input d = Ok (inputVector (py_repeat d 0%Q)).
Proof. intro H. unfold zero_input. destruct (Z.ltb_spec d 0); [lia|reflexivity]. Qed.

Lemma NoDup_keys_unique {K V} (d : dict K V) k v v' :
  NoDup (keys d) -> In (k, v) d -> In (k, v') d -> v = v'.
Proof.
  induction d as [|[k0 v0] d IH]; simpl; [tauto|].
  intros Hnd H1 H2. inversion Hnd as [|? ? Hnotin Hnd']; subst.
  assert (Hk : forall w, In (k0, w) d -> False).
  { intros w Hw. apply Hnotin. change k0 with (fst (k0, w)). now apply in_map. }
  destruct H1 as [E1|H1], H2 as [E2|H2].
  - congruence.
  - inversion E1; subst. destruct (Hk _ H2).
  - inversion E2; subst. destruct (Hk _ H1).
  - auto.
Qed.

Lemma init_cg_spec s :
  dims_ok (_input_params s) ->
  exists E,
    init_cg s = Ok (tt, set_empty_values E (set_trace (trace s ++ [renew_cg]) s))
    /\ (NoDup (keys (_input_params s)) ->
        forall k p, In (k, p) (_input_params s) ->
          FeatureParam.numeric p = false -> FeatureParam.dim p <> 0 ->
          dict_get String.eqb E k
          = Some (inputVector (py_repeat (FeatureParam.dim p) 0%Q))).
Proof.
  intro Hd. unfold init_cg. mrun. simpl.
  set (s0 := set_trace (trace s ++ [renew_cg]) s).
  set (body := fun '(suffix, param) => _).
  destruct (for_each_inv
    (fun done s1 => exists E, s1 = set_empty_values E s0 /\
       (forall x, In x done -> In x (_input_params s)) /\
       (NoDup (keys (_input_params s)) ->
        forall k p, In (k, p) done ->
          FeatureParam.numeric p = false -> FeatureParam.dim p <> 0 ->
          dict_get String.eqb E k
          = Some (inputVector (py_repeat (FeatureParam.dim p) 0%Q))))
    body (sorted_items (_input_params s))) with (s := s0)
    as (s' & E' & E & -> & _ & HE).
  - intros done [k p] s1 (E & -> & Hsub & HE) Hin.
    apply (proj1 (sorted_items_In _ _)) in Hin.
    assert (Hsub' : forall x, In x (done ++ [(k, p)]) ->
                              In x (_input_params s)).
    { intros x Hx. apply in_app_or in Hx. destruct Hx as [Hx|[<-|[]]]; auto. }
    unfold body.
    destruct (FeatureParam.numeric p) eqn:En; simpl.
    + exists (set_empty_values E s0). split; [reflexivity|].
      exists E. split; [reflexivity|]. split; [exact Hsub'|].
      intros Hnd k' p' Hin'.
      apply in_app_or in Hin'. destruct Hin' as [Hin'|[Eq|[]]]; [eauto|].
      inversion Eq; subst. congruence.
    + destruct (Z.eqb_spec (FeatureParam.dim p) 0) as [Ed|Ed]; simpl.
      * exists (set_empty_values E s0). split; [reflexivity|].
        exists E. split; [reflexivity|]. split; [exact Hsub'|].
        intros Hnd k' p' Hin'.
        apply in_app_or in Hin'. destruct Hin' as [Hin'|[Eq|[]]]; [eauto|].
        inversion Eq; subst. congruence.
      * mrun. rewrite zero_input_ok by (eapply Hd; eauto). simpl.
        eexists. split; [reflexivity|].
        eexists. split; [reflexivity|]. split; [exact Hsub'|].
        intros Hnd k' p' Hin' Hn' Hd'.
        rewrite (dict_get_set _ String.eqb_spec).
        destruct (String.eqb_spec k' k) as [->|Hk].
        -- assert (p' = p); [|subst; reflexivity].
           eapply NoDup_keys_unique; eauto.
        -- apply in_app_or in Hin'. destruct Hin' as [Hin'|[Eq|[]]].
           ++ eauto.
           ++ inversion Eq; subst. congruence.
  - exists (_empty_values s). split; [destruct s; reflexivity|].
    split; intros; contradiction.
  - exists E. split; [exact E'|].
    intros Hnd k p Hin. apply HE; auto. now apply sorted_items_In.
Qed.

(** *** Model and trainer, once created, stay *)

#[local] Instance stays_ready_preorder : PreOrder stays_ready.
Proof. split; unfold stays_ready; [intros s H|intros s1 s2 s3 H1 H2 H]; auto. Qed.

#[local] Hint Extern 1 (stays_ready _ _) =>
  (unfold stays_ready, ready; simpl; intros [? ?]; split;
   first [assumption | discriminate]) : frame.

Lemma add_lookup_parameters_ready shape :
  respects stays_ready (add_lookup_parameters shape).
Proof. unfold add_lookup_parameters. frame. Qed.

Lemma add_parameters_ready shape init :
  respects stays_ready (add_parameters shape init).
Proof. unfold add_parameters. frame. Qed.

#[local] Hint Resolve add_lookup_parameters_ready add_parameters_ready : frame.

Lemma init_cg_ready : respects stays_ready init_cg.
Proof. unfold init_cg. frame. Qed.

Lemma init_input_params_ready : respects stays_ready init_input_params.
Proof.
  unfold init_input_params, init_input_param, init_indexed_input_params,
    params_set, get_int.
  frame.
Qed.

Lemma init_mlp_params_ready : respects stays_ready init_mlp_params.
Proof.
  unfold init_mlp_params, init_mlp_axis, init_mlp_layer, params_set, get_int.
  frame.
Qed.

Lemma init_model_ready s s' : init_model s = Ok (tt, s') -> ready s'.
Proof.
  unfold init_model. unfold bind at 1. simpl. unfold bind at 1. simpl.
  unfold bind at 1. simpl. intro H.
  assert (R : respects stays_ready
                (bind init_input_params (fun _ =>
                 bind init_mlp_params (fun _ => init_cg)))).
  { pose proof init_cg_ready. pose proof init_input_params_ready.
    pose proof init_mlp_params_ready. frame. }
  apply R in H. apply H. split; simpl; discriminate.
Qed.

Lemma init_model_stays : respects stays_ready init_model.
Proof. intros s x s' H _. destruct x. eapply init_model_ready; eauto. Qed.

#[local] Hint Resolve init_cg_ready init_model_stays : frame.

(** *** [evaluate] *)

Lemma py_index_list_set {A} (l : list A) i n x y :
  py_pos l i = Some n -> nth_error l n = Some y ->
  py_index (list_set l n x) i = Ok x.
Proof.
  intros Hp Hn. unfold py_index, py_pos, len in *.
  rewrite length_list_set, Hp.
  rewrite list_set_same; [reflexivity|].
  apply nth_error_Some. congruence.
Qed.

Lemma evaluate_cached f axis train s e :
  model s <> None ->
  py_index (_value s) axis = Ok (Some e) ->
  evaluate f axis train s = Ok (e, s).
Proof.
  intros Hm Hc. unfold evaluate. mrun.
  destruct (model s); [|congruence]. rewrite Hc. reflexivity.
Qed.

Lemma evaluate_losses f axis train :
  respects (same _losses) (evaluate f axis train).
Proof. unfold evaluate. frame. Qed.

Lemma evaluate_post f axis train s e s' :
  evaluate f axis train s = Ok (e, s') ->
  model s' <> None /\ (coherent s -> ready s') /\
  py_index (_value s') axis = Ok (Some e).
Proof.
  intros H. unfold evaluate in H.
  unfold bind at 1 in H. simpl in H. unfold bind at 1 in H.
  destruct (match model s with None => init_model | Some _ => ret tt end s)
    as [[[] s1]|] eqn:E1; [|discriminate].
  assert (R1 : model s1 <> None /\ (coherent s -> ready s1)).
  { destruct (model s) eqn:Em.
    - inversion E1; subst. split; [congruence|]. intro Hco.
      split; [|apply Hco]; congruence.
    - apply init_model_ready in E1. split; [apply E1|intros _; exact E1]. }
  unfold bind at 1, reads at 1, lift in H.
  destruct (py_index (_value s1) axis) as [c|] eqn:E2; [|discriminate].
  destruct c as [e0|].
  - inversion H; subst. tauto.
  - unfold bind at 1, reads at 1, lift in H.
    destruct (evaluate_mlp s1 f axis train) as [e0|]; [|discriminate].
    unfold bind at 1, reads at 1, lift in H.
    unfold py_setitem in H.
    apply py_index_pos in E2. destruct E2 as (n & Hn & Hnth).
    rewrite Hn in H. inversion H; subst. clear H. simpl.
    destruct R1 as [Ra Rb].
    split; [exact Ra|]. split; [exact Rb|]. eapply py_index_list_set; eauto.
Qed.

(** *** [update] *)

Lemma update_loop f axis true_ e (k : list Z) s :
  model s <> None ->
  py_index (_value s) axis = Ok (Some e) ->
  for_each k (fun _ =>
    bind (evaluate f axis true) (fun e =>
    bind (modify (fun s => set_losses (_losses s ++ [pick e true_]) s))
      (fun _ => ret tt))) s
  = Ok (tt, set_losses (_losses s ++ repeat (pick e true_) (length k)) s).
Proof.
  revert s. induction k as [|i k IH]; intros s Hm Hc.
  - simpl. rewrite app_nil_r. destruct s; reflexivity.
  - cbn [for_each]. unfold bind at 1. unfold bind at 1.
    rewrite (evaluate_cached f axis true s e Hm Hc).
    unfold bind at 1. cbn [modify ret].
    rewrite IH by assumption. cbn [_losses set_losses length repeat].
    rewrite <- app_assoc. reflexivity.
Qed.

Lemma length_range n : length (range n) = Z.to_nat n.
Proof. unfold range. now rewrite length_map, length_seq. Qed.

Lemma range_pos n : 0 < n -> range n = 0 :: map Z.succ (range (n - 1)).
Proof.
  intro H. unfold range.
  replace (Z.to_nat n) with (S (Z.to_nat (n - 1))) by lia.
  simpl. f_equal. rewrite <- seq_shift, !map_map.
  apply map_ext. intro a. lia.
Qed.

(** What one call of [update] does to the loss queue. *)
Lemma update_spec f axis pred true_ importance s c :
  Args.dynet_viz args = false ->
  super_update (base s) f axis pred true_ importance = Ok c ->
  (int importance <= 0 /\
   update f axis pred true_ importance s = Ok (tt, set_base c s)) \/
  (0 < int importance /\
   forall e s1, evaluate f axis true (set_base c s) = Ok (e, s1) ->
     update f axis pred true_ importance s =
     Ok (tt, set_losses
               (_losses s ++ repeat (pick e true_) (Z.to_nat (int importance)))
               s1)).
Proof.
  intros Hviz Hsup.
  assert (U : update f axis pred true_ importance s =
    for_each (range (int importance)) (fun _ =>
      bind (evaluate f axis true) (fun e =>
      bind (modify (fun s => set_losses (_losses s ++ [pick e true_]) s))
        (fun _ => ret tt))) (set_base c s)).
  { unfold update. rewrite Hviz. unfold when.
    unfold bind at 1, super at 1. rewrite Hsup. reflexivity. }
  rewrite U. clear U.
  destruct (Z.leb_spec (int importance) 0) as [Hle|Hgt].
  - left. split; [exact Hle|].
    unfold range. replace (Z.to_nat (int importance)) with O by lia.
    reflexivity.
  - right. split; [exact Hgt|]. intros e s1 He.
    rewrite (range_pos _ Hgt). cbn [for_each].
    unfold bind at 1. unfold bind at 1. rewrite He.
    unfold bind at 1. cbn [modify ret].
    destruct (evaluate_post f axis true (set_base c s) e s1) as (Hm & _ & Hc);
      [exact He|].
    rewrite (update_loop f axis true_ e); auto.
    cbn [_losses set_losses]. rewrite length_map, length_range, <- app_assoc.
    pose proof (evaluate_losses f axis true _ _ _ He) as HL.
    unfold same in HL. simpl in HL. rewrite HL.
    replace (Z.to_nat (int importance)) with (S (Z.to_nat (int importance - 1)))
      by lia.
    destruct s1; reflexivity.
Qed.

(** *** [finalize] *)

Lemma finalize_flush fe s c :
  super_finalize (base s) = Ok c ->
  ready s ->
  dims_ok (_input_params s) ->
  _losses s <> [] ->
  exists E,
    finalize fe s =
    Ok (tt, set_trace (trace s ++ flush_events (_losses s) ++ closing_events fe)
              (set_iteration (_iteration s + 1)
                 (set_losses []
                    (set_empty_values E (set_base c s))))).
Proof.
  intros Hsup [Hm Ht] Hd Hl.
  destruct (model s) as [m|] eqn:Em; [|congruence].
  destruct (_trainer s) as [t|] eqn:Et; [|congruence].
  destruct (_losses s) as [|l ls] eqn:El; [congruence|].
  unfold finalize, flush_events, closing_events. mrun. rewrite Hsup.
  repeat (progress (simpl; rewrite ?Em, ?Et, ?El)).
  destruct (2 <? Args.verbose args);
    repeat (progress (simpl; rewrite ?Em, ?Et, ?El));
    match goal with
    | |- context [init_cg ?st] =>
        destruct (init_cg_spec st) as (E & HE & _); [exact Hd|];
        rewrite HE; exists E
    end;
    destruct fe; repeat (progress (simpl; rewrite ?Em, ?Et, ?El));
    destruct (1 <? Args.verbose args);
    repeat (progress (simpl; rewrite ?Em, ?Et, ?El));
    rewrite <- ?app_assoc; reflexivity.
Qed.

Lemma finalize_idle fe s c :
  super_finalize (base s) = Ok c ->
  ready s ->
  _losses s = [] ->
  finalize fe s =
  Ok (tt, set_trace (trace s ++ closing_events fe) (set_base c s)).
Proof.
  intros Hsup [Hm Ht] El.
  destruct (model s) as [m|] eqn:Em; [|congruence].
  destruct (_trainer s) as [t|] eqn:Et; [|congruence].
  unfold finalize, closing_events. mrun. rewrite Hsup.
  repeat (progress (simpl; rewrite ?Em, ?Et, ?El)).
  destruct fe; repeat (progress (simpl; rewrite ?Em, ?Et, ?El));
    destruct (1 <? Args.verbose args);
    repeat (progress (simpl; rewrite ?Em, ?Et, ?El));
    rewrite <- ?app_assoc, ?app_nil_r; reflexivity.
Qed.

Lemma bind_ok {X Y} (m : M X) (k : X -> M Y) s y s' :
  bind m k s = Ok (y, s') ->
  exists x s1, m s = Ok (x, s1) /\ k x s1 = Ok (y, s').
Proof.
  unfold bind. destruct (m s) as [[x s1]|]; [|discriminate]. eauto.
Qed.


(** *** A run of updates, then [finished_item] *)

#[local] Instance stays_backed_preorder : PreOrder stays_backed.
Proof. split; unfold stays_backed; [intros s H|intros s1 s2 s3 H1 H2 H]; auto. Qed.

Lemma update_backed f axis pred true_ importance :
  respects stays_backed (update f axis pred true_ importance).
Proof.
  unfold update. apply respects_bind; try typeclasses eauto; [|intros _].
  - apply respects_super; try typeclasses eauto. intros s c H. exact H.
  - apply respects_for_each; try typeclasses eauto. intros _ s x s' H [Hco _].
    apply bind_ok in H. destruct H as (e & s1 & H1 & H).
    apply bind_ok in H. destruct H as (? & s2 & H2 & H).
    apply evaluate_post in H1. destruct H1 as (_ & Hr & _).
    specialize (Hr Hco). inversion H2; subst. clear H2.
    assert (R : ready s').
    { assert (F : respects stays_ready
                (when (Args.dynet_viz args)
                   (bind (emit print_graphviz) (fun _ => raise (SystemExit 0)))))
        by frame.
      apply (F _ _ _ H). exact Hr. }
    destruct R as [Rm Rt]. split; [intros _; exact Rt|intros _; exact Rm].
Qed.

Lemma run_updates_backed calls : respects stays_backed (run_updates calls).
Proof.
  unfold run_updates. apply respects_for_each; try typeclasses eauto.
  intro c. apply update_backed.
Qed.

Lemma evaluate_config {A} (f0 : NeuralNetwork -> A) f axis train :
  init_frame (same f0) ->
  (forall x s, f0 (set_value x s) = f0 s) ->
  respects (same f0) (evaluate f axis train).
Proof.
  intros Hi Hv. unfold evaluate.
  pose proof (init_model_respects _ Hi).
  assert (forall x s, same f0 s (set_value x s)) by (intros; apply Hv).
  frame.
Qed.

Lemma update_config {A} (f0 : NeuralNetwork -> A) f axis pred true_ importance :
  init_frame (same f0) ->
  (forall x s, f0 (set_value x s) = f0 s) ->
  (forall x s, f0 (set_losses x s) = f0 s) ->
  (forall x s, f0 (set_base x s) = f0 s) ->
  (forall x s, f0 (set_trace x s) = f0 s) ->
  respects (same f0) (update f axis pred true_ importance).
Proof.
  intros Hi Hv Hl Hb Ht. unfold update.
  pose proof (evaluate_config f0 f axis true Hi Hv).
  assert (forall x s, same f0 s (set_losses x s)) by (intros; apply Hl).
  assert (forall x s, same f0 s (set_base x s)) by (intros; apply Hb).
  assert (forall s, same f0 s (set_trace (trace s ++ [print_graphviz]) s))
    by (intro; apply Ht).
  frame.
Qed.

Lemma run_updates_config {A} (f0 : NeuralNetwork -> A) calls :
  init_frame (same f0) ->
  (forall x s, f0 (set_value x s) = f0 s) ->
  (forall x s, f0 (set_losses x s) = f0 s) ->
  (forall x s, f0 (set_base x s) = f0 s) ->
  (forall x s, f0 (set_trace x s) = f0 s) ->
  respects (same f0) (run_updates calls).
Proof.
  intros. unfold run_updates. apply respects_for_each; try typeclasses eauto.
  intro c. now apply update_config.
Qed.

Lemma finished_item_flush s c :
  super_finalize (base s) = Ok c ->
  ready s ->
  dims_ok (_input_params s) ->
  _losses s <> [] ->
  _minibatch_size s <= len (_losses s) ->
  forall train, exists E,
    finished_item train s =
    Ok (tt, set_value (repeat None (length (num_labels c)))
              (set_trace (trace s ++ flush_events (_losses s)
                                  ++ closing_events false)
                 (set_iteration (_iteration s + 1)
                    (set_losses []
                       (set_empty_values E (set_base c s)))))).
Proof.
  intros Hsup Hr Hd Hl Hmb train.
  destruct (finalize_flush false s c Hsup Hr Hd Hl) as (E & HE).
  exists E. unfold finished_item. mrun.
  apply Z.leb_le in Hmb. rewrite Hmb, HE. reflexivity.
Qed.

(** C4. Starting from an empty loss queue and a minibatch size of at least
    one, after calls of [update] that together have queued exactly
    [minibatch_size] loss terms (each call counting its importance-weighted
    repetitions), one call of [finished_item(train=True)] returns, has
    incremented the iteration counter by exactly one, and leaves the loss
    queue empty. *)
Theorem minibatch_trigger calls s0 s c :
  coherent s0 ->
  dims_ok (_input_params s0) ->
  _losses s0 = [] ->
  1 <= _minibatch_size s0 ->
  run_updates calls s0 = Ok (tt, s) ->
  len (_losses s) = _minibatch_size s0 ->
  super_finalize (base s) = Ok c ->
  exists s',
    finished_item true s = Ok (tt, s') /\
    _iteration s' = _iteration s + 1 /\
    _losses s' = [].
Proof.
  intros Hco Hd Hl0 Hmb Hrun Hlen Hsup.
  assert (Hb : backed s).
  { apply (run_updates_backed calls _ _ _ Hrun). split; [exact Hco|].
    intro H. congruence. }
  assert (Hcfg : (_minibatch_size s, _input_params s)
                 = (_minibatch_size s0, _input_params s0)).
  { apply (run_updates_config
             (fun s => (_minibatch_size s, _input_params s)) calls)
      with (x := tt); auto.
    repeat split; intros; reflexivity. }
  inversion Hcfg as [[Hm Hip]].
  assert (Hne : _losses s <> []).
  { intro E. rewrite E in Hlen. unfold len in Hlen. simpl in Hlen. lia. }
  destruct Hb as [Hco' Hmod].
  destruct (finished_item_flush s c Hsup) with (train := true) as (E & HE).
  - split; auto.
  - rewrite Hip. exact Hd.
  - exact Hne.
  - rewrite Hm. lia.
  - rewrite HE. eexists. split; [reflexivity|]. split; reflexivity.
Qed.

(** *** [init_input_params] *)

Lemma for_each_partial {A} (I : list A -> @NeuralNetwork B -> Prop) body l :
  (forall done x s s', In x l -> I done s -> body x s = Ok (tt, s') ->
     I (done ++ [x]) s') ->
  forall s s', I [] s -> for_each l body s = Ok (tt, s') -> I l s'.
Proof.
  intros Hbody.
  assert (G : forall rest done s s', (forall x, In x rest -> In x l) ->
            I done s -> for_each rest body s = Ok (tt, s') ->
            I (done ++ rest) s').
  { induction rest as [|x rest IH]; intros done s s' Hin HI H.
    - inversion H; subst. now rewrite app_nil_r.
    - simpl in H. apply bind_ok in H. destruct H as ([] & s1 & H1 & H).
      replace (done ++ x :: rest) with ((done ++ [x]) ++ rest)
        by (now rewrite <- app_assoc).
      eapply IH; [| |exact H].
      + intros y Hy. apply Hin. now right.
      + eapply Hbody; eauto. apply Hin. now left. }
  intros s s' HI H. apply (G l [] s s'); auto.
Qed.

Lemma step_input_dim_eq d k p :
  step_input_dim d (k, p) =
  if counted p && negb (FeatureParam.indexed p)
  then d + FeatureParam.num p * FeatureParam.dim p else d.
Proof. reflexivity. Qed.

Lemma step_indexed_dim_eq d k p :
  step_indexed_dim d (k, p) =
  if counted p && FeatureParam.indexed p then d + FeatureParam.dim p else d.
Proof. reflexivity. Qed.

Lemma step_indexed_num_eq n k p :
  step_indexed_num n (k, p) =
  if counted p && FeatureParam.indexed p
  then Z.max n (FeatureParam.num p) else n.
Proof. reflexivity. Qed.

Section InitInputParams.

Variable ip : dict string FeatureParam.t.

Hypothesis ip_nodup : NoDup (keys ip).

Lemma init_input_param_inv done k p s s' :
  In (k, p) ip ->
  input_inv ip done s ->
  init_input_param k p s = Ok (tt, s') ->
  input_inv ip (done ++ [(k, p)]) s'.
Proof.
  intros Hin (Hd & Hxd & Hxn & Hsub & Hp) H.
  assert (Hsub' : forall x, In x (done ++ [(k, p)]) -> In x ip).
  { intros x Hx. apply in_app_or in Hx. destruct Hx as [Hx|[<-|[]]]; auto. }
  unfold input_inv. rewrite !fold_left_app. cbn [fold_left].
  rewrite step_input_dim_eq, step_indexed_dim_eq, step_indexed_num_eq.
  unfold counted. unfold init_input_param in H.
  destruct (Z.eqb_spec (FeatureParam.dim p) 0) as [Ed|Ed]; simpl in H.
  - inversion H; subst. repeat split; auto.
    intros k' p' Hin' Hl. apply in_app_or in Hin'.
    destruct Hin' as [Hin'|[Eq|[]]]; [eauto|].
    inversion Eq; subst. destruct Hl. congruence.
  - apply bind_ok in H. destruct H as ([] & s1 & H1 & H).
    assert (A1 : _input_dim s1 = _input_dim s /\
                 _indexed_dim s1 = _indexed_dim s /\
                 _indexed_num s1 = _indexed_num s /\
                 (forall k' p', In (k', p') (done ++ [(k, p)]) -> is_lookup p' ->
                    exists x, dict_get key_eqb (_params s1) (Suffix k') = Some x
                              /\ is_table_of p' x)).
    { destruct (FeatureParam.numeric p) eqn:En; simpl in H1.
      - inversion H1; subst. repeat split; auto.
        intros k' p' Hin' Hl. apply in_app_or in Hin'.
        destruct Hin' as [Hin'|[Eq|[]]]; [eauto|].
        inversion Eq; subst. destruct Hl. congruence.
      - unfold add_lookup_parameters, params_set in H1. mrun_in H1.
        destruct (model s) as [t|]; [|discriminate].
        inversion H1; subst. clear H1. simpl. repeat split; auto.
        intros k' p' Hin' Hl.
        rewrite (dict_get_set _ key_eqb_spec).
        destruct (key_eqb_spec (Suffix k') (Suffix k)) as [Ek|Ek].
        + inversion Ek; subst k'. eexists. split; [reflexivity|].
          assert (p' = p) as ->.
          { eapply NoDup_keys_unique; eauto. }
          exists (length t). destruct (FeatureParam.init p); reflexivity.
        + apply in_app_or in Hin'. destruct Hin' as [Hin'|[Eq|[]]]; [eauto|].
          inversion Eq; subst. congruence. }
    destruct A1 as (A1 & A2 & A3 & A4).
    destruct (FeatureParam.indexed p); mrun_in H; simpl in *.
    + rewrite A2, Hxd in H. simpl in H. rewrite A3, Hxn in H.
      inversion H; subst. simpl. repeat split; auto. congruence.
    + rewrite A1, Hd in H. inversion H; subst. simpl.
      repeat split; auto; congruence.
Qed.

End InitInputParams.

(** *** Sorting the items of a dictionary *)

Lemma leb_iff a c : String.leb a c = true <-> a = c \/ String_as_OT.lt a c.
Proof.
  unfold String.leb. split.
  - destruct (String.compare a c) eqn:E; intro H; try discriminate.
    + left. now apply String.compare_eq_iff.
    + right. now apply String_as_OT.cmp_lt.
  - intros [->|H].
    + assert (String.compare c c = Eq) as -> by now apply String_as_OT.cmp_eq.
      reflexivity.
    + apply String_as_OT.cmp_lt in H. unfold String_as_OT.cmp in H.
      now rewrite H.
Qed.

Lemma leb_trans a c d :
  String.leb a c = true -> String.leb c d = true -> String.leb a d = true.
Proof.
  rewrite !leb_iff. intros [->|H1] [->|H2]; auto.
  right. eapply String_as_OT.lt_trans; eauto.
Qed.

Lemma insert_item_sorted {V} (kv : string * V) l :
  StronglySorted key_le l -> StronglySorted key_le (insert_item kv l).
Proof.
  induction 1 as [|x l Hs IH Hx]; simpl.
  - repeat constructor.
  - destruct (String.leb (fst kv) (fst x)) eqn:E.
    + constructor; [now constructor|].
      constructor; [exact E|].
      eapply Forall_impl; [|exact Hx]. intros y Hy. unfold key_le in *.
      eapply leb_trans; eauto.
    + constructor; [exact IH|].
      assert (Hle : key_le x kv).
      { destruct (String.leb_total (fst x) (fst kv)) as [H|H]; [exact H|].
        congruence. }
      eapply Permutation_Forall; [symmetry; apply insert_item_perm|].
      now constructor.
Qed.

Lemma sorted_items_sorted {V} (d : dict string V) :
  StronglySorted key_le (sorted_items d).
Proof.
  induction d as [|kv d IH]; simpl; [constructor|].
  now apply insert_item_sorted.
Qed.

Lemma sorted_unique {V} (l1 l2 : list (string * V)) :
  StronglySorted key_le l1 -> StronglySorted key_le l2 ->
  Permutation l1 l2 -> NoDup (keys l1) -> l1 = l2.
Proof.
  intros H1. revert l2. induction H1 as [|a l1 Hs1 IH Ha]; intros l2 H2 Hp Hnd.
  - apply Permutation_nil in Hp. now subst.
  - destruct H2 as [|c l2 Hs2 Hc].
    + apply Permutation_sym, Permutation_nil in Hp. discriminate.
    + assert (E : a = c).
      { assert (Ia : In a (c :: l2)) by (eapply Permutation_in; eauto; now left).
        assert (Ic : In c (a :: l1)).
        { eapply Permutation_in; [symmetry; eauto|now left]. }
        destruct Ia as [Ia|Ia]; [now subst|].
        destruct Ic as [Ic|Ic]; [now subst|].
        rewrite Forall_forall in Ha, Hc.
        pose proof (String.leb_antisym _ _ (Ha _ Ic) (Hc _ Ia)) as Ek.
        exfalso. inversion Hnd as [|? ? Hnotin _]; subst. apply Hnotin.
        rewrite Ek. now apply in_map. }
      subst c. f_equal. apply IH; auto.
      * eapply Permutation_cons_inv; eauto.
      * now inversion Hnd.
Qed.

Lemma keys_perm {K V} (l1 l2 : dict K V) :
  Permutation l1 l2 -> Permutation (keys l1) (keys l2).
Proof. apply Permutation_map. Qed.

(** The order of insertion of the keys is immaterial. *)
Lemma sorted_items_order {V} (d1 d2 : dict string V) :
  NoDup (keys d1) -> Permutation d1 d2 -> sorted_items d1 = sorted_items d2.
Proof.
  intros Hnd Hp. apply sorted_unique.
  - apply sorted_items_sorted.
  - apply sorted_items_sorted.
  - rewrite !sorted_items_perm. exact Hp.
  - eapply Permutation_NoDup; [|exact Hnd].
    apply keys_perm. symmetry. apply sorted_items_perm.
Qed.

Lemma init_input_params_post s s' :
  NoDup (keys (_input_params s)) ->
  init_input_params s = Ok (tt, s') ->
  _input_dim s' = Some (declared_input_dim (_input_params s)) /\
  _indexed_dim s' = Some (declared_indexed_dim (_input_params s)) /\
  _indexed_num s' = Some (declared_indexed_num (_input_params s)) /\
  (forall k p, In (k, p) (_input_params s) -> is_lookup p ->
     exists x, dict_get key_eqb (_params s') (Suffix k) = Some x /\
               is_table_of p x).
Proof.
  intros Hnd H. unfold init_input_params in H.
  apply bind_ok in H. destruct H as ([] & s1 & H1 & H). inversion H1; subst s1.
  apply bind_ok in H. destruct H as ([] & s2 & H2 & H). inversion H2; subst s2.
  apply bind_ok in H. destruct H as ([] & s3 & H3 & H). inversion H3; subst s3.
  apply bind_ok in H. destruct H as (items & s4 & H4 & H).
  inversion H4; subst items s4. clear H1 H2 H3 H4.
  apply bind_ok in H. destruct H as ([] & s5 & H5 & H).
  simpl in H5.
  assert (I5 : input_inv (_input_params s) (sorted_items (_input_params s)) s5).
  { eapply (for_each_partial (input_inv (_input_params s))); [| |exact H5].
    - intros done [k p] t t' Hin HI Hb.
      eapply init_input_param_inv; eauto. now apply sorted_items_In.
    - repeat split; try reflexivity; intros; contradiction. }
  destruct I5 as (Hd & Hxd & Hxn & _ & Hp).
  unfold init_indexed_input_params in H. mrun_in H.
  rewrite Hd, Hxd, Hxn in H. inversion H; subst. simpl.
  unfold declared_input_dim, declared_indexed_dim, declared_indexed_num.
  repeat split; auto;
    try (intros k p Hin Hl; apply Hp; auto; now apply sorted_items_In).
Qed.

#[local] Instance tables_kept_preorder : PreOrder tables_kept.
Proof.
  split; unfold tables_kept.
  - intro s. repeat split; reflexivity.
  - intros s1 s2 s3 (A1 & A2 & A3 & A4 & A5) (C1 & C2 & C3 & C4 & C5).
    repeat split; intros; congruence.
Qed.

#[local] Hint Extern 1 (tables_kept _ _) =>
  (unfold tables_kept; simpl; repeat split; intros; try reflexivity;
   rewrite (dict_get_set _ key_eqb_spec); reflexivity) : frame.

Lemma init_mlp_params_tables : respects tables_kept init_mlp_params.
Proof.
  unfold init_mlp_params, init_mlp_axis, init_mlp_layer, add_parameters,
    params_set, get_int.
  frame.
Qed.

Lemma init_cg_tables : respects tables_kept init_cg.
Proof. unfold init_cg. frame. Qed.

(** *** What [init_model] leaves for the input assembler *)

Lemma init_model_assembler s s' :
  NoDup (keys (_input_params s)) ->
  dims_ok (_input_params s) ->
  init_model s = Ok (tt, s') ->
  _input_params s' = _input_params s /\ assembler_ready s'.
Proof.
  intros Hnd Hd H. unfold init_model in H.
  apply bind_ok in H. destruct H as ([] & s1 & H1 & H). inversion H1; subst s1.
  apply bind_ok in H. destruct H as (o & s2 & H2 & H). inversion H2; subst o s2.
  apply bind_ok in H. destruct H as ([] & s3 & H3 & H). inversion H3; subst s3.
  clear H1 H2 H3.
  apply bind_ok in H. destruct H as ([] & s4 & H4 & H).
  apply bind_ok in H. destruct H as ([] & s5 & H5 & H).
  pose proof (init_input_params_respects (same _input_params)
                ltac:(auto with frame) _ _ _ H4) as F4.
  unfold same in F4. simpl in F4.
  apply init_input_params_post in H4; [|exact Hnd]. simpl in H4.
  destruct H4 as (Hdim & _ & Hnum & Htab).
  apply init_mlp_params_tables in H5.
  destruct H5 as (K1 & K2 & _ & K4 & K5).
  destruct (init_cg_spec s5) as (E & HE & HEv).
  { rewrite K5, F4. exact Hd. }
  rewrite HE in H. inversion H; subst s'. clear H HE.
  unfold assembler_ready. simpl. rewrite K5, F4.
  split; [reflexivity|]. repeat split.
  - congruence.
  - congruence.
  - intros k p Hin Hl. rewrite K1. auto.
  - intros k p Hin [Hn Hz]. apply HEv; auto; rewrite K5, F4; auto.
Qed.

(** *** Length of the assembled vector *)

Lemma zsum_app {A} (g : A -> Z) l1 l2 :
  zsum g (l1 ++ l2) = zsum g l1 + zsum g l2.
Proof. induction l1; simpl; lia. Qed.

Lemma zsum_perm {A} (g : A -> Z) l1 l2 :
  Permutation l1 l2 -> zsum g l1 = zsum g l2.
Proof. induction 1; simpl; lia. Qed.

Lemma zsum_map {A C} (g : C -> Z) (h : A -> C) l :
  zsum g (map h l) = zsum (fun x => g (h x)) l.
Proof. induction l; simpl; congruence. Qed.

Lemma zsum_ext {A} (g h : A -> Z) l :
  (forall x, In x l -> g x = h x) -> zsum g l = zsum h l.
Proof.
  induction l as [|x l IH]; simpl; intro H; [reflexivity|].
  rewrite H, IH; auto.
Qed.

(** Two duplicate-free lists, one inside the other, whose difference
    contributes nothing. *)
Lemma zsum_incl {A} (dec : forall x y : A, {x = y} + {x <> y})
    (g : A -> Z) (l1 l2 : list A) :
  NoDup l1 -> NoDup l2 -> incl l1 l2 ->
  (forall x, In x l2 -> ~ In x l1 -> g x = 0) ->
  zsum g l1 = zsum g l2.
Proof.
  intros H1 H2. revert l1 H1. induction H2 as [|x l2 Hx H2 IH];
    intros l1 H1 Hincl Hz.
  - destruct l1 as [|y l1]; [reflexivity|]. destruct (Hincl y). now left.
  - destruct (in_dec dec x l1) as [Hin|Hnin].
    + destruct (in_split _ _ Hin) as (la & lb & ->).
      rewrite (zsum_perm g _ (x :: la ++ lb))
        by (symmetry; apply Permutation_middle).
      simpl. f_equal.
      assert (H1' : NoDup (la ++ lb)) by (eapply NoDup_remove_1; eauto).
      assert (Hx' : ~ In x (la ++ lb)) by (eapply NoDup_remove_2; eauto).
      apply IH; auto.
      * intros y Hy. destruct (Hincl y) as [->|Hy']; auto.
        { apply in_app_or in Hy. apply in_or_app. simpl. tauto. }
        contradiction.
      * intros y Hy Hny. apply Hz; [now right|].
        intro Hy'. apply in_app_or in Hy'. simpl in Hy'.
        destruct Hy' as [Hy'|[->|Hy']]; [| contradiction |];
          apply Hny, in_or_app; tauto.
    + simpl. rewrite (Hz x); [|now left|exact Hnin].
      apply IH; auto.
      * intros y Hy. destruct (Hincl y Hy) as [->|Hy']; [contradiction|auto].
      * intros y Hy Hny. apply Hz; [now right|exact Hny].
Qed.

Lemma len_py_repeat {A} n (x : A) : 0 <= n -> len (py_repeat n x) = n.
Proof. intro H. unfold len, py_repeat. rewrite repeat_length. lia. Qed.

Lemma lookup_values_len s k p vals :
  assembler_ready s ->
  In (k, p) (_input_params s) -> is_lookup p -> 0 <= FeatureParam.dim p ->
  exists es, rmap (lookup_value s k) vals = Ok es /\
             vec_len (concatenate es) = len vals * FeatureParam.dim p.
Proof.
  intros (_ & _ & Htab & Hemp) Hin Hl Hd.
  destruct (Htab k p Hin Hl) as (x & Hx & id & ->).
  specialize (Hemp k p Hin Hl).
  induction vals as [|v vals IH].
  - exists []. split; reflexivity.
  - destruct IH as (es & Hes & Hlen).
    assert (Hv : exists e, lookup_value s k v = Ok e /\
                           vec_len e = FeatureParam.dim p).
    { unfold lookup_value, params_get.
      destruct (value_eqb v MISSING_VALUE).
      - rewrite Hemp. eexists. split; [reflexivity|]. simpl.
        now apply len_py_repeat.
      - rewrite Hx. eexists. split; reflexivity. }
    destruct Hv as (e & He & Hve).
    exists (e :: es). split.
    + simpl. rewrite He. simpl. rewrite Hes. reflexivity.
    + change (vec_len (concatenate (e :: es)))
        with (vec_len e + vec_len (concatenate es)).
      rewrite Hve, Hlen. unfold len. cbn [length].
      rewrite Nat2Z.inj_succ. ring.
Qed.

Lemma scan_inputs_valid s items :
  assembler_ready s ->
  NoDup (keys (_input_params s)) ->
  dims_ok (_input_params s) ->
  no_indexed (_input_params s) ->
  (forall k vals, In (k, vals) items ->
     exists p, In (k, p) (_input_params s) /\ valid_values p vals) ->
  exists ys, scan_inputs s items [] = Ok (ys, []) /\
             vec_len (concatenate ys)
             = zsum (width (_input_params s)) (keys items).
Proof.
  intros Hr Hnd Hdims Hni Hv. induction items as [|[k vals] items IH].
  - exists []. split; reflexivity.
  - destruct IH as (ys & Hys & Hlen).
    { intros k' vals' Hin. apply Hv. now right. }
    destruct (Hv k vals) as (p & Hin & Hval); [now left|].
    pose proof (In_dict_get _ String.eqb_spec _ _ _ Hnd Hin) as Hget.
    assert (Hk : zsum (width (_input_params s)) (keys ((k, vals) :: items))
                 = FeatureParam.num p * FeatureParam.dim p
                   + zsum (width (_input_params s)) (keys items)).
    { cbn [keys map fst zsum fold_right]. unfold width at 1.
      now rewrite Hget. }
    rewrite Hk. clear Hk.
    cbn [scan_inputs]. unfold input_param. rewrite Hget.
    cbn [from_option rbind]. unfold valid_values in Hval.
    destruct (FeatureParam.numeric p) eqn:En.
    + rewrite Hys. cbn [rbind fst snd]. eexists. split; [reflexivity|].
      change (vec_len (concatenate (inputVector (map to_float vals) :: ys)))
        with (len (map to_float vals) + vec_len (concatenate ys)).
      rewrite Hlen. unfold len in *. rewrite length_map. lia.
    + destruct (Z.eqb_spec (FeatureParam.dim p) 0) as [Ez|Ez]; cbn [negb].
      * exists ys. split; [exact Hys|]. rewrite Hlen, Ez. lia.
      * rewrite (Hni k p Hin Ez).
        assert (Hlk : is_lookup p) by (split; assumption).
        destruct (lookup_values_len s k p vals Hr Hin Hlk) as (es & Hes & Hle).
        { apply (Hdims k p Hin En). }
        rewrite Hes. cbn [rbind]. rewrite Hys. cbn [rbind fst snd].
        eexists. split; [reflexivity|].
        change (vec_len (concatenate (concatenate es :: ys)))
          with (vec_len (concatenate es) + vec_len (concatenate ys)).
        rewrite Hle, Hlen. destruct Hval as [Hval|Hval]; [contradiction|].
        rewrite Hval. reflexivity.
Qed.

Lemma generate_inputs_order s f1 f2 :
  NoDup (keys f1) -> Permutation f1 f2 ->
  generate_inputs s f1 = generate_inputs s f2.
Proof.
  intros Hnd Hp. unfold generate_inputs.
  now rewrite (sorted_items_order f1 f2 Hnd Hp).
Qed.

Lemma fold_step_input_dim l a :
  (forall k p, In (k, p) l -> FeatureParam.dim p <> 0 ->
     FeatureParam.indexed p = false) ->
  fold_left step_input_dim l a
  = a + zsum (fun kv => FeatureParam.num (snd kv) * FeatureParam.dim (snd kv)) l.
Proof.
  revert a. induction l as [|[k p] l IH]; intros a H; cbn [fold_left zsum fold_right snd];
    [lia|].
  rewrite IH by (intros k' p' Hin'; apply (H k' p'); now right).
  rewrite step_input_dim_eq. unfold counted.
  unfold zsum.
  destruct (Z.eqb_spec (FeatureParam.dim p) 0) as [E|E]; simpl.
  - rewrite E. lia.
  - rewrite (H k p) by (try assumption; now left). simpl. lia.
Qed.

Lemma fold_step_indexed_dim l a :
  (forall k p, In (k, p) l -> FeatureParam.dim p <> 0 ->
     FeatureParam.indexed p = false) ->
  fold_left step_indexed_dim l a = a.
Proof.
  revert a. induction l as [|[k p] l IH]; intros a H; cbn [fold_left];
    [reflexivity|].
  rewrite IH by (intros k' p' Hin'; apply (H k' p'); now right).
  rewrite step_indexed_dim_eq. unfold counted.
  destruct (Z.eqb_spec (FeatureParam.dim p) 0) as [E|E]; simpl; [reflexivity|].
  rewrite (H k p) by (try assumption; now left). reflexivity.
Qed.

Lemma declared_input_dim_plain ip :
  NoDup (keys ip) -> no_indexed ip ->
  declared_input_dim ip = zsum (width ip) (keys ip).
Proof.
  intros Hnd Hni. unfold declared_input_dim, declared_indexed_dim.
  assert (Hs : forall k p, In (k, p) (sorted_items ip) ->
                 FeatureParam.dim p <> 0 -> FeatureParam.indexed p = false).
  { intros k p Hin. apply (Hni k p). now apply sorted_items_In. }
  rewrite fold_step_input_dim, fold_step_indexed_dim by exact Hs.
  rewrite (zsum_perm _ _ _ (sorted_items_perm ip)).
  unfold keys. rewrite zsum_map. simpl.
  rewrite Z.add_0_r. apply zsum_ext. intros [k p] Hin. unfold width. simpl.
  now rewrite (In_dict_get _ String.eqb_spec _ _ _ Hnd Hin).
Qed.

Lemma in_keys {K V} (d : dict K V) k :
  In k (keys d) <-> exists v, In (k, v) d.
Proof.
  unfold keys. rewrite in_map_iff. split.
  - intros ([k' v] & <- & H). eauto.
  - intros (v & H). exists (k, v). auto.
Qed.

Lemma generate_inputs_valid s f :
  assembler_ready s ->
  NoDup (keys (_input_params s)) ->
  dims_ok (_input_params s) ->
  no_indexed (_input_params s) ->
  valid_features (_input_params s) f ->
  exists ys, generate_inputs s f = Ok ys /\
             _input_dim s = Some (vec_len (concatenate ys)).
Proof.
  intros Hr Hnd Hd Hni (Hnf & Hv & Hall).
  destruct (scan_inputs_valid s (sorted_items f) Hr Hnd Hd Hni) as (ys & Hys & Hl).
  { intros k vals Hin. apply Hv. now apply sorted_items_In. }
  exists ys. unfold generate_inputs. rewrite Hys. cbn [rbind].
  split; [reflexivity|].
  destruct Hr as (-> & _). f_equal.
  rewrite Hl, declared_input_dim_plain by assumption.
  rewrite (zsum_perm _ _ _ (keys_perm _ _ (sorted_items_perm f))).
  symmetry. apply (zsum_incl string_dec); auto.
  - intros k Hk. apply in_keys in Hk. destruct Hk as (vals & Hk).
    destruct (Hv k vals Hk) as (p & Hp & _). apply in_keys. eauto.
  - intros k Hk Hnk. apply in_keys in Hk. destruct Hk as (p & Hk).
    unfold width. rewrite (In_dict_get _ String.eqb_spec _ _ _ Hnd Hk).
    destruct (Z.eq_dec (FeatureParam.num p * FeatureParam.dim p) 0) as [E|E];
      [exact E|].
    destruct Hnk. eapply Hall; eauto.
Qed.

(** C8, amended. When no feature type with a dimension is indexed, for every
    valid feature dictionary the input assembler returns vectors whose
    concatenation has as many entries as the declared total input width, and
    a dictionary with the same entries inserted in another order is assembled
    into the very same vectors, the feature types being visited in sorted
    order of their suffix. *)
Theorem assembled_width s0 s f1 f2 :
  init_model s0 = Ok (tt, s) ->
  NoDup (keys (_input_params s0)) ->
  dims_ok (_input_params s0) ->
  no_indexed (_input_params s0) ->
  valid_features (_input_params s0) f1 ->
  Permutation f1 f2 ->
  exists ys,
    generate_inputs s f1 = Ok ys /\
    generate_inputs s f2 = Ok ys /\
    _input_dim s = Some (declared_input_dim (_input_params s0)) /\
    vec_len (concatenate ys) = declared_input_dim (_input_params s0).
Proof.
  intros Hinit Hnd Hd Hni Hv Hp.
  destruct (init_model_assembler s0 s Hnd Hd Hinit) as (Hip & Hr).
  rewrite <- Hip in Hnd, Hd, Hni, Hv.
  destruct (generate_inputs_valid s f1 Hr Hnd Hd Hni Hv) as (ys & Hys & Hl).
  exists ys. rewrite <- (generate_inputs_order s f1 f2 (proj1 Hv) Hp).
  destruct Hr as (Hdim & _). rewrite Hip in Hdim.
  repeat split; auto. congruence.
Qed.

(** *** The count of indexed slots *)

Lemma fold_step_indexed_num_max l a :
  let N := fold_left step_indexed_num l a in
  a <= N /\
  (forall k p, In (k, p) l -> is_indexed p -> FeatureParam.num p <= N) /\
  (N = a \/ exists k p, In (k, p) l /\ is_indexed p /\ FeatureParam.num p = N).
Proof.
  revert a. induction l as [|[k p] l IH]; intro a; cbn [fold_left].
  - cbv zeta. split; [lia|]. split; [intros k p []|now left].
  - specialize (IH (step_indexed_num a (k, p))). cbv zeta in *.
    destruct IH as (I1 & I2 & I3). rewrite step_indexed_num_eq in *.
    unfold counted in *.
    destruct (Z.eqb_spec (FeatureParam.dim p) 0) as [E|E]; simpl in *.
    + split; [exact I1|]. split.
      * intros k' p' [Eq|Hin] Hi; [|eauto].
        inversion Eq; subst. destruct Hi. contradiction.
      * destruct I3 as [I3|(k' & p' & Hin & Hi & Hn)]; [now left|].
        right. exists k', p'. auto.
    + destruct (FeatureParam.indexed p) eqn:Ei.
      * split; [lia|]. split.
        -- intros k' p' [Eq|Hin] Hi; [|eauto]. inversion Eq; subst. lia.
        -- destruct I3 as [I3|(k' & p' & Hin & Hi & Hn)].
           ++ destruct (Z.max_spec a (FeatureParam.num p)) as [[_ Hm]|[_ Hm]].
              ** right. exists k, p. repeat split; auto. congruence.
              ** left. congruence.
           ++ right. exists k', p'. auto.
      * split; [exact I1|]. split.
        -- intros k' p' [Eq|Hin] Hi; [|eauto].
           inversion Eq; subst. destruct Hi. congruence.
        -- destruct I3 as [I3|(k' & p' & Hin & Hi & Hn)]; [now left|].
           right. exists k', p'. auto.
Qed.

(** The declared slot count is the largest [num] among the indexed feature
    types, and 0 when there is none. *)
Lemma declared_indexed_num_max ip :
  let N := declared_indexed_num ip in
  (forall k p, In (k, p) ip -> is_indexed p -> FeatureParam.num p <= N) /\
  (N = 0 \/ exists k p, In (k, p) ip /\ is_indexed p /\ FeatureParam.num p = N).
Proof.
  cbv zeta. unfold declared_indexed_num.
  destruct (fold_step_indexed_num_max (sorted_items ip) 0) as (_ & H2 & H3).
  split.
  - intros k p Hin. apply (H2 k). now apply sorted_items_In.
  - destruct H3 as [H3|(k & p & Hin & Hi & Hn)]; [now left|].
    right. exists k, p. split; [now apply sorted_items_In|auto].
Qed.

Lemma init_model_indexed_num s s' :
  NoDup (keys (_input_params s)) ->
  init_model s = Ok (tt, s') ->
  _indexed_num s' = Some (declared_indexed_num (_input_params s)) /\
  _input_params s' = _input_params s.
Proof.
  intros Hnd H. unfold init_model in H.
  apply bind_ok in H. destruct H as ([] & s1 & H1 & H). inversion H1; subst s1.
  apply bind_ok in H. destruct H as (o & s2 & H2 & H). inversion H2; subst o s2.
  apply bind_ok in H. destruct H as ([] & s3 & H3 & H). inversion H3; subst s3.
  clear H1 H2 H3.
  apply bind_ok in H. destruct H as ([] & s4 & H4 & H).
  apply bind_ok in H. destruct H as ([] & s5 & H5 & H).
  pose proof (init_input_params_respects (same _input_params)
                ltac:(auto with frame) _ _ _ H4) as F4.
  unfold same in F4. simpl in F4.
  apply init_input_params_post in H4; [|exact Hnd]. simpl in H4.
  destruct H4 as (_ & _ & Hnum & _).
  apply init_mlp_params_tables in H5. destruct H5 as (_ & _ & _ & K4 & K5).
  apply init_cg_tables in H. destruct H as (_ & _ & _ & L4 & L5).
  split; congruence.
Qed.

Lemma generate_inputs_indexed s f ys indices n :
  scan_inputs s (sorted_items f) [] = Ok (ys, indices) ->
  indices <> [] ->
  _indexed_num s = Some n ->
  generate_inputs s f =
  Raise (if len indices =? n then index_input_error
         else index_count_error indices n).
Proof.
  intros Hs Hne Hn. unfold generate_inputs. rewrite Hs. cbn [rbind].
  destruct indices as [|i indices]; [congruence|]. rewrite Hn.
  destruct (len (i :: indices) =? n); reflexivity.
Qed.

(** C6. During input assembly, if any index of an indexed feature type was
    collected, [generate_inputs] raises an assertion error as soon as the
    number of collected indices differs from [_indexed_num], and that slot
    count is the maximum of the declared [num] over the indexed feature
    types: every such [num] is at most the count, and the count is attained
    by one of them (or is zero). *)
Theorem indexed_count_checked s0 s f ys indices :
  NoDup (keys (_input_params s0)) ->
  init_model s0 = Ok (tt, s) ->
  scan_inputs s (sorted_items f) [] = Ok (ys, indices) ->
  indices <> [] ->
  let n := declared_indexed_num (_input_params s0) in
  _indexed_num s = Some n /\
  (forall k p, In (k, p) (_input_params s0) -> is_indexed p ->
     FeatureParam.num p <= n) /\
  (n = 0 \/ exists k p, In (k, p) (_input_params s0) /\ is_indexed p /\
                        FeatureParam.num p = n) /\
  (len indices <> n ->
   generate_inputs s f = Raise (index_count_error indices n)).
Proof.
  intros Hnd Hinit Hs Hne n.
  destruct (init_model_indexed_num s0 s Hnd Hinit) as (Hn & _).
  destruct (declared_indexed_num_max (_input_params s0)) as (M1 & M2).
  repeat split; auto.
  intro Hlen. rewrite (generate_inputs_indexed s f ys indices n Hs Hne Hn).
  destruct (Z.eqb_spec (len indices) n); [contradiction|reflexivity].
Qed.

(** *** [init_mlp_params] *)

Lemma py_index_nonneg {A} (l : list A) i x :
  0 <= i -> nth_error l (Z.to_nat i) = Some x -> py_index l i = Ok x.
Proof.
  intros Hi Hn. unfold py_index, py_pos.
  assert (Hlt : i < len l).
  { unfold len. assert (Z.to_nat i < length l)%nat; [|lia].
    apply nth_error_Some. congruence. }
  destruct (Z.leb_spec 0 i); [|lia]. destruct (Z.ltb_spec i (len l)); [|lia].
  simpl. now rewrite Hn.
Qed.

Lemma nth_error_repeat_lt {A} (x : A) n k :
  (k < n)%nat -> nth_error (repeat x n) k = Some x.
Proof.
  revert k. induction n as [|n IH]; intros [|k] H; simpl; try lia; auto.
  apply IH. lia.
Qed.

Lemma in_dim_index d ld od L i :
  0 <= i <= L ->
  py_index ([d] ++ py_repeat (L - 1) ld ++ [od]) i = Ok (in_width d ld od L i).
Proof.
  intro Hi. apply py_index_nonneg; [lia|]. unfold in_width, py_repeat.
  destruct (Z.eqb_spec i 0) as [->|E0]; [reflexivity|].
  replace (Z.to_nat i) with (S (Z.to_nat (i - 1))) by lia.
  cbn [app nth_error].
  destruct (Z.ltb_spec i L).
  - rewrite nth_error_app1 by (rewrite repeat_length; lia).
    apply nth_error_repeat_lt. lia.
  - rewrite nth_error_app2 by (rewrite repeat_length; lia).
    rewrite repeat_length.
    replace (Z.to_nat (i - 1) - Z.to_nat (L - 1))%nat with O by lia.
    reflexivity.
Qed.

Lemma out_dim_index ld od m L i :
  0 <= i <= L ->
  py_index (py_repeat (L - 1) ld ++ [od; m]) i = Ok (out_width ld od m L i).
Proof.
  intro Hi. apply py_index_nonneg; [lia|]. unfold out_width, py_repeat.
  cbv zeta.
  destruct (Z.ltb_spec i (Z.max (L - 1) 0)).
  - rewrite nth_error_app1 by (rewrite repeat_length; lia).
    apply nth_error_repeat_lt. lia.
  - rewrite nth_error_app2 by (rewrite repeat_length; lia).
    rewrite repeat_length.
    destruct (Z.eqb_spec i (Z.max (L - 1) 0)).
    + replace (Z.to_nat i - Z.to_nat (L - 1))%nat with O by lia. reflexivity.
    + replace (Z.to_nat i - Z.to_nat (L - 1))%nat with 1%nat by lia.
      reflexivity.
Qed.

Lemma in_range i n : In i (range n) <-> 0 <= i < n.
Proof.
  unfold range. rewrite in_map_iff. split.
  - intros (k & <- & Hk). apply in_seq in Hk. lia.
  - intro H. exists (Z.to_nat i). split; [lia|]. apply in_seq. lia.
Qed.

Lemma set_params_model_id s t :
  model s = Some t -> s = set_params (_params s) (set_model (Some t) s).
Proof. intro H. rewrite <- H. destruct s; reflexivity. Qed.

Lemma init_mlp_layer_spec in_dim out_dim axis i s t o n :
  model s = Some t ->
  py_index out_dim i = Ok o ->
  py_index in_dim i = Ok n ->
  init_mlp_layer in_dim out_dim axis i s =
  Ok (tt, set_params
            (dict_set key_eqb
               (dict_set key_eqb (_params s) (Triple role_W i axis)
                  (Parameters (length t) [o; n] (_init s)))
               (Triple role_b i axis)
               (Parameters (length (t ++ [[o; n]])) [o] (_init s)))
            (set_model (Some ((t ++ [[o; n]]) ++ [[o]])) s)).
Proof.
  intros Hm Ho Hn. unfold init_mlp_layer, add_parameters, params_set. mrun.
  rewrite Ho, Hn. simpl. rewrite Hm. simpl. reflexivity.
Qed.

Lemma init_mlp_axis_spec axis s t d m :
  model s = Some t ->
  _input_dim s = Some d ->
  py_index (max_num_labels s) axis = Ok m ->
  exists P t',
    init_mlp_axis axis s = Ok (tt, set_params P (set_model (Some t') s)) /\
    (forall i, 0 <= i <= _layers s ->
       has_layer P (_init s) i axis
         (in_width d (_layer_dim s) (_output_dim s) (_layers s) i)
         (out_width (_layer_dim s) (_output_dim s) m (_layers s) i)) /\
    (forall k, (forall i, 0 <= i <= _layers s ->
                  k <> Triple role_W i axis /\ k <> Triple role_b i axis) ->
       dict_get key_eqb P k = dict_get key_eqb (_params s) k).
Proof.
  intros Hm Hd Hmax. unfold init_mlp_axis. mrun. rewrite Hd, Hmax. simpl.
  set (ind := d :: py_repeat (_layers s - 1) (_layer_dim s) ++ [_output_dim s]).
  set (outd := py_repeat (_layers s - 1) (_layer_dim s) ++ [_output_dim s; m]).
  set (inw := in_width d (_layer_dim s) (_output_dim s) (_layers s)).
  set (outw := out_width (_layer_dim s) (_output_dim s) m (_layers s)).
  destruct (for_each_inv
    (fun done s1 => exists P t', s1 = set_params P (set_model (Some t') s) /\
       (forall i, In i done -> has_layer P (_init s) i axis (inw i) (outw i)) /\
       (forall k, (forall i, In i done ->
                     k <> Triple role_W i axis /\ k <> Triple role_b i axis) ->
          dict_get key_eqb P k = dict_get key_eqb (_params s) k))
    (init_mlp_layer ind outd axis) (range (_layers s + 1))) with (s := s)
    as (s' & Hrun & P & t' & -> & HL & HK).
  - intros done i s1 (P & t' & -> & HL & HK) Hin. apply in_range in Hin.
    rewrite (init_mlp_layer_spec ind outd axis i _ t' (outw i) (inw i));
      [|reflexivity|apply out_dim_index; lia|apply (in_dim_index d); lia].
    eexists. split; [reflexivity|]. simpl.
    eexists. eexists. split; [reflexivity|]. split.
    + intros j Hj. apply in_app_or in Hj. unfold has_layer.
      rewrite !(dict_get_set _ key_eqb_spec).
      destruct (Z.eq_dec j i) as [->|Hji].
      * destruct (key_eqb_spec (Triple role_W i axis) (Triple role_b i axis));
          [discriminate|].
        destruct (key_eqb_spec (Triple role_W i axis) (Triple role_W i axis));
          [|congruence].
        destruct (key_eqb_spec (Triple role_b i axis) (Triple role_b i axis));
          [|congruence].
        eauto.
      * destruct Hj as [Hj|[Hj|[]]]; [|congruence].
        destruct (key_eqb_spec (Triple role_W j axis) (Triple role_b i axis));
          [discriminate|].
        destruct (key_eqb_spec (Triple role_W j axis) (Triple role_W i axis));
          [congruence|].
        destruct (key_eqb_spec (Triple role_b j axis) (Triple role_b i axis));
          [congruence|].
        destruct (key_eqb_spec (Triple role_b j axis) (Triple role_W i axis));
          [discriminate|].
        apply HL, Hj.
    + intros k Hk. rewrite !(dict_get_set _ key_eqb_spec).
      destruct (Hk i) as [Hk1 Hk2]; [apply in_or_app; right; now left|].
      destruct (key_eqb_spec k (Triple role_b i axis)); [congruence|].
      destruct (key_eqb_spec k (Triple role_W i axis)); [congruence|].
      apply HK. intros j Hj. apply Hk, in_or_app. now left.
  - exists (_params s), t. split; [now apply set_params_model_id|].
    split; [intros i []|reflexivity].
  - exists P, t'. split; [exact Hrun|]. split.
    + intros i Hi. apply HL, in_range. lia.
    + intros k Hk. apply HK. intros i Hi. apply Hk. apply in_range in Hi. lia.
Qed.

Lemma py_index_nat {A} (l : list A) (n : nat) :
  (n < length l)%nat -> exists x, py_index l (Z.of_nat n) = Ok x /\
                                  nth_error l n = Some x.
Proof.
  intro H. destruct (nth_error l n) as [x|] eqn:E.
  - exists x. split; [|reflexivity]. apply py_index_nonneg; [lia|].
    now rewrite Nat2Z.id.
  - apply nth_error_None in E. lia.
Qed.

Lemma init_mlp_params_spec s t d :
  model s = Some t ->
  _input_dim s = Some d ->
  (length (num_labels (base s)) <= length (max_num_labels s))%nat ->
  exists P t',
    init_mlp_params s = Ok (tt, set_params P (set_model (Some t') s)) /\
    (forall (axis : nat) m i,
       (axis < length (num_labels (base s)))%nat ->
       nth_error (max_num_labels s) axis = Some m ->
       0 <= i <= _layers s ->
       has_layer P (_init s) i (Z.of_nat axis)
         (in_width d (_layer_dim s) (_output_dim s) (_layers s) i)
         (out_width (_layer_dim s) (_output_dim s) m (_layers s) i)) /\
    (forall k, (forall (axis : nat) i,
                  (axis < length (num_labels (base s)))%nat ->
                  0 <= i <= _layers s ->
                  k <> Triple role_W i (Z.of_nat axis) /\
                  k <> Triple role_b i (Z.of_nat axis)) ->
       dict_get key_eqb P k = dict_get key_eqb (_params s) k).
Proof.
  intros Hm Hd Hlen. unfold init_mlp_params. mrun.
  set (n := length (num_labels (base s))) in *.
  set (inw := in_width d (_layer_dim s) (_output_dim s) (_layers s)).
  set (outw := out_width (_layer_dim s) (_output_dim s)).
  destruct (for_each_inv
    (fun done s1 => exists P t', s1 = set_params P (set_model (Some t') s) /\
       (forall a m i, In a done ->
          py_index (max_num_labels s) a = Ok m -> 0 <= i <= _layers s ->
          has_layer P (_init s) i a (inw i) (outw m (_layers s) i)) /\
       (forall k, (forall a i, In a done -> 0 <= i <= _layers s ->
                     k <> Triple role_W i a /\ k <> Triple role_b i a) ->
          dict_get key_eqb P k = dict_get key_eqb (_params s) k))
    init_mlp_axis (range (len (num_labels (base s))))) with (s := s)
    as (s' & Hrun & P & t' & -> & HL & HK).
  - intros done a s1 (P & t1 & -> & HL & HK) Hin. apply in_range in Hin.
    unfold len in Hin. fold n in Hin.
    destruct (py_index_nat (max_num_labels s) (Z.to_nat a)) as (m & Hpm & _);
      [lia|].
    rewrite Z2Nat.id in Hpm by lia.
    destruct (init_mlp_axis_spec a (set_params P (set_model (Some t1) s))
                t1 d m) as (P2 & t2 & Hrun & HL2 & HK2);
      [reflexivity|exact Hd|exact Hpm|].
    simpl in Hrun, HL2, HK2.
    rewrite Hrun. eexists. split; [reflexivity|].
    exists P2, t2. split; [reflexivity|]. split.
    + intros a' m' i Ha' Hm' Hi. apply in_app_or in Ha'.
      destruct (Z.eq_dec a' a) as [->|Hne].
      * assert (m' = m) as -> by congruence. apply HL2, Hi.
      * destruct Ha' as [Ha'|[Ha'|[]]]; [|congruence].
        destruct (HL a' m' i Ha' Hm' Hi) as (idW & idb & H1 & H2).
        exists idW, idb. rewrite !HK2; [auto| |];
          intros j _; split; congruence.
    + intros k Hk. rewrite HK2.
      * apply HK. intros a' i Ha' Hi. apply Hk; [apply in_or_app|]; auto.
      * intros i Hi. apply Hk; [apply in_or_app; right; now left|exact Hi].
  - exists (_params s), t. split; [now apply set_params_model_id|].
    split; [intros a m i []|reflexivity].
  - exists P, t'. split; [exact Hrun|]. split.
    + intros axis m i Ha Hm' Hi. apply (HL (Z.of_nat axis) m i); auto.
      * apply in_range. unfold len. fold n. lia.
      * apply py_index_nonneg; [lia|]. now rewrite Nat2Z.id.
    + intros k Hk. apply HK. intros a i Ha Hi. apply in_range in Ha.
      unfold len in Ha. fold n in Ha.
      rewrite <- (Z2Nat.id a) by lia. apply Hk; [lia|exact Hi].
Qed.

Lemma has_layer_affine s i axis n o :
  has_layer (_params s) (_init s) i axis n o ->
  affine_layer s i axis = Some (n, o).
Proof.
  intros (idW & idb & H1 & H2). unfold affine_layer. rewrite H1, H2.
  now rewrite Z.eqb_refl.
Qed.

(** C1, amended. With at least one hidden layer ([layers >= 1]),
    [init_mlp_params] allocates for every axis exactly [layers + 1] affine
    layers, numbered [0] to [layers]. Layer [0] takes the total input width,
    layers [1 .. layers - 1] take the layer width, and the final layer takes
    the output width; layers [0 .. layers - 2] produce the layer width,
    layer [layers - 1] produces the output width [output_dim], and the final
    layer produces [max_num_labels[axis]]. *)
Theorem mlp_shapes s t d :
  model s = Some t ->
  _input_dim s = Some d ->
  (forall r i a, dict_get key_eqb (_params s) (Triple r i a) = None) ->
  (length (num_labels (base s)) <= length (max_num_labels s))%nat ->
  1 <= _layers s ->
  exists s',
    init_mlp_params s = Ok (tt, s') /\
    forall (axis : nat) m,
      (axis < length (num_labels (base s)))%nat ->
      nth_error (max_num_labels s) axis = Some m ->
      let L := _layers s in
      let a := Z.of_nat axis in
      (forall i, affine_layer s' i a <> None <-> 0 <= i <= L) /\
      (forall i, 0 <= i <= L ->
         affine_layer s' i a =
         Some (if i =? 0 then d
               else if i <? L then _layer_dim s else _output_dim s,
               if i <? L - 1 then _layer_dim s
               else if i =? L - 1 then _output_dim s else m)).
Proof.
  intros Hm Hd Hfresh Hlen HL.
  destruct (init_mlp_params_spec s t d Hm Hd Hlen) as (P & t' & Hrun & HP & HK).
  eexists. split; [exact Hrun|]. intros axis m Ha Hmax. cbv zeta.
  set (L := _layers s) in *. set (a := Z.of_nat axis).
  assert (Hlayers : forall i, 0 <= i <= L ->
            affine_layer (set_params P (set_model (Some t') s)) i a =
            Some (if i =? 0 then d
                  else if i <? L then _layer_dim s else _output_dim s,
                  if i <? L - 1 then _layer_dim s
                  else if i =? L - 1 then _output_dim s else m)).
  { intros i Hi. specialize (HP axis m i Ha Hmax Hi).
    apply (has_layer_affine (set_params P (set_model (Some t') s))) in HP.
    fold a in HP. rewrite HP. unfold in_width, out_width. cbv zeta.
    replace (Z.max (L - 1) 0) with (L - 1) by lia.
    reflexivity. }
  split; [|exact Hlayers].
  intro i. split.
  - intro Hne. destruct (Z_le_dec 0 i) as [H0|H0];
      [destruct (Z_le_dec i L) as [H1|H1]; [lia|]|]; exfalso; apply Hne;
      unfold affine_layer; simpl; rewrite HK, Hfresh; try reflexivity;
      intros ax j _ Hj; split; intro E; inversion E; lia.
  - intros Hi. rewrite (Hlayers i Hi). discriminate.
Qed.

(** With no hidden layer the only layer maps the input to [output_dim];
    the maximal label count of the axis is not used. *)
Lemma single_layer_shape s t d :
  model s = Some t ->
  _input_dim s = Some d ->
  (length (num_labels (base s)) <= length (max_num_labels s))%nat ->
  _layers s = 0 ->
  exists s',
    init_mlp_params s = Ok (tt, s') /\
    forall (axis : nat),
      (axis < length (num_labels (base s)))%nat ->
      affine_layer s' 0 (Z.of_nat axis) = Some (d, _output_dim s).
Proof.
  intros Hm Hd Hlen HL.
  destruct (init_mlp_params_spec s t d Hm Hd Hlen) as (P & t' & Hrun & HP & _).
  eexists. split; [exact Hrun|]. intros axis Ha.
  destruct (nth_error (max_num_labels s) axis) as [m|] eqn:E;
    [|apply nth_error_None in E; lia].
  specialize (HP axis m 0 Ha E ltac:(lia)).
  apply (has_layer_affine (set_params P (set_model (Some t') s))) in HP.
  rewrite HP, HL. reflexivity.
Qed.

(** *** [save_model] *)

#[local] Instance keeps_model_preorder : PreOrder keeps_model.
Proof. split; unfold keeps_model; [intros s H|intros s1 s2 s3 H1 H2 H]; auto. Qed.

#[local] Hint Extern 1 (keeps_model _ _) =>
  (unfold keeps_model; simpl; intros; first [assumption | discriminate])
  : frame.

Lemma init_cg_keeps_model : respects keeps_model init_cg.
Proof. unfold init_cg. frame. Qed.

Lemma init_model_keeps_model : respects keeps_model init_model.
Proof.
  intros s [] s' H _. apply init_model_ready in H. apply H.
Qed.

#[local] Hint Resolve init_cg_keeps_model init_model_keeps_model : frame.

Lemma finalize_model fe s s' :
  finalize fe s = Ok (tt, s') -> model s' <> None.
Proof.
  intro H. unfold finalize in H.
  apply bind_ok in H. destruct H as (x0 & s0 & H0 & H).
  apply bind_ok in H. destruct H as (m & s1 & H1 & H).
  inversion H1; subst m s1. clear H1.
  apply bind_ok in H. destruct H as (x2 & s2 & H2 & H).
  assert (M2 : model s2 <> None).
  { destruct (model s0) eqn:E.
    - inversion H2; subst. congruence.
    - destruct x2. apply init_model_ready in H2. apply H2. }
  revert H. match goal with |- ?m s2 = _ -> _ => assert (F : respects keeps_model m) end.
  { frame. }
  intro H. exact (F _ _ _ H M2).
Qed.

(** What [save_model] does once [finalize] and [save_extra] have returned,
    for every outcome of the two file operations. *)
Lemma save_model_after_flush s s1 extra :
  finalize false s = Ok (tt, s1) ->
  save_extra (base s1) = Ok extra ->
  save_model s =
  match os_remove (trace s1) (model_filename s1) with
  | Some (OSError _) | None =>
      match save_outcome s1 with
      | Some (ValueError _) | None =>
          Ok (dict_update String.eqb (descriptor s1) extra,
              set_trace (trace s1 ++ removal_events s1 ++ saving_events s1) s1)
      | Some e => Raise e
      end
  | Some e => Raise e
  end.
Proof.
  intros Hfin Hextra.
  pose proof (finalize_model _ _ _ Hfin) as Hm.
  unfold save_model. unfold bind at 1. rewrite Hfin. mrun. rewrite Hextra.
  unfold saving_events, save_outcome, removal_events, model_filename.
  destruct (os_remove (trace s1) (filename (base s1) ++ ".model")%string)
    as [e|] eqn:Er.
  - destruct e; try reflexivity. simpl.
    destruct (model s1) as [m|]; [|congruence]. simpl.
    destruct (model_save _ _ _) as [e|] eqn:Es.
    + destruct e; try reflexivity. simpl. rewrite <- ?app_assoc. reflexivity.
    + simpl. rewrite <- ?app_assoc. reflexivity.
  - simpl. destruct (model s1) as [m|]; [|congruence]. simpl.
    rewrite <- ?app_assoc. simpl.
    destruct (model_save _ _ _) as [e|] eqn:Es.
    + destruct e; try reflexivity. simpl. rewrite <- ?app_assoc. reflexivity.
    + simpl. rewrite <- ?app_assoc. reflexivity.
Qed.




(** *** The sign of the loss *)














(** C5, amended. One call of [update] queues exactly [int(importance)]
    repetitions of the loss term, the importance truncated toward zero, and
    none when that is not positive; the repetitions are copies of one and the
    same term. *)
Theorem update_appends s f axis pred true_ importance c :
  Args.dynet_viz args = false ->
  super_update (base s) f axis pred true_ importance = Ok c ->
  (0 < int importance ->
   exists e s1, evaluate f axis true (set_base c s) = Ok (e, s1)) ->
  exists s',
    update f axis pred true_ importance s = Ok (tt, s') /\
    len (_losses s') = len (_losses s) + Z.max 0 (int importance) /\
    exists e, _losses s' =
              _losses s ++ repeat (pick e true_) (Z.to_nat (int importance)).
Proof.
  intros Hviz Hsup Hev.
  destruct (update_spec f axis pred true_ importance s c Hviz Hsup)
    as [[Hle H]|[Hpos H]].
  - eexists. split; [exact H|]. simpl.
    replace (Z.to_nat (int importance)) with O by lia. simpl.
    rewrite app_nil_r. split; [lia|]. exists (inputVector []). reflexivity.
  - destruct (Hev Hpos) as (e & s1 & He).
    eexists. split; [exact (H e s1 He)|]. simpl. split; [|eauto].
    unfold len. rewrite length_app, repeat_length. lia.
Qed.

(** C3. For every feature dictionary and every valid axis, while the
    iteration counter is zero [score(features, axis)] returns a vector of
    zeros whose length is the current label count of the axis, whatever the
    features are. *)
Theorem score_before_training s f axis c n :
  _iteration s = 0 ->
  super_score (base s) f axis = Ok c ->
  py_index (num_labels c) axis = Ok n ->
  exists s',
    score f axis s = Ok (repeat 0%Q n, s') /\
    length (repeat 0%Q n) = n /\
    Forall (fun x => x = 0%Q) (repeat 0%Q n) /\
    num_labels (base s') = num_labels c.
Proof.
  intros Hit Hsup Hn.
  destruct (score_untrained s f axis c n Hit Hsup Hn)
    as (s' & H1 & H2 & H3 & H4 & _).
  exists s'. rewrite H4. auto.
Qed.

(** C10. [finalize] never modifies the score cache: with either value of
    [finished_epoch], a call that returns leaves [_value] exactly as it was,
    flush or no flush. Neither do [save_model], [score] and [update] drop a
    cached output. Only [finished_step], and [finished_item] through it,
    reset the cache to one empty slot per axis. *)
Theorem score_cache_frame :
  (forall s fe s', finalize fe s = Ok (tt, s') -> _value s' = _value s) /\
  (forall s s' d, save_model s = Ok (d, s') -> _value s' = _value s) /\
  (forall s f axis r s', score f axis s = Ok (r, s') -> cache_kept s s') /\
  (forall s f axis pred true_ importance s',
     update f axis pred true_ importance s = Ok (tt, s') -> cache_kept s s') /\
  (forall s train,
     finished_step train s =
     Ok (tt, set_value (repeat None (length (num_labels (base s)))) s)) /\
  (forall s train s',
     finished_item train s = Ok (tt, s') ->
     _value s' = repeat None (length (num_labels (base s')))).
Proof.
  repeat split.
  - intros s fe s' H. exact (finalize_value fe _ _ _ H).
  - intros s s' d H. exact (save_model_value _ _ _ H).
  - intros s f axis r s' H. exact (score_cache f axis _ _ _ H).
  - intros s f axis pred true_ importance s' H.
    exact (update_cache f axis pred true_ importance _ _ _ H).
  - intros s train s' H. exact (finished_item_clears train s s' H).
Qed.

(** ** Further properties of the methods *)

Lemma bind_eq {X Y} (m : M X) (k : X -> M Y) s x s1 :
  m s = Ok (x, s1) -> bind m k s = k x s1.
Proof. intro H. unfold bind. rewrite H. reflexivity. Qed.

(** *** [update] with graph visualisation switched on *)

(** X12. With [dynet_viz] set, a call of [update] whose importance truncates
    to at least one does not return: once the output of the axis has been
    evaluated, it ends the process with exit status 0. A call whose
    importance truncates to zero or less only runs the base class's
    [update]. *)
Theorem update_viz_exits s f axis pred true_ importance c :
  Args.dynet_viz args = true ->
  super_update (base s) f axis pred true_ importance = Ok c ->
  (int importance <= 0 ->
   update f axis pred true_ importance s = Ok (tt, set_base c s)) /\
  (0 < int importance ->
   forall e s1, evaluate f axis true (set_base c s) = Ok (e, s1) ->
     update f axis pred true_ importance s = Raise (SystemExit 0)).
Proof.
  intros Hviz Hsup. unfold update. split.
  - intro Hle. unfold range. replace (Z.to_nat (int importance)) with O by lia.
    mrun. rewrite Hsup. reflexivity.
  - intros Hpos e s1 He. unfold range.
    destruct (Z.to_nat (int importance)) as [|n] eqn:En; [lia|].
    cbn [seq map for_each]. rewrite Hviz.
    mrun. rewrite Hsup. cbn beta iota.
    unfold bind in He |- *. mrun_in He.
    rewrite He. reflexivity.
Qed.

(** *** [finished_item] below the minibatch size *)

(** X9. While fewer than [minibatch_size] loss terms are queued,
    [finished_item] does not flush: with [train=True] it changes nothing but
    the score cache, which it empties; with [train=False] it also renews the
    computation graph and rebuilds the vectors for missing values. In both
    cases the loss queue and the iteration counter stay as they are. *)
Theorem finished_item_keeps_queue s :
  len (_losses s) < _minibatch_size s ->
  dims_ok (_input_params s) ->
  finished_item true s
  = Ok (tt, set_value (repeat None (length (num_labels (base s)))) s) /\
  exists E,
    finished_item false s
    = Ok (tt, set_value (repeat None (length (num_labels (base s))))
                (set_empty_values E
                   (set_trace (trace s ++ [renew_cg]) s))).
Proof.
  intros Hlt Hd. unfold finished_item, finished_step.
  assert (Hb : (_minibatch_size s <=? len (_losses s)) = false)
    by (apply Z.leb_gt; exact Hlt).
  split.
  - mrun. rewrite Hb. reflexivity.
  - destruct (init_cg_spec s Hd) as (E & HE & _).
    exists E. mrun. rewrite Hb. cbn [negb]. rewrite HE. reflexivity.
Qed.

(** *** [finalize] with nothing queued *)

(** X10. On an object that has its model and trainer and an empty loss
    queue, [finalize] runs no forward or backward pass and no optimizer
    update, and leaves the iteration counter, the queue and the parameters
    alone: all it does is run the base class's [finalize], signal the end of
    the epoch to the trainer when [finished_epoch] is set, and ask for the
    trainer's status when the verbosity exceeds one. *)
Theorem finalize_without_losses fe s c :
  super_finalize (base s) = Ok c ->
  ready s ->
  _losses s = [] ->
  exists s',
    finalize fe s = Ok (tt, s') /\
    s' = set_trace (trace s ++ closing_events fe) (set_base c s) /\
    _iteration s' = _iteration s /\
    _params s' = _params s /\
    (forall e, ~ In (forward e) (closing_events fe) /\
               ~ In (backward e) (closing_events fe)) /\
    ~ In trainer_update (closing_events fe) /\
    (In trainer_update_epoch (closing_events fe) <-> fe = true) /\
    (In trainer_status (closing_events fe) <-> 1 < Args.verbose args).
Proof.
  intros Hsup Hr Hl. eexists. split; [exact (finalize_idle fe s c Hsup Hr Hl)|].
  split; [reflexivity|]. split; [reflexivity|]. split; [reflexivity|].
  unfold closing_events.
  destruct fe; destruct (Z.ltb_spec 1 (Args.verbose args)); simpl;
    repeat split; intuition (first [discriminate | lia | auto]).
Qed.

(** *** What scoring leaves alone *)

Lemma evaluate_iteration f axis train :
  respects (same _iteration) (evaluate f axis train).
Proof. unfold evaluate. frame. Qed.

(** X7. [score] never trains: whether it answers with zeros or evaluates the
    network, and even when it has to create the model on the way, it leaves
    the loss queue and the iteration counter exactly as they were. *)
Theorem score_never_trains s f axis r s' :
  score f axis s = Ok (r, s') ->
  _losses s' = _losses s /\ _iteration s' = _iteration s.
Proof.
  intro H. split.
  - assert (F : respects (same _losses) (score f axis)).
    { pose proof (evaluate_losses f axis false). unfold score. frame. }
    exact (F _ _ _ H).
  - assert (F : respects (same _iteration) (score f axis)).
    { pose proof (evaluate_iteration f axis false). unfold score. frame. }
    exact (F _ _ _ H).
Qed.

(** *** Repeated evaluation *)

(** X5. Once [evaluate] has returned the output of an axis, every further
    call for that axis returns the very same expression and changes nothing,
    whatever features and whatever [train] flag it is given: the cached
    output is served until the cache is cleared. *)
Theorem evaluate_again s f axis train e s' :
  evaluate f axis train s = Ok (e, s') ->
  forall f' train', evaluate f' axis train' s' = Ok (e, s').
Proof.
  intros H f' train'.
  destruct (evaluate_post f axis train s e s' H) as (Hm & _ & Hv).
  exact (evaluate_cached f' axis train' s' e Hm Hv).
Qed.

(** *** The network is created on demand *)

Lemma finalize_ready fe s s' :
  coherent s -> finalize fe s = Ok (tt, s') -> ready s'.
Proof.
  intros Hc H. unfold finalize in H.
  apply bind_ok in H. destruct H as (x0 & s0 & H0 & H).
  apply bind_ok in H. destruct H as (m & s1 & H1 & H).
  inversion H1; subst m s1. clear H1.
  apply bind_ok in H. destruct H as (x2 & s2 & H2 & H).
  assert (C0 : coherent s0).
  { unfold super in H0. mrun_in H0.
    destruct (super_finalize (base s)); [|discriminate].
    inversion H0; subst. exact Hc. }
  assert (R2 : ready s2).
  { destruct (model s0) eqn:E.
    - inversion H2; subst. split; [congruence|]. apply C0. congruence.
    - destruct x2. exact (init_model_ready _ _ H2). }
  revert H.
  match goal with
  | |- ?m s2 = _ -> _ => assert (F : respects stays_ready m)
  end.
  { frame. }
  intro H. exact (F _ _ _ H R2).
Qed.

(** X11. The model and its trainer are created on demand: on an object
    built without a model (or with its model and trainer), after [evaluate],
    [finalize] or [save_model] has returned, both exist. *)
Theorem network_created_on_demand s :
  coherent s ->
  (forall f axis train e s',
     evaluate f axis train s = Ok (e, s') -> ready s') /\
  (forall fe s', finalize fe s = Ok (tt, s') -> ready s') /\
  (forall d s', save_model s = Ok (d, s') -> ready s').
Proof.
  intro Hc. split; [|split].
  - intros f axis train e s' H.
    destruct (evaluate_post f axis train s e s' H) as (_ & Hr & _). auto.
  - intros fe s' H. exact (finalize_ready fe s s' Hc H).
  - intros d s' H. unfold save_model in H.
    apply bind_ok in H. destruct H as ([] & s1 & H1 & H).
    pose proof (finalize_ready false s s1 Hc H1) as R1.
    revert H.
    match goal with
    | |- ?m s1 = _ -> _ => assert (F : respects stays_ready m)
    end.
    { frame. }
    intro H. exact (F _ _ _ H R1).
Qed.

(** *** Scoring a trained network *)

(** X8. Once at least one optimizer step has been taken, [score] on an axis
    whose cache slot is empty evaluates the network in inference mode (the
    output of [evaluate_mlp] with [train=False]), stores that output in the
    cache slot, and returns the first [num_labels[axis]] entries of its
    value: never more scores than the axis has labels. *)
Theorem score_trained s f axis c e n :
  0 < _iteration s ->
  super_score (base s) f axis = Ok c ->
  model s <> None ->
  py_index (_value s) axis = Ok None ->
  evaluate_mlp (set_base c s) f axis false = Ok e ->
  py_index (num_labels c) axis = Ok n ->
  exists s1,
    score f axis s = Ok (firstn n (npvalue (trace s) e), s1) /\
    (length (firstn n (npvalue (trace s) e)) <= n)%nat /\
    py_index (_value s1) axis = Ok (Some e) /\
    _losses s1 = _losses s /\ _iteration s1 = _iteration s.
Proof.
  intros Hit Hsup Hm Hv He Hn.
  destruct (py_index_pos _ _ _ Hv) as (k & Hk & Hnth).
  set (s0 := set_base c s) in *.
  set (s1 := set_value (list_set (_value s) k (Some e)) s0).
  assert (Hev : evaluate f axis false s0 = Ok (e, s1)).
  { unfold evaluate.
    rewrite (bind_eq (gets model) _ s0 (model s) s0 eq_refl).
    destruct (model s) as [t|]; [|congruence].
    rewrite (bind_eq (ret tt) _ s0 tt s0 eq_refl).
    rewrite (bind_eq (reads (fun s => py_index (_value s) axis)) _
               s0 None s0)
      by (unfold reads, lift; change (_value s0) with (_value s);
          rewrite Hv; reflexivity).
    rewrite (bind_eq (reads (fun s => evaluate_mlp s f axis false)) _
               s0 e s0)
      by (unfold reads, lift; rewrite He; reflexivity).
    rewrite (bind_eq (reads (fun s => py_setitem (_value s) axis (Some e))) _
               s0 (list_set (_value s) k (Some e)) s0)
      by (unfold reads, lift, py_setitem; change (_value s0) with (_value s);
          rewrite Hk; reflexivity).
    rewrite (bind_eq (modify (set_value (list_set (_value s) k (Some e)))) _
               s0 tt s1 eq_refl).
    reflexivity. }
  exists s1.
  split; [|split; [apply firstn_le_length|split; [|split; reflexivity]]].
  - unfold score.
    rewrite (bind_eq (super (fun c0 => super_score c0 f axis)) _ s tt s0)
      by (unfold super; mrun; rewrite Hsup; reflexivity).
    rewrite (bind_eq (gets _iteration) _ s0 (_iteration s) s0 eq_refl).
    destruct (Z.ltb_spec 0 (_iteration s)); [|lia].
    rewrite (bind_eq _ _ s0 e s1 Hev).
    rewrite (bind_eq (gets (fun s => npvalue (trace s) e)) _
               s1 (npvalue (trace s) e) s1 eq_refl).
    rewrite (bind_eq (reads (fun s => py_index (num_labels (base s)) axis)) _
               s1 n s1)
      by (unfold reads, lift; change (base s1) with c; rewrite Hn;
          reflexivity).
    reflexivity.
  - apply (py_index_list_set _ _ _ _ None Hk Hnth).
Qed.

(** *** Feature types the network does not know *)

Lemma scan_inputs_declared s items indices r :
  scan_inputs s items indices = Ok r ->
  forall k, In k (keys items) ->
    dict_get String.eqb (_input_params s) k <> None.
Proof.
  revert indices r.
  induction items as [|[k0 vals] items IH]; intros indices r H k Hk.
  - destruct Hk.
  - cbn [scan_inputs] in H. unfold input_param, from_option in H.
    destruct (dict_get String.eqb (_input_params s) k0) as [p|] eqn:Ep;
      [|discriminate].
    cbn [rbind] in H.
    simpl in Hk. destruct Hk as [<-|Hk]; [congruence|].
    destruct (FeatureParam.numeric p).
    + destruct (scan_inputs s items indices) as [r'|] eqn:E; [|discriminate].
      exact (IH _ _ E k Hk).
    + destruct (negb (FeatureParam.dim p =? 0)).
      * destruct (FeatureParam.indexed p).
        -- exact (IH _ _ H k Hk).
        -- destruct (rmap (lookup_value s k0) vals); [|discriminate].
           cbn [rbind] in H.
           destruct (scan_inputs s items indices) as [r'|] eqn:E;
             [|discriminate].
           exact (IH _ _ E k Hk).
      * exact (IH _ _ H k Hk).
Qed.

(** X13. The input assembler never accepts a feature type it was not
    configured with: whenever [generate_inputs] returns, every key of the
    feature dictionary is a declared feature type; a dictionary with an
    undeclared key makes it raise. *)
Theorem undeclared_feature_rejected s f k :
  In k (keys f) ->
  dict_get String.eqb (_input_params s) k = None ->
  exists e, generate_inputs s f = Raise e.
Proof.
  intros Hk Hnone.
  destruct (generate_inputs s f) as [ys|e] eqn:E; [|eauto].
  exfalso. unfold generate_inputs in E.
  destruct (scan_inputs s (sorted_items f) []) as [r|] eqn:Es; [|discriminate].
  apply (scan_inputs_declared _ _ _ _ Es k); [|exact Hnone].
  unfold keys in *. apply in_map_iff in Hk. destruct Hk as ([k' v] & <- & Hin).
  apply in_map_iff. exists (k', v). split; [reflexivity|].
  apply sorted_items_In. exact Hin.
Qed.

(** *** Numeric features *)

Lemma scan_inputs_numeric s items :
  (forall k vals, In (k, vals) items ->
     exists p, dict_get String.eqb (_input_params s) k = Some p /\
               FeatureParam.numeric p = true) ->
  scan_inputs s items []
  = Ok (map (fun kv => inputVector (map to_float (snd kv))) items, []).
Proof.
  induction items as [|[k vals] items IH]; intro H.
  - reflexivity.
  - cbn [scan_inputs]. unfold input_param, from_option.
    destruct (H k vals (or_introl eq_refl)) as (p & Hp & Hn).
    rewrite Hp. cbn [rbind]. rewrite Hn.
    rewrite IH by (intros k' vals' Hin; apply (H k' vals'); now right).
    reflexivity.
Qed.

(** X14. Numeric feature values are passed to the network as they are, one
    input vector per feature type in sorted order of the suffixes, with
    integers converted to numbers; the assembler does not check how many
    values a numeric feature type comes with. *)
Theorem numeric_features_pass_through s f :
  (forall k vals, In (k, vals) f ->
     exists p, dict_get String.eqb (_input_params s) k = Some p /\
               FeatureParam.numeric p = true) ->
  generate_inputs s f
  = Ok (map (fun kv => inputVector (map to_float (snd kv))) (sorted_items f)).
Proof.
  intro H. unfold generate_inputs.
  rewrite scan_inputs_numeric; [reflexivity|].
  intros k vals Hin. apply (H k vals).
  apply (proj1 (sorted_items_In _ _)). exact Hin.
Qed.

(** *** Missing values *)

(** X15. After [init_model], looking up the missing-value marker in a lookup
    feature type gives the zero vector of the feature's dimension, and
    looking up an id of the table, from [0] to [size - 1], gives the row of
    that id in the feature's own lookup table, of shape [(size, dim)]. *)
Theorem missing_value_zero_vector s0 s k p :
  init_model s0 = Ok (tt, s) ->
  NoDup (keys (_input_params s0)) ->
  dims_ok (_input_params s0) ->
  In (k, p) (_input_params s0) ->
  is_lookup p ->
  lookup_value s k (Int MISSING_VALUE)
  = Ok (inputVector (py_repeat (FeatureParam.dim p) 0%Q)) /\
  exists T,
    is_table_of p T /\
    forall z, 0 <= z < FeatureParam.size p -> z <> MISSING_VALUE ->
      lookup_value s k (Int z) = Ok (lookup T (Int z)).
Proof.
  intros Hinit Hnd Hd Hin Hl.
  destruct (init_model_assembler s0 s Hnd Hd Hinit) as (Hip & _ & _ & Htab & Hev).
  rewrite Hip in Htab, Hev.
  split.
  - unfold lookup_value. cbn [value_eqb]. rewrite Z.eqb_refl.
    rewrite (Hev k p Hin Hl). reflexivity.
  - destruct (Htab k p Hin Hl) as (T & HT & Htable).
    exists T. split; [exact Htable|]. intros z _ Hz.
    unfold lookup_value. cbn [value_eqb].
    destruct (Z.eqb_spec z MISSING_VALUE); [contradiction|].
    unfold params_get, from_option. rewrite HT. reflexivity.
Qed.

(** *** A network without hidden layers *)

(** X16. With [layers = 0], [init_mlp_params] allocates for every axis one
    affine layer that maps the total input width to [output_dim]: the
    maximal label count of the axis plays no part in its shape. *)
Theorem no_hidden_layer s t d :
  model s = Some t ->
  _input_dim s = Some d ->
  (length (num_labels (base s)) <= length (max_num_labels s))%nat ->
  _layers s = 0 ->
  exists s',
    init_mlp_params s = Ok (tt, s') /\
    forall (axis : nat),
      (axis < length (num_labels (base s)))%nat ->
      affine_layer s' 0 (Z.of_nat axis) = Some (d, _output_dim s).
Proof. exact (single_layer_shape s t d). Qed.

(** *** Axes the capacity check does not reach *)

Lemma resize_loop_skip (ps : list (nat * Z)) a (k : nat) s :
  (forall j, (k <= j < k + length ps)%nat -> Z.of_nat j <> a) ->
  for_each (combine (map Z.of_nat (seq k (length ps))) ps)
    (fun '(i, (l, m)) => check_axis (Some a) i l m) s = Ok (tt, s).
Proof.
  revert k. induction ps as [|[l m] ps IH]; intros k H; simpl.
  - reflexivity.
  - unfold bind. rewrite check_axis_cases.
    destruct (Z.eqb_spec (Z.of_nat k) a) as [E|_].
    + exfalso. apply (H k); [simpl; lia|exact E].
    + apply IH. intros j Hj. apply H. simpl. lia.
Qed.

(** X17. [resize] checks only the axes that have both a current and a
    maximal label count, and an axis number is never counted from the end:
    called for a negative axis, or for one beyond the shorter of the two
    lists, it passes without checking anything. Called for all axes, it
    passes exactly when every such axis is within its maximum. *)
Theorem resize_reach s :
  (forall axis,
     axis < 0 \/
     len (zip (num_labels (base s)) (max_num_labels s)) <= axis ->
     resize (Some axis) s = Ok (tt, s)) /\
  (resize None s = Ok (tt, s) <->
   forall l m, In (l, m) (zip (num_labels (base s)) (max_num_labels s)) ->
               Z.of_nat l <= m).
Proof.
  split.
  - intros axis Ha. unfold resize. mrun. unfold enumerate, range, len in *.
    rewrite Nat2Z.id. apply resize_loop_skip. intros j Hj. lia.
  - split.
    + intros Hok l m Hin. destruct (Z_le_gt_dec (Z.of_nat l) m) as [|Hgt]; [assumption|].
      destruct (resize_all_raises s l m Hin ltac:(lia)) as (i & l' & m' & Hr & _).
      congruence.
    + apply resize_all_pass.
Qed.

(** *** [init_model] succeeds *)

Lemma init_input_param_runs k p s :
  allocating s ->
  exists s', init_input_param k p s = Ok (tt, s') /\ allocating s'.
Proof.
  intros (Hm & Hd & Hi & Hn).
  destruct (model s) as [t|] eqn:Em; [|congruence].
  destruct (_input_dim s) as [d|] eqn:Ed; [|congruence].
  destruct (_indexed_dim s) as [i|] eqn:Ei; [|congruence].
  destruct (_indexed_num s) as [n|] eqn:En; [|congruence].
  unfold init_input_param, add_lookup_parameters, params_set. mrun.
  destruct (FeatureParam.dim p =? 0); cbn [negb].
  - eexists. split; [reflexivity|]. unfold allocating.
    rewrite Em, Ed, Ei, En. repeat split; discriminate.
  - destruct (FeatureParam.numeric p); cbn [negb];
      destruct (FeatureParam.indexed p);
      repeat (progress (simpl; rewrite ?Em, ?Ed, ?Ei, ?En));
      (eexists; split; [reflexivity|]);
      unfold allocating; simpl; rewrite ?Em, ?Ed, ?Ei, ?En;
      repeat split; discriminate.
Qed.

Lemma init_input_params_runs s :
  model s <> None ->
  exists s', init_input_params s = Ok (tt, s') /\ allocating s'.
Proof.
  intro Hm. unfold init_input_params.
  set (s1 := set_indexed_num (Some 0)
               (set_indexed_dim (Some 0) (set_input_dim (Some 0) s))).
  assert (A1 : allocating s1)
    by (unfold allocating; simpl; repeat split; (assumption || discriminate)).
  destruct (for_each_inv (fun _ => allocating)
              (fun '(suffix, param) => init_input_param suffix param)
              (sorted_items (_input_params s1))) with (s := s1)
    as (s2 & H2 & A2).
  { intros done [k p] s0 A0 _. apply init_input_param_runs. exact A0. }
  { exact A1. }
  destruct A2 as (Hm2 & Hd2 & Hi2 & Hn2).
  destruct (_input_dim s2) as [d|] eqn:Ed; [|congruence].
  destruct (_indexed_dim s2) as [i|] eqn:Ei; [|congruence].
  destruct (_indexed_num s2) as [n|] eqn:En; [|congruence].
  rewrite (bind_eq _ _ s tt (set_input_dim (Some 0) s) eq_refl).
  rewrite (bind_eq _ _ _ tt
             (set_indexed_dim (Some 0) (set_input_dim (Some 0) s)) eq_refl).
  rewrite (bind_eq _ _ _ tt s1 eq_refl).
  rewrite (bind_eq _ _ s1 (sorted_items (_input_params s1)) s1 eq_refl).
  rewrite (bind_eq _ _ s1 tt s2 H2).
  unfold init_indexed_input_params. mrun. rewrite Ed, Ei, En. cbn beta iota.
  eexists. split; [reflexivity|].
  unfold allocating. simpl. rewrite Ei, En.
  repeat split; (assumption || discriminate).
Qed.

(** X3. [init_model] succeeds whenever no lookup feature type has a negative
    dimension and there are no more label axes than entries of
    [max_num_labels]: it returns, the model and its trainer exist
    afterwards, and the loss queue, the iteration counter, the score cache
    and the feature configuration are as before. *)
Theorem init_model_succeeds s :
  dims_ok (_input_params s) ->
  (length (num_labels (base s)) <= length (max_num_labels s))%nat ->
  exists s',
    init_model s = Ok (tt, s') /\
    ready s' /\
    _losses s' = _losses s /\
    _iteration s' = _iteration s /\
    _value s' = _value s /\
    _input_params s' = _input_params s.
Proof.
  intros Hd Hlen.
  set (q := fun s : @NeuralNetwork B =>
              (_losses s, _iteration s, _value s, _input_params s,
               base s, max_num_labels s)).
  assert (F : respects (same q) init_model).
  { apply init_model_respects; auto with frame typeclass_instances. }
  assert (Frame : forall s', init_model s = Ok (tt, s') ->
            ready s' /\ _losses s' = _losses s /\
            _iteration s' = _iteration s /\ _value s' = _value s /\
            _input_params s' = _input_params s).
  { intros s' H. split; [exact (init_model_ready _ _ H)|].
    apply F in H. unfold same, q in H. inversion H. auto. }
  cut (exists s', init_model s = Ok (tt, s')).
  { intros (s' & H). exists s'. split; [exact H|]. exact (Frame s' H). }
  clear F Frame. unfold init_model.
  set (s1 := set_model (Some []) s).
  set (s3 := set_trainer (Some (_optimizer s1)) s1).
  rewrite (bind_eq (modify (set_model (Some []))) _ s tt s1 eq_refl).
  rewrite (bind_eq (gets _optimizer) _ s1 (_optimizer s1) s1 eq_refl).
  rewrite (bind_eq (modify (set_trainer (Some (_optimizer s1)))) _
             s1 tt s3 eq_refl).
  destruct (init_input_params_runs s3) as (s4 & H4 & A4);
    [simpl; discriminate|].
  rewrite (bind_eq _ _ s3 tt s4 H4).
  assert (F4 : same q s3 s4).
  { eapply init_input_params_respects; [| |exact H4];
      auto with frame typeclass_instances. }
  unfold same, q in F4. simpl in F4. inversion F4 as [[E1 E2 E3 E4 E5 E6]].
  destruct A4 as (Hm4 & Hd4 & _ & _).
  destruct (model s4) as [t|] eqn:Em; [|congruence].
  destruct (_input_dim s4) as [d|] eqn:Ed; [|congruence].
  destruct (init_mlp_params_spec s4 t d Em Ed) as (P & t' & H5 & _);
    [rewrite E5, E6; exact Hlen|].
  rewrite (bind_eq _ _ s4 tt _ H5).
  destruct (init_cg_spec (set_params P (set_model (Some t') s4)))
    as (E & HE & _); [simpl; rewrite E4; exact Hd|].
  eexists. exact HE.
Qed.

(** *** The input width [init_model] arrives at *)

Lemma fold_step_input_dim_sum l a :
  fold_left step_input_dim l a = a + zsum plain_width l.
Proof.
  revert a. induction l as [|kv l IH]; intro a; cbn [fold_left].
  - unfold zsum. simpl. lia.
  - rewrite IH. unfold zsum. cbn [fold_right]. fold (zsum plain_width l).
    unfold step_input_dim, plain_width. cbv zeta.
    destruct (counted (snd kv) && negb (FeatureParam.indexed (snd kv))); lia.
Qed.

Lemma fold_step_indexed_dim_sum l a :
  fold_left step_indexed_dim l a = a + zsum indexed_width l.
Proof.
  revert a. induction l as [|kv l IH]; intro a; cbn [fold_left].
  - unfold zsum. simpl. lia.
  - rewrite IH. unfold zsum. cbn [fold_right]. fold (zsum indexed_width l).
    unfold step_indexed_dim, indexed_width. cbv zeta.
    destruct (counted (snd kv) && FeatureParam.indexed (snd kv)); lia.
Qed.

(** X2. After [init_model], the input width is the sum of [num * dim] over
    the feature types that are not indexed, plus the width of one indexed
    position (the sum of [dim] over the indexed feature types) times the
    number of indexed positions (the largest [num] among them); feature
    types of dimension zero count for nothing. *)
Theorem input_width_allocated s0 s :
  init_model s0 = Ok (tt, s) ->
  NoDup (keys (_input_params s0)) ->
  let ip := _input_params s0 in
  _indexed_dim s = Some (zsum indexed_width ip) /\
  _indexed_num s = Some (declared_indexed_num ip) /\
  _input_dim s
  = Some (zsum plain_width ip
          + zsum indexed_width ip * declared_indexed_num ip).
Proof.
  intros H Hnd ip. unfold init_model in H.
  apply bind_ok in H. destruct H as ([] & s1 & H1 & H). inversion H1; subst s1.
  apply bind_ok in H. destruct H as (o & s2 & H2 & H). inversion H2; subst o s2.
  apply bind_ok in H. destruct H as ([] & s3 & H3 & H). inversion H3; subst s3.
  clear H1 H2 H3.
  apply bind_ok in H. destruct H as ([] & s4 & H4 & H).
  apply bind_ok in H. destruct H as ([] & s5 & H5 & H).
  apply init_input_params_post in H4; [|exact Hnd]. simpl in H4.
  destruct H4 as (Hdim & Hidim & Hnum & _).
  apply init_mlp_params_tables in H5. destruct H5 as (_ & K2 & K3 & K4 & _).
  apply init_cg_tables in H. destruct H as (_ & L2 & L3 & L4 & _).
  rewrite L2, L3, L4, K2, K3, K4, Hdim, Hidim, Hnum.
  fold ip. unfold declared_input_dim, declared_indexed_dim.
  rewrite fold_step_input_dim_sum, fold_step_indexed_dim_sum.
  rewrite (zsum_perm plain_width _ _ (sorted_items_perm ip)).
  rewrite (zsum_perm indexed_width _ _ (sorted_items_perm ip)).
  repeat split; f_equal; lia.
Qed.

(** *** More label axes than maxima *)

Lemma for_each_raises {A} (I : @NeuralNetwork B -> Prop) (body : A -> M unit)
    l1 x l2 e :
  (forall y s, In y l1 -> I s -> exists s', body y s = Ok (tt, s') /\ I s') ->
  (forall s, I s -> body x s = Raise e) ->
  forall s, I s -> for_each (l1 ++ x :: l2) body s = Raise e.
Proof.
  intros Hok Hx. induction l1 as [|y l1 IH]; intros s Hs.
  - cbn [app for_each]. unfold bind. rewrite (Hx s Hs). reflexivity.
  - cbn [app for_each].
    destruct (Hok y s (or_introl eq_refl) Hs) as (s' & Hy & Hs').
    rewrite (bind_eq _ _ s tt s' Hy).
    apply IH; [|exact Hs'].
    intros z s0 Hz. apply Hok. now right.
Qed.

Lemma range_split (n k : nat) :
  (k < n)%nat ->
  range (Z.of_nat n)
  = map Z.of_nat (seq 0 k) ++ Z.of_nat k :: map Z.of_nat (seq (S k) (n - S k)).
Proof.
  intro H. unfold range. rewrite Nat2Z.id.
  replace n with (k + S (n - S k))%nat at 1 by lia.
  rewrite seq_app, map_app. reflexivity.
Qed.

(** X4. [init_model] needs a maximal label count for every label axis: when
    the base class reports more axes than [max_num_labels] has entries, it
    raises [IndexError] (from [self.max_num_labels[axis]]) and no model
    results. *)
Theorem init_model_too_many_axes s :
  (length (max_num_labels s) < length (num_labels (base s)))%nat ->
  init_model s = Raise IndexError.
Proof.
  intro Hlen. unfold init_model.
  set (s1 := set_model (Some []) s).
  set (s3 := set_trainer (Some (_optimizer s1)) s1).
  rewrite (bind_eq (modify (set_model (Some []))) _ s tt s1 eq_refl).
  rewrite (bind_eq (gets _optimizer) _ s1 (_optimizer s1) s1 eq_refl).
  rewrite (bind_eq (modify (set_trainer (Some (_optimizer s1)))) _
             s1 tt s3 eq_refl).
  destruct (init_input_params_runs s3) as (s4 & H4 & A4);
    [simpl; discriminate|].
  rewrite (bind_eq _ _ s3 tt s4 H4).
  set (q := fun s : @NeuralNetwork B => (base s, max_num_labels s)).
  assert (F4 : same q s3 s4).
  { eapply init_input_params_respects; [| |exact H4];
      auto with frame typeclass_instances. }
  unfold same, q in F4. simpl in F4. inversion F4 as [[E1 E2]].
  destruct A4 as (Hm4 & Hd4 & _ & _).
  set (ms := max_num_labels s) in *.
  set (I := fun s0 : @NeuralNetwork B =>
              model s0 <> None /\ _input_dim s0 <> None /\
              max_num_labels s0 = ms).
  assert (Hloop : init_mlp_params s4 = Raise IndexError).
  { unfold init_mlp_params.
    rewrite (bind_eq (gets (fun s => len (num_labels (base s)))) _ s4
               (len (num_labels (base s4))) s4 eq_refl).
    rewrite E1. unfold len at 1.
    rewrite (range_split _ (length ms) Hlen).
    apply (for_each_raises I).
    - intros y s0 Hy (Im & Id & Ims).
      apply in_map_iff in Hy. destruct Hy as (j & <- & Hj). apply in_seq in Hj.
      destruct (model s0) as [t|] eqn:Em; [|congruence].
      destruct (_input_dim s0) as [d|] eqn:Ed; [|congruence].
      destruct (py_index_nat ms j) as (m & Hm & _); [lia|].
      destruct (init_mlp_axis_spec (Z.of_nat j) s0 t d m Em Ed)
        as (P & t' & Hrun & _); [rewrite Ims; exact Hm|].
      eexists. split; [exact Hrun|].
      unfold I. simpl. rewrite Ed.
      repeat split; (assumption || discriminate).
    - intros s0 (Im & Id & Ims).
      destruct (_input_dim s0) as [d|] eqn:Ed; [|congruence].
      unfold init_mlp_axis. mrun. rewrite Ed. cbn beta iota. rewrite Ims.
      unfold py_index, py_pos, len.
      destruct (Z.ltb_spec (Z.of_nat (length ms)) (Z.of_nat (length ms)));
        [lia|].
      destruct (Z.ltb_spec (Z.of_nat (length ms)) 0); [lia|].
      rewrite andb_false_r. reflexivity.
    - unfold I. rewrite E2. auto. }
  unfold bind at 1. rewrite Hloop. reflexivity.
Qed.

(** *** Dropout *)

Lemma mlp_layers_dropouts s axis train idx x e :
  mlp_layers s axis train idx x = Ok e ->
  dropouts e
  = (dropouts x + if dropping s train then length idx else 0)%nat.
Proof.
  revert x. induction idx as [|i idx IH]; intros x H.
  - cbn [mlp_layers] in H. inversion H; subst.
    destruct (dropping s train); simpl; lia.
  - cbn [mlp_layers] in H.
    destruct (params_get s (Triple role_W i axis)) as [w|]; [|discriminate].
    destruct (params_get s (Triple role_b i axis)) as [c|]; [|discriminate].
    cbn [rbind] in H. apply IH in H. rewrite H. fold (dropping s train).
    destruct (dropping s train); simpl; lia.
Qed.

Lemma mlp_layers_well_placed s axis train idx x e :
  well_placed x = true ->
  mlp_layers s axis train idx x = Ok e ->
  well_placed e = true.
Proof.
  revert x. induction idx as [|i idx IH]; intros x Hx H.
  - cbn [mlp_layers] in H. inversion H; subst. exact Hx.
  - cbn [mlp_layers] in H.
    destruct (params_get s (Triple role_W i axis)) as [w|]; [|discriminate].
    destruct (params_get s (Triple role_b i axis)) as [c|]; [|discriminate].
    cbn [rbind] in H. apply IH in H; [exact H|].
    destruct (train && negb (Qeq_bool (_dropout s) 0)).
    + cbn [well_placed]. rewrite Hx. reflexivity.
    + cbn [well_placed].
      destruct x; cbn [well_placed andb] in *;
        try rewrite Hx; try reflexivity; discriminate.
Qed.

Lemma lookup_values_plain s k vals es :
  (forall k v, dict_get String.eqb (_empty_values s) k = Some v -> plain v) ->
  rmap (lookup_value s k) vals = Ok es ->
  plain (concatenate es).
Proof.
  intro Hev. revert es. induction vals as [|x vals IH]; intros es H.
  - inversion H; subst. split; reflexivity.
  - cbn [rmap] in H.
    destruct (lookup_value s k x) as [e|] eqn:Ex; [|discriminate].
    cbn [rbind] in H.
    destruct (rmap (lookup_value s k) vals) as [es'|]; [|discriminate].
    inversion H; subst.
    destruct (IH es' eq_refl) as [IH1 IH2].
    cbn [dropouts well_placed] in IH1, IH2.
    assert (He : plain e).
    { unfold lookup_value in Ex.
      destruct (value_eqb x MISSING_VALUE).
      - unfold from_option in Ex.
        destruct (dict_get String.eqb (_empty_values s) k) as [v|] eqn:Ev;
          [|discriminate].
        inversion Ex; subst. exact (Hev k e Ev).
      - destruct (params_get s (Suffix k)); [|discriminate].
        inversion Ex; subst. split; reflexivity. }
    destruct He as [He1 He2].
    split; cbn [dropouts well_placed fold_right forallb].
    + rewrite He1, IH1. reflexivity.
    + rewrite He2, IH2. reflexivity.
Qed.

Lemma scan_inputs_plain s items indices ys indices' :
  (forall k v, dict_get String.eqb (_empty_values s) k = Some v -> plain v) ->
  scan_inputs s items indices = Ok (ys, indices') ->
  plain (concatenate ys).
Proof.
  intro Hev. revert indices ys indices'.
  induction items as [|[k vals] items IH]; intros indices ys indices' H.
  - inversion H; subst. split; reflexivity.
  - cbn [scan_inputs] in H.
    destruct (input_param s k) as [p|]; [|discriminate]. cbn [rbind] in H.
    destruct (FeatureParam.numeric p).
    + destruct (scan_inputs s items indices) as [[ys' i']|] eqn:E;
        [|discriminate].
      inversion H; subst.
      destruct (IH _ _ _ E) as [IH1 IH2].
      cbn [dropouts well_placed] in IH1, IH2.
      split; cbn [dropouts well_placed fold_right forallb fst].
      * rewrite IH1. reflexivity.
      * rewrite IH2. reflexivity.
    + destruct (negb (FeatureParam.dim p =? 0)).
      * destruct (FeatureParam.indexed p).
        -- exact (IH _ _ _ H).
        -- destruct (rmap (lookup_value s k) vals) as [es|] eqn:Er;
             [|discriminate].
           cbn [rbind] in H.
           destruct (scan_inputs s items indices) as [[ys' i']|] eqn:E;
             [|discriminate].
           inversion H; subst.
           destruct (IH _ _ _ E) as [IH1 IH2].
           destruct (lookup_values_plain s k vals es Hev Er) as [L1 L2].
           cbn [dropouts well_placed] in IH1, IH2, L1, L2.
           split; cbn [dropouts well_placed fold_right forallb fst].
           ++ rewrite L1, IH1. reflexivity.
           ++ rewrite L2, IH2. reflexivity.
      * exact (IH _ _ _ H).
Qed.

(** X6. Dropout is applied to the input of every layer, and only in
    training: when the vectors for missing values hold no dropout (as after
    [init_cg]), the output of [evaluate_mlp] has exactly [layers + 1]
    dropout nodes if [train] is set and the dropout rate is not zero, and
    none at all otherwise; and each of its dropout nodes is the operand of
    the multiplication by a parameter tensor, never the output passed to the
    log-softmax. *)
Theorem dropout_per_layer s f axis train e :
  (forall k v, dict_get String.eqb (_empty_values s) k = Some v -> plain v) ->
  evaluate_mlp s f axis train = Ok e ->
  dropouts e
  = (if train && negb (Qeq_bool (_dropout s) 0)
     then Z.to_nat (_layers s + 1) else 0%nat) /\
  well_placed e = true.
Proof.
  intros Hev H. unfold evaluate_mlp in H.
  destruct (generate_inputs s f) as [ys|] eqn:Eg; [|discriminate].
  cbn [rbind] in H.
  destruct (mlp_layers s axis train (range (_layers s + 1)) (concatenate ys))
    as [x|] eqn:Em; [|discriminate].
  cbn [rbind] in H.
  destruct (py_index (num_labels (base s)) axis) as [n|]; [|discriminate].
  inversion H; subst. cbn [dropouts well_placed].
  assert (Hys : plain (concatenate ys)).
  { unfold generate_inputs in Eg.
    destruct (scan_inputs s (sorted_items f) []) as [[ys' ind]|] eqn:Es;
      [|discriminate].
    cbn [rbind] in Eg.
    destruct ind as [|i ind].
    - inversion Eg; subst. exact (scan_inputs_plain _ _ _ _ _ Hev Es).
    - destruct (_indexed_num s); [|discriminate].
      destruct (len (i :: ind) =? z); discriminate. }
  destruct Hys as [Hy1 Hy2]. split.
  - rewrite (mlp_layers_dropouts _ _ _ _ _ _ Em), length_range.
    fold (dropping s train). rewrite Hy1. reflexivity.
  - exact (mlp_layers_well_placed _ _ _ _ _ _ Hy2 Em).
Qed.

(** *** Construction *)

(** X1. Constructing the classifier looks up the configured activation,
    initializer and optimizer by name, in this order, and raises [KeyError]
    for the first name that is not known. When all three are known it
    returns an untrained object: iteration counter zero, empty loss queue,
    no parameters, no trainer, and one empty cache slot per label axis. *)
Theorem construction base0 model0 input_params max_num_labels0 :
  match ACTIVATIONS (Args.activation args),
        INITIALIZERS (Args.init args),
        TRAINERS (Args.optimizer args) with
  | None, _, _ =>
      __init__ base0 model0 input_params max_num_labels0
      = Raise (KeyError (Suffix (Args.activation args)))
  | Some _, None, _ =>
      __init__ base0 model0 input_params max_num_labels0
      = Raise (KeyError (Suffix (Args.init args)))
  | Some _, Some _, None =>
      __init__ base0 model0 input_params max_num_labels0
      = Raise (KeyError (Suffix (Args.optimizer args)))
  | Some a, Some i, Some o =>
      exists s,
        __init__ base0 model0 input_params max_num_labels0 = Ok s /\
        _activation s = a /\ _init s = i /\ _optimizer s = o /\
        _iteration s = 0 /\ _losses s = [] /\ _params s = [] /\
        _trainer s = None /\ model s = model0 /\
        _input_params s = input_params /\
        max_num_labels s = max_num_labels0 /\
        _value s = repeat None (length (num_labels base0))
  end.
Proof.
  unfold __init__.
  destruct (ACTIVATIONS (Args.activation args)); [|reflexivity].
  destruct (INITIALIZERS (Args.init args)); [|reflexivity].
  destruct (TRAINERS (Args.optimizer args)); [|reflexivity].
  simpl. eexists. split; [reflexivity|]. simpl. repeat split.
Qed.

(** *** Removing the old artifact *)

(** X18. In [save_model], only an [OSError] from removing the old artifact
    is ignored: any other exception raised by the removal is raised to the
    caller. When [save_model] returns, the tensors were written exactly when
    [self.model.save] returned without raising. *)
Theorem save_model_removal s s1 extra :
  finalize false s = Ok (tt, s1) ->
  save_extra (base s1) = Ok extra ->
  (forall e, os_remove (trace s1) (model_filename s1) = Some e ->
             (forall msg, e <> OSError msg) ->
             save_model s = Raise e) /\
  (forall d s', save_model s = Ok (d, s') ->
     trace s' = trace s1 ++ removal_events s1 ++ saving_events s1 /\
     (In (model_saved (model_filename s1) (values (_params s1)))
         (removal_events s1 ++ saving_events s1)
      <-> save_outcome s1 = None)).
Proof.
  intros Hfin Hextra.
  rewrite (save_model_after_flush s s1 extra Hfin Hextra).
  split.
  - intros e He Hne. rewrite He.
    destruct e; try reflexivity. exfalso. exact (Hne _ eq_refl).
  - intros d s' H.
    assert (Hs' : s' = set_trace (trace s1 ++ removal_events s1
                                    ++ saving_events s1) s1).
    { destruct (os_remove (trace s1) (model_filename s1)) as [e|];
        [destruct e; try discriminate|];
        (destruct (save_outcome s1) as [e'|];
           [destruct e'; try discriminate|]);
        inversion H; reflexivity. }
    subst s'. split; [reflexivity|].
    unfold removal_events, saving_events.
    destruct (os_remove (trace s1) (model_filename s1)) as [e|];
      destruct (save_outcome s1) as [e'|]; simpl;
      split; intro K; try discriminate; try reflexivity;
      intuition discriminate.
Qed.

(** *** The axis given to [score] *)

(** X19. Before the first optimizer step, [score] reads the label count of
    the axis as a Python list index: an axis outside
    [-len(num_labels) .. len(num_labels) - 1] raises [IndexError], and a
    negative axis within that range is counted from the last axis. *)
Theorem score_axis_index s f axis c :
  _iteration s = 0 ->
  super_score (base s) f axis = Ok c ->
  (axis < - len (num_labels c) \/ len (num_labels c) <= axis ->
   score f axis s = Raise IndexError) /\
  (- len (num_labels c) <= axis < 0 ->
   exists n s',
     nth_error (num_labels c) (Z.to_nat (len (num_labels c) + axis)) = Some n /\
     score f axis s = Ok (repeat 0%Q n, s')).
Proof.
  intros Hit Hsup. split.
  - intro Hout.
    assert (Hidx : py_index (num_labels c) axis = Raise IndexError).
    { unfold py_index, py_pos.
      destruct Hout as [Hlo|Hhi].
      - destruct (Z.leb_spec 0 axis); [unfold len in *; lia|].
        destruct (Z.leb_spec (- len (num_labels c)) axis); [lia|].
        rewrite andb_false_r. reflexivity.
      - destruct (Z.ltb_spec axis (len (num_labels c))); [lia|].
        destruct (Z.ltb_spec axis 0); [unfold len in *; lia|].
        rewrite andb_false_r. reflexivity. }
    unfold score. mrun. rewrite Hsup. simpl. rewrite Hit. simpl.
    destruct (2 <? Args.verbose args); simpl; rewrite Hidx; reflexivity.
  - intro Hneg.
    assert (Hlt : (Z.to_nat (len (num_labels c) + axis)
                   < length (num_labels c))%nat) by (unfold len in *; lia).
    destruct (nth_error (num_labels c) (Z.to_nat (len (num_labels c) + axis)))
      as [n|] eqn:En; [|apply nth_error_None in En; lia].
    assert (Hidx : py_index (num_labels c) axis = Ok n).
    { unfold py_index, py_pos.
      destruct (Z.leb_spec 0 axis); [lia|].
      destruct (Z.ltb_spec axis 0); [|lia].
      destruct (Z.leb_spec (- len (num_labels c)) axis); [|lia].
      simpl. rewrite En. reflexivity. }
    destruct (score_untrained s f axis c n Hit Hsup Hidx) as (s' & H & _).
    exists n, s'. split; [reflexivity|exact H].
Qed.

(** *** The loss queue under [update] *)

Lemma evaluate_queue f axis train s e s' :
  evaluate f axis train s = Ok (e, s') ->
  _losses s' = _losses s /\ _iteration s' = _iteration s.
Proof.
  intro H. split.
  - exact (evaluate_losses f axis train _ _ _ H).
  - exact (evaluate_iteration f axis train _ _ _ H).
Qed.

(** X20. A call of [update] that returns has only appended to the loss
    queue: the terms queued before are still there, in their order, the new
    terms are selections of the true label, and the iteration counter is
    unchanged. *)
Theorem update_only_appends s f axis pred true_ importance s' :
  update f axis pred true_ importance s = Ok (tt, s') ->
  _iteration s' = _iteration s /\
  exists added,
    _losses s' = _losses s ++ added /\
    Forall (fun t => exists e, t = pick e true_) added.
Proof.
  intro H. unfold update in H.
  apply bind_ok in H. destruct H as ([] & s0 & H0 & H).
  assert (E0 : _losses s0 = _losses s /\ _iteration s0 = _iteration s).
  { unfold super in H0. mrun_in H0.
    destruct (super_update (base s) f axis pred true_ importance);
      [|discriminate].
    inversion H0; subst. auto. }
  destruct E0 as [El Ei]. rewrite <- El, <- Ei.
  set (I := fun (_ : list Z) (t : @NeuralNetwork B) =>
              _iteration t = _iteration s0 /\
              exists added, _losses t = _losses s0 ++ added /\
                Forall (fun t => exists e, t = pick e true_) added).
  apply (for_each_partial I) in H; [exact H| |].
  - clear H. intros done x t t' _ (Hi & added & Hl & Hf) Hbody.
    apply bind_ok in Hbody. destruct Hbody as (e & t1 & H1 & Hbody).
    apply bind_ok in Hbody. destruct Hbody as ([] & t2 & H2 & Hbody).
    inversion H2; subst t2. clear H2.
    destruct (evaluate_queue _ _ _ _ _ _ H1) as [Ql Qi].
    assert (E : t' = set_losses (_losses t1 ++ [pick e true_]) t1).
    { unfold when in Hbody. destruct (Args.dynet_viz args).
      - apply bind_ok in Hbody. destruct Hbody as (? & ? & _ & Hr).
        discriminate.
      - inversion Hbody. reflexivity. }
    subst t'. split; [simpl; congruence|].
    exists (added ++ [pick e true_]). split.
    + simpl. rewrite Ql, Hl, app_assoc. reflexivity.
    + apply Forall_app. split; [exact Hf|]. constructor; eauto.
  - split; [reflexivity|]. exists []. split; [now rewrite app_nil_r|constructor].
Qed.

End Properties.

(** * The properties on the concrete network *)

Import Example.

Lemma plain_params_nodup : NoDup (keys plain_params).
Proof. repeat constructor; simpl; intuition discriminate. Qed.

Lemma indexed_params_nodup : NoDup (keys indexed_params).
Proof. repeat constructor; simpl; intuition discriminate. Qed.

Lemma plain_dims_ok : dims_ok plain_params.
Proof.
  intros k p [H|[H|[]]] _; inversion H; subst; simpl; lia.
Qed.

Lemma plain_no_indexed : no_indexed plain_params.
Proof. intros k p [H|[H|[]]] _; inversion H; reflexivity. Qed.

Lemma f1_valid : valid_features plain_params f1.
Proof.
  split; [|split].
  - repeat constructor; simpl; intuition discriminate.
  - intros k vals [H|[H|[]]]; inversion H; subst.
    + exists wordf. split; [now left|]. right. reflexivity.
    + exists numf. split; [right; now left|]. reflexivity.
  - intros k p [H|[H|[]]] _; inversion H; subst; simpl; auto.
Qed.

Lemma f_indexed_valid : valid_features indexed_params f_indexed.
Proof.
  split; [|split].
  - repeat constructor; simpl; intuition discriminate.
  - intros k vals [H|[H|[]]]; inversion H; subst.
    + exists numf. split; [now left|]. reflexivity.
    + exists idxf. split; [right; now left|]. right. reflexivity.
  - intros k p [H|[H|[]]] _; inversion H; subst; simpl; auto.
Qed.

Lemma capacity_check_witness :
  resize (Some 0) at_capacity = Ok (tt, at_capacity) /\
  resize (Some 0) over_capacity = Raise (capacity_error 0 6 5) /\
  exists i l m,
    resize None over_capacity = Raise (capacity_error i l m) /\
    m < Z.of_nat l.
Proof.
  split.
  - destruct (capacity_check at_capacity 0 5 5) as [H _];
      [reflexivity|reflexivity|].
    apply H. simpl. lia.
  - destruct (capacity_check over_capacity 0 6 5) as [_ H];
      [reflexivity|reflexivity|].
    apply H. simpl. lia.
Defined.

Lemma score_before_training_witness :
  _iteration fresh = 0 /\
  exists s', score f1 0 fresh = Ok ([0; 0]%Q, s').
Proof.
  split; [reflexivity|].
  destruct (score_before_training fresh f1 0 [2%nat] 2) as (s' & H & _);
    [reflexivity|reflexivity|reflexivity|].
  exists s'. exact H.
Defined.

Lemma minibatch_trigger_witness :
  run_updates calls fresh = Ok (tt, queued) /\
  len (_losses queued) = _minibatch_size fresh /\
  exists s',
    finished_item true queued = Ok (tt, s') /\
    _iteration s' = _iteration queued + 1 /\
    _losses s' = [].
Proof.
  assert (H : run_updates calls fresh = Ok (tt, queued))
    by (vm_compute; reflexivity).
  split; [exact H|]. split; [reflexivity|].
  apply (minibatch_trigger calls fresh queued [2%nat]).
  - intro Hm. exfalso. apply Hm. reflexivity.
  - exact plain_dims_ok.
  - reflexivity.
  - simpl. lia.
  - exact H.
  - reflexivity.
  - reflexivity.
Defined.

Lemma update_appends_witness :
  int (5#2) = 2 /\
  exists s',
    update f1 0 1 0 (5#2) fresh = Ok (tt, s') /\
    len (_losses s') = 2 /\
    exists e, _losses s' = [pick e 0; pick e 0].
Proof.
  split; [reflexivity|].
  apply (update_appends fresh f1 0 1 0 (5#2) [2%nat]);
    [reflexivity|reflexivity|].
  intros _. eexists. eexists. vm_compute. reflexivity.
Defined.

Lemma indexed_count_checked_witness :
  declared_indexed_num indexed_params = 3 /\
  generate_inputs built_indexed f_indexed_short
  = Raise (index_count_error [Int 0; Int 1] 3).
Proof.
  split; [reflexivity|].
  apply (indexed_count_checked fresh_indexed built_indexed f_indexed_short
           [inputVector [1#10; -2#10]%Q] [Int 0; Int 1]).
  - exact indexed_params_nodup.
  - vm_compute. reflexivity.
  - vm_compute. reflexivity.
  - discriminate.
  - vm_compute. discriminate.
Defined.

Lemma assembled_width_witness :
  declared_input_dim plain_params = 8 /\
  exists ys,
    generate_inputs built f1 = Ok ys /\
    generate_inputs built f2 = Ok ys /\
    _input_dim built = Some 8 /\
    vec_len (concatenate ys) = 8.
Proof.
  split; [reflexivity|].
  apply (assembled_width fresh built f1 f2).
  - vm_compute. reflexivity.
  - exact plain_params_nodup.
  - exact plain_dims_ok.
  - exact plain_no_indexed.
  - exact f1_valid.
  - apply perm_swap.
Defined.

Lemma mlp_shapes_witness :
  exists s',
    init_mlp_params before_mlp = Ok (tt, s') /\
    affine_layer s' 0 0 = Some (8, 4) /\
    affine_layer s' 1 0 = Some (4, 3) /\
    affine_layer s' 2 0 = Some (3, 5) /\
    affine_layer s' 3 0 = None.
Proof.
  destruct (mlp_shapes before_mlp [[10; 3]] 8) as (s' & Hi & Hs).
  - reflexivity.
  - reflexivity.
  - intros r i a. reflexivity.
  - simpl. lia.
  - simpl. lia.
  - exists s'. split; [exact Hi|].
    destruct (Hs 0%nat 5) as [Hiff Hshape]; [simpl; lia|reflexivity|].
    split; [apply (Hshape 0); simpl; lia|].
    split; [apply (Hshape 1); simpl; lia|].
    split; [apply (Hshape 2); simpl; lia|].
    destruct (affine_layer s' 3 0) as [x|] eqn:E; [|reflexivity].
    assert (H : 0 <= 3 <= _layers before_mlp)
      by (apply (proj1 (Hiff 3)); change (Z.of_nat 0) with 0; congruence).
    simpl in H. lia.
Defined.



Lemma score_cache_frame_witness :
  _value once = [Some output] /\
  _losses once <> [] /\
  exists s',
    finalize true once = Ok (tt, s') /\
    _iteration s' = 1 /\
    _value s' = [Some output] /\
    finished_step true s' = Ok (tt, set_value [None] s').
Proof.
  assert (Hv : _value once = [Some output]) by (vm_compute; reflexivity).
  split; [exact Hv|]. split; [vm_compute; discriminate|].
  destruct score_cache_frame as (Hfin & _ & _ & _ & Hstep & _).
  pose (s' := after (finalize true) once).
  assert (Hrun : finalize true once = Ok (tt, s'))
    by (vm_compute; reflexivity).
  exists s'. split; [exact Hrun|]. split; [vm_compute; reflexivity|].
  split.
  - rewrite (Hfin once true s' Hrun). exact Hv.
  - rewrite Hstep. vm_compute. reflexivity.
Defined.

(** Counterexamples *)

Lemma interior_layer_not_square :
  init_model fresh = Ok (tt, built) /\
  _layers built = 2 /\
  _layer_dim built = 4 /\
  affine_layer built 1 0 = Some (4, 3) /\
  affine_layer built 1 0 <> Some (_layer_dim built, _layer_dim built).
Proof.
  split; [vm_compute; reflexivity|]. split; [reflexivity|].
  split; [reflexivity|]. split; [reflexivity|]. discriminate.
Qed.


Lemma fractional_importance_truncated :
  exists s',
    update f1 0 1 0 (5#2) fresh = Ok (tt, s') /\
    len (_losses s') = 2 /\
    ~ (inject_Z (len (_losses s')) == 5#2)%Q.
Proof.
  exists (after (update f1 0 1 0 (5#2)) fresh).
  split; [vm_compute; reflexivity|]. split; [reflexivity|]. discriminate.
Qed.

Lemma indexed_features_not_assembled :
  init_model fresh_indexed = Ok (tt, built_indexed) /\
  valid_features indexed_params f_indexed /\
  declared_input_dim indexed_params = 8 /\
  generate_inputs built_indexed f_indexed = Raise index_input_error.
Proof.
  split; [vm_compute; reflexivity|]. split; [exact f_indexed_valid|].
  split; reflexivity.
Qed.


(** The further properties on the concrete network *)

Lemma input_width_allocated_witness :
  _indexed_dim built_indexed = Some 2 /\
  _indexed_num built_indexed = Some 3 /\
  _input_dim built_indexed = Some 8.
Proof.
  destruct (input_width_allocated fresh_indexed built_indexed)
    as (H1 & H2 & H3).
  - vm_compute. reflexivity.
  - exact indexed_params_nodup.
  - rewrite H1, H2, H3. vm_compute. auto.
Defined.

Lemma init_model_succeeds_witness :
  exists s', init_model fresh = Ok (tt, s') /\ ready s'.
Proof.
  destruct (init_model_succeeds fresh) as (s' & H & Hr & _).
  - exact plain_dims_ok.
  - vm_compute. lia.
  - exists s'. split; assumption.
Defined.

Lemma init_model_too_many_axes_witness :
  init_model two_axes = Raise IndexError.
Proof. apply init_model_too_many_axes. vm_compute. lia. Defined.

Lemma evaluate_again_witness :
  evaluate f2 0 false (after (evaluate f1 0 true) fresh)
  = Ok (output, after (evaluate f1 0 true) fresh).
Proof.
  apply (evaluate_again fresh f1 0 true output). vm_compute. reflexivity.
Defined.

Lemma dropout_per_layer_witness :
  exists e,
    @evaluate_mlp _ base_class env_dropout built_dropout f1 0 true = Ok e /\
    dropouts e = 3%nat /\ well_placed e = true /\
    exists e',
      @evaluate_mlp _ base_class env_dropout built_dropout f1 0 false = Ok e' /\
      dropouts e' = 0%nat.
Proof.
  assert (Hev : forall k v,
            dict_get String.eqb (_empty_values built_dropout) k = Some v ->
            plain v).
  { intros k v H.
    replace (_empty_values built_dropout)
      with [("w", inputVector [0; 0; 0]%Q)] in H
      by (vm_compute; reflexivity).
    cbn [dict_get] in H.
    destruct (String.eqb _ _); [|discriminate H].
    assert (Hv : v = inputVector [0; 0; 0]%Q) by congruence.
    rewrite Hv. split; reflexivity. }
  destruct (@evaluate_mlp _ base_class env_dropout built_dropout f1 0 true)
    as [e|] eqn:E1; [|vm_compute in E1; discriminate].
  destruct (@evaluate_mlp _ base_class env_dropout built_dropout f1 0 false)
    as [e'|] eqn:E2; [|vm_compute in E2; discriminate].
  destruct (@dropout_per_layer _ base_class env_dropout
              built_dropout f1 0 true e Hev E1) as [Hd Hw].
  destruct (@dropout_per_layer _ base_class env_dropout
              built_dropout f1 0 false e' Hev E2) as [Hd' _].
  exists e. split; [reflexivity|]. split.
  - rewrite Hd. vm_compute. reflexivity.
  - split; [exact Hw|].
    exists e'. split; [reflexivity|]. rewrite Hd'. reflexivity.
Defined.

Lemma score_never_trains_witness :
  _iteration settled = 1 /\ _losses settled = [] /\
  exists s',
    @score _ base_class env_values f1 0 settled
    = Ok ([-(1#2); -(3#2)]%Q, s') /\
    _losses s' = [] /\ _iteration s' = 1.
Proof.
  assert (Hi : _iteration settled = 1) by (vm_compute; reflexivity).
  assert (Hl : _losses settled = []) by (vm_compute; reflexivity).
  split; [exact Hi|]. split; [exact Hl|].
  pose (s' := after (@score _ base_class env_values f1 0) settled).
  assert (H : @score _ base_class env_values f1 0 settled
              = Ok ([-(1#2); -(3#2)]%Q, s')) by (vm_compute; reflexivity).
  exists s'. split; [exact H|].
  rewrite <- Hl, <- Hi.
  exact (@score_never_trains _ base_class env_values settled f1 0 _ s' H).
Defined.

Lemma score_trained_witness :
  py_index (_value settled) 0 = Ok None /\
  exists e s',
    @evaluate_mlp _ base_class env_values (set_base [2%nat] settled) f1 0 false
    = Ok e /\
    @score _ base_class env_values f1 0 settled
    = Ok ([-(1#2); -(3#2)]%Q, s') /\
    py_index (_value s') 0 = Ok (Some e).
Proof.
  assert (Hv : py_index (_value settled) 0 = Ok None)
    by (vm_compute; reflexivity).
  split; [exact Hv|].
  destruct (@evaluate_mlp _ base_class env_values (set_base [2%nat] settled)
              f1 0 false) as [e|] eqn:E; [|vm_compute in E; discriminate].
  destruct (@score_trained _ base_class env_values settled f1 0 [2%nat] e 2)
    as (s1 & H & _ & Hc & _).
  - vm_compute. reflexivity.
  - reflexivity.
  - vm_compute. discriminate.
  - exact Hv.
  - exact E.
  - reflexivity.
  - exists e, s1. split; [reflexivity|]. split; [exact H|exact Hc].
Defined.

Lemma finished_item_keeps_queue_witness :
  len (_losses once) < _minibatch_size once /\
  finished_item true once
  = Ok (tt, set_value (repeat None (length (num_labels (base once)))) once).
Proof.
  assert (Hlt : len (_losses once) < _minibatch_size once)
    by (vm_compute; reflexivity).
  split; [exact Hlt|].
  apply (finished_item_keeps_queue once Hlt).
  replace (_input_params once) with plain_params by (vm_compute; reflexivity).
  exact plain_dims_ok.
Defined.

Lemma finalize_without_losses_witness :
  exists s',
    finalize true built = Ok (tt, s') /\
    _iteration s' = _iteration built /\
    In trainer_update_epoch (closing_events true).
Proof.
  destruct (finalize_without_losses true built [2%nat])
    as (s' & H & _ & Hi & _ & _ & _ & He & _).
  - vm_compute. reflexivity.
  - vm_compute. split; discriminate.
  - vm_compute. reflexivity.
  - exists s'. split; [exact H|]. split; [exact Hi|].
    apply He. reflexivity.
Defined.

Lemma network_created_on_demand_witness :
  model fresh = None /\
  exists s', finalize false fresh = Ok (tt, s') /\ ready s'.
Proof.
  split; [reflexivity|].
  destruct (network_created_on_demand fresh) as (_ & Hf & _).
  - intro H. exfalso. apply H. reflexivity.
  - pose (s' := after (finalize false) fresh).
    assert (H : finalize false fresh = Ok (tt, s'))
      by (vm_compute; reflexivity).
    exists s'. split; [exact H|]. exact (Hf false s' H).
Defined.

Lemma update_viz_exits_witness :
  @update _ base_class env_viz f1 0 1 0 1%Q fresh_viz = Raise (SystemExit 0).
Proof.
  pose (s1 := after (@evaluate _ base_class env_viz f1 0 true)
                (set_base [2%nat] fresh_viz)).
  pose (e := value_of (@evaluate _ base_class env_viz f1 0 true)
               (set_base [2%nat] fresh_viz) (inputVector [])).
  destruct (@update_viz_exits _ base_class env_viz fresh_viz f1 0 1 0 1%Q
              [2%nat]) as [_ H].
  - reflexivity.
  - vm_compute. reflexivity.
  - apply (H ltac:(vm_compute; reflexivity) e s1).
    vm_compute. reflexivity.
Defined.

Lemma undeclared_feature_rejected_witness :
  exists e, generate_inputs built f_unknown = Raise e.
Proof.
  apply (undeclared_feature_rejected built f_unknown "zzz").
  - simpl. auto.
  - vm_compute. reflexivity.
Defined.

Lemma numeric_features_pass_through_witness :
  generate_inputs built f_numeric
  = Ok [inputVector [1 # 10; inject_Z 7; -2 # 10]%Q].
Proof.
  rewrite (numeric_features_pass_through built f_numeric).
  - reflexivity.
  - intros k vals [H|[]]. inversion H; subst.
    exists numf. split; vm_compute; reflexivity.
Defined.

Lemma missing_value_zero_vector_witness :
  lookup_value built "w" (Int (-1)) = Ok (inputVector [0; 0; 0]%Q) /\
  exists T,
    is_table_of wordf T /\
    lookup_value built "w" (Int 1) = Ok (lookup T (Int 1)).
Proof.
  destruct (missing_value_zero_vector fresh built "w" wordf)
    as [H (T & HT & Hz)].
  - vm_compute. reflexivity.
  - exact plain_params_nodup.
  - exact plain_dims_ok.
  - left. reflexivity.
  - split; [reflexivity|discriminate].
  - split; [exact H|].
    exists T. split; [exact HT|].
    apply Hz.
    + split; [discriminate|reflexivity].
    + intro K. discriminate K.
Defined.

Lemma no_hidden_layer_witness :
  exists s',
    init_mlp_params before_mlp_flat = Ok (tt, s') /\
    affine_layer s' 0 0 = Some (8, 3).
Proof.
  destruct (no_hidden_layer before_mlp_flat [[10; 3]] 8) as (s' & H & Hs).
  - vm_compute. reflexivity.
  - vm_compute. reflexivity.
  - vm_compute. lia.
  - vm_compute. reflexivity.
  - exists s'. split; [exact H|].
    assert (K : affine_layer s' 0 (Z.of_nat 0)
                = Some (8, _output_dim before_mlp_flat))
      by (apply Hs; vm_compute; lia).
    change (Z.of_nat 0) with 0 in K. rewrite K. vm_compute. reflexivity.
Defined.

Lemma save_model_removal_witness :
  exists d s',
    save_model once = Ok (d, s') /\
    trace s' = trace trained ++ removal_events trained ++ saving_events trained.
Proof.
  destruct (save_model_removal once trained []) as [_ H].
  - vm_compute. reflexivity.
  - vm_compute. reflexivity.
  - destruct (save_model once) as [[d s']|] eqn:E;
      [|vm_compute in E; discriminate].
    exists d, s'. split; [reflexivity|]. exact (proj1 (H d s' eq_refl)).
Defined.

Lemma score_axis_index_witness :
  score f1 5 fresh = Raise IndexError /\
  exists n s',
    nth_error [2%nat] 0 = Some n /\ score f1 (-1) fresh = Ok (repeat 0%Q n, s').
Proof.
  split.
  - destruct (score_axis_index fresh f1 5 [2%nat]) as [H _];
      [reflexivity|reflexivity|].
    apply H. right. vm_compute. intro K. discriminate K.
  - destruct (score_axis_index fresh f1 (-1) [2%nat]) as [_ H];
      [reflexivity|reflexivity|].
    apply H. vm_compute. split; [intro K; discriminate K|reflexivity].
Defined.

Lemma update_only_appends_witness :
  _iteration once = _iteration fresh /\
  exists added,
    _losses once = _losses fresh ++ added /\
    Forall (fun t => exists e, t = pick e 0) added.
Proof.
  apply (update_only_appends fresh f1 0 1 0 1%Q once).
  vm_compute. reflexivity.
Defined.
